(** * FileMover: the browser-side engine of [apps/gui/src/services]

  A shallow embedding of the scanner, planner and executor services
  ([FileScanner], [PlanGenerator], [FileExecutor]) together with the
  properties of the engine specification that they decide, followed by
  the session manager that drives the services ([SessionManager]), the
  rule editor of the setup page, and further properties of all of them.

  Modelling conventions.
  - JavaScript strings are sequences of code units; the model keeps the
    code units below 256 ([Ascii.ascii]), on which [toLowerCase] is the
    Latin-1 case mapping.
  - JavaScript numbers that hold sizes and counters are integers ([Z]);
    the values returned by [Math.random] are rationals of the unit
    interval with 53 random bits, and [Math.floor] is [Qfloor].
    Arithmetic is exact. The code computes in binary64, which gives the
    same sums as long as they are sums of byte counts within [2^53]
    ([Spec.safeSum]), and which can round a product with a random number
    to a neighbour of the exact one.
  - [Math.random] and [new Date()] are effects: the random source is
    threaded through every function that draws from it, in the order in
    which the source draws, and the clock is an argument.
  - The [RegExp] engine applied to user patterns is not part of the
    repository: it is a parameter of the matcher. *)

From Stdlib Require Import QArith Qround.
From Stdlib Require Import Ascii.
From stdpp Require Import gmap strings list fin_maps pretty.

Local Open Scope Z_scope.

(* ===================================================================== *)
(** * JavaScript string primitives used by the services *)
(* ===================================================================== *)

Module JsString.

(** [String.prototype.toLowerCase] on one code unit below 256:
    [A-Z], [U+00C0 - U+00D6] and [U+00D8 - U+00DE] move up by 32. *)
Definition lowerChar (c : ascii) : ascii :=
  let n := N_of_ascii c in
  if ((65 <=? n) && (n <=? 90))%N
     || ((192 <=? n) && (n <=? 222) && negb (n =? 215))%N
  then ascii_of_N (n + 32)
  else c.

Fixpoint toLowerCase (s : string) : string :=
  match s with
  | EmptyString => EmptyString
  | String c s' => String (lowerChar c) (toLowerCase s')
  end.

(** [s.includes(sub)]: [sub] occurs in [s] at some position. *)
Fixpoint includes (s sub : string) : bool :=
  String.prefix sub s
  || match s with
     | EmptyString => false
     | String _ s' => includes s' sub
     end.

Fixpoint drop (n : nat) (s : string) : string :=
  match n, s with
  | O, _ => s
  | S _, EmptyString => EmptyString
  | S n', String _ s' => drop n' s'
  end.

Fixpoint take (n : nat) (s : string) : string :=
  match n, s with
  | O, _ => EmptyString
  | S _, EmptyString => EmptyString
  | S n', String c s' => String c (take n' s')
  end.

(** [s.lastIndexOf(c)] for a one-character needle; [-1] when absent. *)
Fixpoint lastIndexOfFrom (c : ascii) (s : string) (i : Z) (found : Z) : Z :=
  match s with
  | EmptyString => found
  | String d s' =>
      lastIndexOfFrom c s' (i + 1) (if Ascii.eqb d c then i else found)
  end.

Definition lastIndexOf (s : string) (c : ascii) : Z :=
  lastIndexOfFrom c s 0 (-1).

(** [s.substring(a, b)]: both ends are clamped to [0 .. length] and
    swapped when out of order. *)
Definition substring (s : string) (a b : Z) : string :=
  let len := Z.of_nat (String.length s) in
  let a' := Z.min (Z.max a 0) len in
  let b' := Z.min (Z.max b 0) len in
  let lo := Z.min a' b' in
  let hi := Z.max a' b' in
  take (Z.to_nat (hi - lo)) (drop (Z.to_nat lo) s).

(** [s.split(sep)] for a one-character separator: never empty. *)
Fixpoint split (s : string) (sep : ascii) : list string :=
  match s with
  | EmptyString => [EmptyString]
  | String c s' =>
      if Ascii.eqb c sep then EmptyString :: split s' sep
      else match split s' sep with
           | h :: t => String c h :: t
           | [] => [String c EmptyString]
           end
  end.

(** [arr.pop()] of a freshly split array, and [arr[0]]. *)
Definition pop (l : list string) : string := List.last l EmptyString.
Definition first (l : list string) : string := List.hd EmptyString l.

(** [GetSubstitution] for a string pattern (no capture groups): only
    [$$], [$&], [$`] and [$'] are special in the replacement text. *)
Fixpoint getSubstitution (matched before after repl : string) : string :=
  match repl with
  | EmptyString => EmptyString
  | String c r =>
      if Ascii.eqb c "$" then
        match r with
        | String d r' =>
            if Ascii.eqb d "$" then
              String "$" (getSubstitution matched before after r')
            else if Ascii.eqb d "&" then
              matched +:+ getSubstitution matched before after r'
            else if Ascii.eqb d "`" then
              before +:+ getSubstitution matched before after r'
            else if Ascii.eqb d "'" then
              after +:+ getSubstitution matched before after r'
            else String c (getSubstitution matched before after r)
        | EmptyString => String c EmptyString
        end
      else String c (getSubstitution matched before after r)
  end.

(** [s.replace(pat, repl)] with a string pattern: the first occurrence
    only; [before] is the text already scanned. *)
Fixpoint replaceFrom (pat repl before s : string) : string :=
  if String.prefix pat s then
    let after := drop (String.length pat) s in
    before +:+ getSubstitution pat before after repl +:+ after
  else
    match s with
    | EmptyString => before
    | String c s' =>
        replaceFrom pat repl (before +:+ String c EmptyString) s'
    end.

Definition replace (s pat repl : string) : string :=
  replaceFrom pat repl EmptyString s.

Fixpoint repeatChar (c : ascii) (n : nat) : string :=
  match n with
  | O => EmptyString
  | S n' => String c (repeatChar c n')
  end.

(** [s.padStart(n, c)] with a one-character filler. *)
Definition padStart (s : string) (n : nat) (c : ascii) : string :=
  repeatChar c (n - String.length s) +:+ s.

(** Truthiness of a string, and of an optional string or number. *)
Definition truthy (s : string) : bool :=
  negb (String.eqb s EmptyString).

End JsString.

(* ===================================================================== *)
(** * The random source and the clock *)
(* ===================================================================== *)

Module Effects.

(** An infinite supply of draws and the number of draws consumed. *)
Record Rng := mkRng { stream : nat -> N; pos : nat }.

Definition two53 : positive := 9007199254740992.

(** [Math.random()]: a rational in the unit interval, 53 bits. *)
Definition random (g : Rng) : Q * Rng :=
  (Z.of_N (stream g (pos g) mod Npos two53) # two53,
   mkRng (stream g) (S (pos g))).

Definition Qltb (x y : Q) : bool := negb (Qle_bool y x).

(** The fields of [new Date()] read by the scanner (local time), and the
    same instant's year and month in UTC for comparison. Months are
    zero-based as in JavaScript. *)
Record Clock := mkClock {
  fullYear : N;
  month : N;
  date : N;
  utcFullYear : N;
  utcMonth : N
}.

End Effects.

(* ===================================================================== *)
(** * Shared types ([types/index.ts]) *)
(* ===================================================================== *)

Module Types.

(** Names follow [types/index.ts]. Where two interfaces share a field or
    tag name the later one is prefixed: the policy [Skip] is [PolicySkip],
    the operation kind [None] is [OpNone], the conflict tag [Permission]
    is [PermissionConflict], the fields of [PlanNode] that repeat those
    of [FolderHit] or [Rule] are [node_id], [node_kind],
    [node_size_bytes] and [node_warnings], and the [conflicts] and
    [warnings] counters of [PlanSummary] are [sum_conflicts] and
    [sum_warnings]. *)

Inductive PatternKind := Glob | Regex | Contains.
Inductive ConflictPolicy := AutoRename | PolicySkip | Overwrite.

Record PatternSpec := mkPattern {
  kind : PatternKind;
  value : string;
  is_exclude : bool;
  case_insensitive : bool
}.

Record Rule := mkRule {
  id : string;
  enabled : bool;
  pattern : PatternSpec;
  dest_root : string;
  template : string;
  policy : ConflictPolicy;
  label : option string;
  priority : Z
}.

Inductive Warning :=
  LongPath | AclDiffers | Offline | AccessDenied | Junction | CrossVolume.

Record FolderHit := mkHit {
  path : string;
  name : string;
  matched_rule : option string;
  dest_preview : option string;
  warnings : list Warning;
  size_bytes : option Z
}.

Inductive OpKind := Move | CopyDelete | Rename | Skip | OpNone.

Inductive Permission := Administrator | FileSystemWrite | NetworkAccess.

(** [Conflict] is a record with a [type] tag and optional payload
    fields; each tag carries the fields the planner fills in. *)
Inductive Conflict :=
| NameExists (existing_path : string)
| CycleDetected
| DestInsideSource
| NoSpace (required available : Z)
| PermissionConflict (required_permission : Permission).

Record PlanNode := mkNode {
  node_id : string;
  is_dir : bool;
  name_before : string;
  path_before : string;
  name_after : string;
  path_after : string;
  node_kind : OpKind;
  node_size_bytes : option Z;
  node_warnings : list Warning;
  conflicts : list Conflict;
  children : list string;
  rule_id : option string
}.

Record PlanSummary := mkSummary {
  count_dirs : Z;
  count_files : Z;
  total_bytes : Z;
  cross_volume : Z;
  sum_conflicts : Z;
  sum_warnings : Z
}.

Record MovePlan := mkPlan {
  roots : list string;
  nodes : gmap string PlanNode;
  summary : PlanSummary
}.

Inductive SessionStatus := Created | Running | Completed | Failed | Cancelled.

Global Instance Warning_eq_dec : EqDecision Warning.
Proof. solve_decision. Defined.
Global Instance OpKind_eq_dec : EqDecision OpKind.
Proof. solve_decision. Defined.
Global Instance Permission_eq_dec : EqDecision Permission.
Proof. solve_decision. Defined.
Global Instance Conflict_eq_dec : EqDecision Conflict.
Proof. solve_decision. Defined.

(** Truthiness of the optional fields tested with [&&] and [||]. *)
Definition truthyString (o : option string) : option string :=
  match o with
  | Some s => if JsString.truthy s then Some s else None
  | None => None
  end.

Definition truthyNumber (o : option Z) : option Z :=
  match o with
  | Some n => if n =? 0 then None else Some n
  | None => None
  end.

End Types.

(* ===================================================================== *)
(** * [FileScanner] *)
(* ===================================================================== *)

Module FileScanner.
Import JsString Effects Types.

(** The regular expression that [matchGlob] builds: after the three
    [replace] passes every pattern character is either escaped (a
    literal), [.*] (from a star) or [.] (from a question mark). *)
Inductive GlobAtom := GLit (c : ascii) | GAnyChar | GAnySeq.

Definition globAtom (c : ascii) : GlobAtom :=
  if Ascii.eqb c "*" then GAnySeq
  else if Ascii.eqb c "?" then GAnyChar
  else GLit c.

Fixpoint globRegex (pattern : string) : list GlobAtom :=
  match pattern with
  | EmptyString => []
  | String c p => globAtom c :: globRegex p
  end.

(** Without the [s] flag, [.] matches any code unit but a line
    terminator. *)
Definition dotMatches (c : ascii) : bool :=
  negb (Ascii.eqb c "010" || Ascii.eqb c "013").

(** [new RegExp('^' + regex + '$').test(text)] on the atoms above. *)
Fixpoint atomsTest (atoms : list GlobAtom) (text : string) : bool :=
  match atoms with
  | [] => String.eqb text EmptyString
  | GLit c :: rest =>
      match text with
      | String d t => Ascii.eqb c d && atomsTest rest t
      | EmptyString => false
      end
  | GAnyChar :: rest =>
      match text with
      | String d t => dotMatches d && atomsTest rest t
      | EmptyString => false
      end
  | GAnySeq :: rest =>
      (fix star (t : string) : bool :=
         atomsTest rest t
         || match t with
            | String d t' => dotMatches d && star t'
            | EmptyString => false
            end) text
  end.

Definition matchGlob (text pattern : string) : bool :=
  atomsTest (globRegex pattern) text.

Section Matcher.

(** [regexTest source ignoreCase text] stands for
    [new RegExp(source, ignoreCase ? 'i' : '').test(text)]; [None] when the
    constructor throws. *)
Variable regexTest : string -> bool -> string -> option bool.

Definition matchesPattern (text : string) (rule : Rule) : bool :=
  let p := pattern rule in
  let testText := if case_insensitive p then toLowerCase text else text in
  let testValue :=
    if case_insensitive p then toLowerCase (value p) else value p in
  match kind p with
  | Contains => xorb (includes testText testValue) (is_exclude p)
  | Glob => xorb (matchGlob testText testValue) (is_exclude p)
  | Regex =>
      match regexTest testValue (case_insensitive p) text with
      | Some b => xorb b (is_exclude p)
      | None => false
      end
  end.

Fixpoint findMatchingRule (rules : list Rule) (folderName : string)
  : option Rule :=
  match rules with
  | [] => None
  | rule :: rest =>
      if negb (enabled rule) then findMatchingRule rest folderName
      else if matchesPattern folderName rule then Some rule
      else findMatchingRule rest folderName
  end.

End Matcher.

(** A mock folder of [generateRealisticFolders]. *)
Record Folder := mkFolder {
  f_path : string;
  f_name : string;
  f_size : Z
}.

Definition MiB : Z := 1024 * 1024.

(** [a || b] on strings. *)
Definition orElse (a b : string) : string := if truthy a then a else b.

Definition generateRealisticFolders (root : string) : list Folder :=
  let baseName :=
    orElse (pop (split root "\")) (orElse (pop (split root "/")) "root") in
  if includes (toLowerCase root) "documents" then
    [ mkFolder (root +:+ "\Photos\Vacation2024") "Vacation2024" (MiB * 85);
      mkFolder (root +:+ "\Projects\WebApp") "WebApp" (MiB * 45);
      mkFolder (root +:+ "\Old Files\Archive") "Archive" (MiB * 156) ]
  else if includes (toLowerCase root) "downloads" then
    [ mkFolder (root +:+ "\Software\Installers") "Installers" (MiB * 234);
      mkFolder (root +:+ "\Videos\Movies") "Movies" 2684354560;
      mkFolder (root +:+ "\Documents\PDFs") "PDFs" (MiB * 67) ]
  else
    [ mkFolder (root +:+ "\" +:+ baseName +:+ "_backup")
        (baseName +:+ "_backup") (MiB * 123);
      mkFolder (root +:+ "\temp\cache") "cache" (MiB * 34);
      mkFolder (root +:+ "\media\images") "images" (MiB * 78) ].

(** [n.toString()] for a non-negative integer. *)
Definition toString (n : N) : string := pretty n.

Definition generateDestinationPath
    (folder : Folder) (rule : Rule) (now : Clock) : string :=
  let t0 := template rule in
  let t1 := replace t0 "{name}" (f_name folder) in
  let t2 := replace t1 "{year}" (toString (fullYear now)) in
  let t3 := replace t2 "{month}"
              (padStart (toString (month now + 1)) 2 "0") in
  let t4 := replace t3 "{day}" (padStart (toString (date now)) 2 "0") in
  dest_root rule +:+ "\" +:+ t4.

Definition analyzeWarnings (path : string) (g : Rng)
  : list Warning * Rng :=
  let w1 := if (250 <? Z.of_nat (String.length path)) then [LongPath] else [] in
  let w2 :=
    if includes path "$" || includes path "@" then [AclDiffers] else [] in
  let (r1, g1) := random g in
  if Qltb r1 (3 # 10) then
    let (r2, g2) := random g1 in
    (* possibleWarnings[Math.floor(r2 * 2)], an index in {0, 1} *)
    let w3 := if Qfloor (r2 * 2) =? 0 then Junction else CrossVolume in
    (w1 ++ w2 ++ [w3], g2)
  else (w1 ++ w2, g1).

Section Scanner.

Variable regexTest : string -> bool -> string -> option bool.
Variable rules : list Rule.
Variable now : Clock.

(** [matchedRule?.label || matchedRule?.id] *)
Definition labelOrId (rule : Rule) : string :=
  match truthyString (label rule) with
  | Some l => l
  | None => id rule
  end.

Definition makeHit (folder : Folder) (g : Rng) : FolderHit * Rng :=
  let matchedRule := findMatchingRule regexTest rules (f_name folder) in
  let (ws, g') := analyzeWarnings (f_path folder) g in
  (mkHit (f_path folder) (f_name folder)
     (labelOrId <$> matchedRule)
     ((fun rule => generateDestinationPath folder rule now) <$> matchedRule)
     ws
     (Some (f_size folder)),
   g').

(** The [for ... of mockFolders] loop, pushing onto [results]. *)
Fixpoint pushHits (folders : list Folder) (results : list FolderHit)
    (g : Rng) : list FolderHit * Rng :=
  match folders with
  | [] => (results, g)
  | folder :: rest =>
      let (hit, g') := makeHit folder g in
      pushHits rest (results ++ [hit]) g'
  end.

Definition generateMockResults (root : string) (results : list FolderHit)
    (g : Rng) : list FolderHit * Rng :=
  pushHits (generateRealisticFolders root) results g.

(** [startScan]: both branches of the capability test end in
    [generateMockResults]; the session ends [Completed] with the
    accumulated results. *)
Fixpoint scanRoots (scanRootsOf : list string) (results : list FolderHit)
    (g : Rng) : list FolderHit * Rng :=
  match scanRootsOf with
  | [] => (results, g)
  | root :: rest =>
      let (results', g') := generateMockResults root results g in
      scanRoots rest results' g'
  end.

Definition startScan (sessionRoots : list string) (g : Rng)
  : SessionStatus * list FolderHit * Rng :=
  let (results, g') := scanRoots sessionRoots [] g in
  (Completed, results, g').

End Scanner.

End FileScanner.

(* ===================================================================== *)
(** * [PlanGenerator] *)
(* ===================================================================== *)

Module PlanGenerator.
Import JsString Effects Types.

Definition isLetter (c : ascii) : bool :=
  let n := N_of_ascii c in
  (((65 <=? n) && (n <=? 90)) || ((97 <=? n) && (n <=? 122)))%N.

(** [p.match(/^([A-Za-z]):/)]: the captured drive letter. *)
Definition driveLetter (p : string) : option ascii :=
  match p with
  | String c (String d _) =>
      if isLetter c && Ascii.eqb d ":" then Some c else None
  | _ => None
  end.

Definition isCrossVolume (sourcePath destPath : string) : bool :=
  match driveLetter sourcePath, driveLetter destPath with
  | Some s, Some d => negb (Ascii.eqb (lowerChar s) (lowerChar d))
  | _, _ =>
      let sourceRoot := first (split sourcePath "\") in
      let destRoot := first (split destPath "\") in
      negb (String.eqb sourceRoot destRoot)
  end.

Definition hasWarning (w : Warning) (hit : FolderHit) : bool :=
  bool_decide (w ∈ warnings hit).

(** The four checks of [analyzeConflicts], in source order; each [&&]
    draws from [Math.random] only when the tests before it succeeded.
    The [available] space of a NoSpace conflict is the floor of the exact
    product; the binary64 product of the code can round to a neighbour of
    it. *)
Definition nameConflict (hit : FolderHit) (g : Rng)
  : list Conflict * Rng :=
  match truthyString (dest_preview hit) with
  | Some dest =>
      let (r, g') := random g in
      if Qltb r (3 # 10) then ([NameExists (dest +:+ "_backup")], g')
      else ([], g')
  | None => ([], g)
  end.

Definition permissionConflict (hit : FolderHit) : list Conflict :=
  if hasWarning AccessDenied hit then [PermissionConflict Administrator]
  else [].

Definition spaceConflict (hit : FolderHit) (g : Rng)
  : list Conflict * Rng :=
  match truthyNumber (size_bytes hit) with
  | Some size =>
      if 1024 * 1024 * 100 <? size then
        let (r, g1) := random g in
        if Qltb r (2 # 10) then
          let required := size in
          let (r2, g2) := random g1 in
          let available :=
            Qfloor (inject_Z required * ((7 # 10) + r2 * (2 # 10))) in
          if available <? required then ([NoSpace required available], g2)
          else ([], g2)
        else ([], g1)
      else ([], g)
  | None => ([], g)
  end.

Definition cycleConflict (hit : FolderHit) : list Conflict :=
  match truthyString (dest_preview hit) with
  | Some dest =>
      if includes (toLowerCase (path hit)) (toLowerCase dest)
      then [DestInsideSource] else []
  | None => []
  end.

Definition analyzeConflicts (hit : FolderHit) (g : Rng)
  : list Conflict * Rng :=
  let (c1, g1) := nameConflict hit g in
  let c2 := permissionConflict hit in
  let (c3, g3) := spaceConflict hit g1 in
  let c4 := cycleConflict hit in
  (c1 ++ c2 ++ c3 ++ c4, g3).

(** [p.substring(0, p.lastIndexOf('\\'))] *)
Definition parentOf (p : string) : string :=
  substring p 0 (lastIndexOf p "\").

Definition determineOperationKind (hit : FolderHit) (g : Rng)
  : OpKind * Rng :=
  match truthyString (dest_preview hit) with
  | None => (Skip, g)
  | Some dest =>
      let (conflicts, g') := analyzeConflicts hit g in
      if 0 <? Z.of_nat (length conflicts) then (Skip, g')
      else if hasWarning AccessDenied hit then (Skip, g')
      else if isCrossVolume (path hit) dest then (CopyDelete, g')
      else if String.eqb (toLowerCase (parentOf (path hit)))
                         (toLowerCase (parentOf dest))
      then (Rename, g')
      else (Move, g')
  end.

(** [`node_${i}`] *)
Definition nodeId (i : nat) : string := "node_" +:+ pretty i.

(** The local variables of [generatePlan] and the generator's [nodes]
    object, as they stand between two iterations of the loop. *)
Record Locals := mkLocals {
  rootIds : list string;
  totalBytes : Z;
  countDirs : Z;
  countFiles : Z;
  crossVolume : Z;
  totalConflicts : Z;
  totalWarnings : Z;
  nodesObj : gmap string PlanNode;
  rng : Rng
}.

Definition initLocals (g : Rng) : Locals :=
  mkLocals [] 0 0 0 0 0 0 ∅ g.

(** One iteration of the loop over [folderHits]. [totalBytes] is the
    exact sum, which is the sum of the code on sizes within
    [Spec.safeSum]. *)
Definition planIteration (i : nat) (hit : FolderHit) (st : Locals)
  : Locals :=
  let nid := nodeId i in
  let (conflicts, g1) := analyzeConflicts hit (rng st) in
  let (r, g2) := random g1 in
  let estimatedFiles := Qfloor (r * 50) + 10 in
  let bytes :=
    match truthyNumber (size_bytes hit) with
    | Some n => totalBytes st + n
    | None => totalBytes st
    end in
  let cross :=
    match truthyString (dest_preview hit) with
    | Some dest =>
        if isCrossVolume (path hit) dest then crossVolume st + 1
        else crossVolume st
    | None => crossVolume st
    end in
  let (kind, g3) := determineOperationKind hit g2 in
  let node :=
    mkNode nid true (name hit) (path hit) (name hit)
      (match truthyString (dest_preview hit) with
       | Some dest => dest
       | None => path hit
       end)
      kind (size_bytes hit) (warnings hit) conflicts [] (matched_rule hit) in
  mkLocals (rootIds st ++ [nid]) bytes (countDirs st + 1)
    (countFiles st + estimatedFiles) cross
    (totalConflicts st + Z.of_nat (length conflicts))
    (totalWarnings st + Z.of_nat (length (warnings hit)))
    (<[nid := node]> (nodesObj st)) g3.

Fixpoint planLoop (i : nat) (hits : list FolderHit) (st : Locals)
  : Locals :=
  match hits with
  | [] => st
  | hit :: rest => planLoop (S i) rest (planIteration i hit st)
  end.

Record PlanSession := mkPlanSession {
  plan_status : SessionStatus;
  plan : option MovePlan
}.

(** The body of the [try] block of [generatePlan] in a fresh generator:
    [simulateProcessingDelay] draws once, then the loop runs and the plan
    is assembled from the locals. *)
Definition buildPlan (folderHits : list FolderHit) (g : Rng)
  : MovePlan * Rng :=
  let (_, g0) := random g in
  let st := planLoop 0 folderHits (initLocals g0) in
  let summary :=
    mkSummary (countDirs st) (countFiles st) (totalBytes st)
      (crossVolume st) (totalConflicts st) (totalWarnings st) in
  (mkPlan (rootIds st) (nodesObj st) summary, rng st).

(** [generatePlan]: nothing in the body throws, so the session always
    ends [Completed] and carries the plan. *)
Definition generatePlan (folderHits : list FolderHit) (g : Rng)
  : PlanSession * Rng :=
  let (p, g') := buildPlan folderHits g in
  (mkPlanSession Completed (Some p), g').

End PlanGenerator.

(* ===================================================================== *)
(** * [FileExecutor] *)
(* ===================================================================== *)

Module FileExecutor.
Import JsString Effects Types.

Record Operation := mkOperation { op_path : string; op_size : Z }.

Definition extensions : list string :=
  [".jpg"; ".png"; ".pdf"; ".txt"; ".docx"; ".xlsx"; ".mp4"; ".mp3"].

Definition fileNames : list string :=
  ["index.html"; "style.css"; "script.js"; "README.md"; "package.json"].

Definition generateFileName (index : nat) (baseName : string) (g : Rng)
  : string * Rng :=
  let (r, g') := random g in
  let extension := nth (Z.to_nat (Qfloor (r * 8))) extensions EmptyString in
  let lower := toLowerCase baseName in
  if includes lower "photo" || includes lower "vacation" then
    ("IMG_" +:+ padStart (pretty (S index)) 3 "0" +:+ extension, g')
  else if includes lower "project" || includes lower "code" then
    (nth (index mod 5)%nat fileNames EmptyString, g')
  else ("file_" +:+ pretty (S index) +:+ extension, g').

(** The inner loop of [generateFileOperations]: files [i .. fileCount-1]
    of one plan node; [todo] is the number of files still to generate.
    A file's size is the floor of the exact product, of which the code
    computes a binary64 rounding. *)
Fixpoint nodeOperations (node : PlanNode) (fileCount totalSize : Z)
    (i todo : nat) (g : Rng) : list Operation * Rng :=
  match todo with
  | O => ([], g)
  | S todo' =>
      let (fileName, g1) := generateFileName i (name_before node) g in
      let filePath := path_before node +:+ "\" +:+ fileName in
      let (r, g2) := random g1 in
      let fileSize :=
        Qfloor (inject_Z totalSize / inject_Z fileCount * ((1 # 2) + r)) in
      let (rest, g3) :=
        nodeOperations node fileCount totalSize (S i) todo' g2 in
      (mkOperation filePath fileSize :: rest, g3)
  end.

Fixpoint rootOperations (nodesOf : gmap string PlanNode)
    (rootIds : list string) (g : Rng) : list Operation * Rng :=
  match rootIds with
  | [] => ([], g)
  | rootId :: rest =>
      match nodesOf !! rootId with
      | None => rootOperations nodesOf rest g
      | Some node =>
          let (r, g1) := random g in
          let fileCount := Qfloor (r * 30) + 5 in
          let totalSize :=
            match truthyNumber (node_size_bytes node) with
            | Some n => n
            | None => 1024 * 1024 * 50
            end in
          let (ops, g2) :=
            nodeOperations node fileCount totalSize 0
              (Z.to_nat fileCount) g1 in
          let (more, g3) := rootOperations nodesOf rest g2 in
          (ops ++ more, g3)
      end
  end.

Definition generateFileOperations (p : MovePlan) (g : Rng)
  : list Operation * Rng :=
  rootOperations (nodes p) (roots p) g.

(** [Math.floor((50 + size / 1024) * (0.5 + Math.random()))] ms. *)
Definition calculateOperationTime (fileSize : Z) (g : Rng) : Z * Rng :=
  let (r, g') := random g in
  (Qfloor ((50 + inject_Z fileSize / 1024) * ((1 # 2) + r)), g').

Fixpoint sumOperations (nodesOf : gmap string PlanNode)
    (rootIds : list string) (totalOps : Z) : Z :=
  match rootIds with
  | [] => totalOps
  | rootId :: rest =>
      match nodesOf !! rootId with
      | Some node =>
          match node_kind node with
          | Skip | OpNone => sumOperations nodesOf rest totalOps
          | _ =>
              let size :=
                match truthyNumber (node_size_bytes node) with
                | Some n => n
                | None => 1024 * 1024 * 10
                end in
              sumOperations nodesOf rest
                (totalOps + (size / (1024 * 1024) + 5))
          end
      | None => sumOperations nodesOf rest totalOps
      end
  end.

Definition calculateTotalOperations (p : MovePlan) : Z :=
  Z.max (sumOperations (nodes p) (roots p) 0) 10.

(** [session.progress] without the fields derived from [Date.now()]. *)
Record Progress := mkProgress {
  current_item : option string;
  completed_ops : Z;
  total_ops : Z;
  bytes_processed : Z;
  progress_total_bytes : Z
}.

(** Where the asynchronous [executeMovePlan] stands. JavaScript runs each
    stretch of code between two [await]s to completion, so other calls
    (here [cancel]) interleave only at these points:
    - [NotStarted]: [executeMovePlan] has not been called;
    - [InFlight i completedOps processedBytes operations]: suspended at
      [await this.delay(...)] in iteration [i] of [simulateExecution],
      with its local variables;
    - [LoopExited]: [simulateExecution] has returned and the continuation
      of [await this.simulateExecution()] is pending;
    - [Finished]: [executeMovePlan] has returned. *)
Inductive Phase :=
| NotStarted
| InFlight (i : nat) (completedOps processedBytes : Z)
    (operations : list Operation)
| LoopExited
| Finished.

(** The executor object; [started] is a history variable counting the
    operations whose iteration was entered. *)
Record Executor := mkExecutor {
  status : SessionStatus;
  progress : option Progress;
  exec_plan : MovePlan;
  isCancelled : bool;
  phase : Phase;
  exec_rng : Rng;
  started : nat
}.

Definition create (p : MovePlan) (g : Rng) : Executor :=
  mkExecutor Created None p false NotStarted g 0.

Definition setCurrentItem (item : option string) (pr : option Progress)
  : option Progress :=
  (fun p => mkProgress item (completed_ops p) (total_ops p)
              (bytes_processed p) (progress_total_bytes p)) <$> pr.

Definition setCompleted (ops bytes : Z) (pr : option Progress)
  : option Progress :=
  (fun p => mkProgress (current_item p) ops (total_ops p) bytes
              (progress_total_bytes p)) <$> pr.

(** The head of the [for] loop of [simulateExecution]: test
    [i < operations.length && !this.isCancelled], then either run the
    iteration up to its [await] or leave the loop. *)
Definition enterLoop (i : nat) (completedOps processedBytes : Z)
    (operations : list Operation) (e : Executor) : Executor :=
  match operations !! i with
  | Some operation =>
      if isCancelled e then
        mkExecutor (status e) (progress e) (exec_plan e) (isCancelled e)
          LoopExited (exec_rng e) (started e)
      else
        let (_, g') := calculateOperationTime (op_size operation) (exec_rng e) in
        mkExecutor (status e)
          (setCurrentItem (Some (op_path operation)) (progress e))
          (exec_plan e) (isCancelled e)
          (InFlight i completedOps processedBytes operations) g'
          (S (started e))
  | None =>
      mkExecutor (status e) (progress e) (exec_plan e) (isCancelled e)
        LoopExited (exec_rng e) (started e)
  end.

Inductive Event := CallExecute | TimerFires | Continue | CallCancel.

(** What each event does; an event that is not enabled in the current
    phase leaves the executor unchanged. The executor is the one of the
    session manager, which makes a new executor for every execution and
    calls [executeMovePlan] on it once: a second call on the same
    executor, which in the code starts another loop, is not modelled and
    is without effect here. *)
Definition step (e : Executor) (ev : Event) : Executor :=
  match ev, phase e with
  | CallCancel, _ =>
      mkExecutor (status e) (progress e) (exec_plan e) true (phase e)
        (exec_rng e) (started e)
  | CallExecute, NotStarted =>
      let totalOps := calculateTotalOperations (exec_plan e) in
      let totalBytes := total_bytes (summary (exec_plan e)) in
      let (operations, g') := generateFileOperations (exec_plan e) (exec_rng e) in
      enterLoop 0 0 0 operations
        (mkExecutor Running (Some (mkProgress None 0 totalOps 0 totalBytes))
           (exec_plan e) (isCancelled e) (phase e) g' (started e))
  | TimerFires, InFlight i completedOps processedBytes operations =>
      if isCancelled e then
        mkExecutor (status e) (progress e) (exec_plan e) (isCancelled e)
          LoopExited (exec_rng e) (started e)
      else
        let size :=
          match operations !! i with
          | Some operation => op_size operation
          | None => 0
          end in
        let completedOps' := completedOps + 1 in
        let processedBytes' := processedBytes + size in
        (* the draw of the simulated failure, which only logs *)
        let (_, g') := random (exec_rng e) in
        enterLoop (S i) completedOps' processedBytes' operations
          (mkExecutor (status e)
             (setCompleted completedOps' processedBytes' (progress e))
             (exec_plan e) (isCancelled e) (phase e) g' (started e))
  | Continue, LoopExited =>
      if isCancelled e then
        mkExecutor Cancelled (progress e) (exec_plan e) (isCancelled e)
          Finished (exec_rng e) (started e)
      else
        mkExecutor Completed
          ((fun p => mkProgress None (total_ops p) (total_ops p)
                       (progress_total_bytes p) (progress_total_bytes p))
             <$> progress e)
          (exec_plan e) (isCancelled e) Finished (exec_rng e) (started e)
  | _, _ => e
  end.

Definition run (events : list Event) (e : Executor) : Executor :=
  fold_left step events e.

End FileExecutor.

(* ===================================================================== *)
(** * Specification-side definitions *)
(* ===================================================================== *)

(** The notions the engine specification uses to describe the services,
    written from its wording, and the concrete inputs of the examples. *)

Module Spec.
Import JsString Effects Types.

(** An engine that rejects every pattern. The examples use no [Regex]
    rule, so they evaluate alike under every engine. *)
Definition noRegExp : string -> bool -> string -> option bool :=
  fun _ _ _ => None.

Section MatcherSpec.

Variable regexTest : string -> bool -> string -> option bool.

(** "The rule's pattern matches the name": the test of the pattern kind
    on the (case-folded) name, whatever [is_exclude] says. *)
Definition patternHits (text : string) (rule : Rule) : bool :=
  let p := pattern rule in
  let testText := if case_insensitive p then toLowerCase text else text in
  let testValue :=
    if case_insensitive p then toLowerCase (value p) else value p in
  match kind p with
  | Contains => includes testText testValue
  | Glob => FileScanner.matchGlob testText testValue
  | Regex =>
      match regexTest testValue (case_insensitive p) text with
      | Some b => b
      | None => false
      end
  end.

Inductive Verdict := Excluded | Matched (rule : Rule) | NoRule.

(** The rule of lowest priority, the earliest one among equals. *)
Fixpoint firstLowest (l : list Rule) : option Rule :=
  match l with
  | [] => None
  | r :: rest =>
      match firstLowest rest with
      | Some r' => if priority r' <? priority r then Some r' else Some r
      | None => Some r
      end
  end.

(** Exclude bundle first, then the inclusive rules by ascending priority,
    declaration order breaking ties; disabled rules take no part. *)
Definition specVerdict (rules : list Rule) (folderName : string) : Verdict :=
  if existsb (fun r => enabled r && is_exclude (pattern r)
                       && patternHits folderName r) rules
  then Excluded
  else
    match firstLowest
            (List.filter (fun r => enabled r && negb (is_exclude (pattern r))
                                   && patternHits folderName r) rules) with
    | Some r => Matched r
    | None => NoRule
    end.

Definition verdictRule (v : Verdict) : option Rule :=
  match v with
  | Matched r => Some r
  | Excluded | NoRule => None
  end.

(** The matcher as the specification describes it. *)
Definition matcherAsSpecified (rules : list Rule) (folderName : string)
  : Prop :=
  FileScanner.findMatchingRule regexTest rules folderName
  = verdictRule (specVerdict rules folderName).

(** The number of folder names for which the matcher returns a rule. *)
Definition hitCount (rules : list Rule) (names : list string) : nat :=
  length (List.filter
            (fun n => bool_decide
               (is_Some (FileScanner.findMatchingRule regexTest rules n)))
            names).

End MatcherSpec.

Definition disable (r : Rule) : Rule :=
  mkRule (id r) false (pattern r) (dest_root r) (template r) (policy r)
    (label r) (priority r).

(** The rule set with other priorities, [f] giving each rule its own. *)
Definition setPriority (f : Rule -> Z) (r : Rule) : Rule :=
  mkRule (id r) (enabled r) (pattern r) (dest_root r) (template r)
    (policy r) (label r) (f r).

Definition reprioritise (f : Rule -> Z) (rules : list Rule) : list Rule :=
  setPriority f <$> rules.

(** The rule set in which the rule at position [i] has been disabled. *)
Definition disableAt (i : nat) (rules : list Rule) : list Rule :=
  alter disable i rules.

Definition containsRule (rid text : string) (exclude : bool) (prio : Z)
  : Rule :=
  mkRule rid true (mkPattern Contains text exclude true) "D:\Sorted"
    "{name}" AutoRename None prio.

Definition ruleRep : Rule := containsRule "rep" "rep" false 5.
Definition ruleReport : Rule := containsRule "report" "report" false 1.
Definition ruleNoReport : Rule := containsRule "no-report" "report" true 0.

(** ** The scanner as specified *)

(** The folders a scan visits, in visiting order. *)
Definition visitedFolders (scanRootsOf : list string)
  : list FileScanner.Folder :=
  scanRootsOf ≫= FileScanner.generateRealisticFolders.

Section ScannerSpec.

Variable regexTest : string -> bool -> string -> option bool.
Variable rules : list Rule.

(** "A FolderHit is emitted for a visited folder iff the matcher returned
    Matched; its matched_rule is the id of the matched rule; dest_preview
    is present exactly when a rule matched." *)
Definition hitsAsSpecified (folders : list FileScanner.Folder)
    (hits : list FolderHit) : Prop :=
  (forall folder, folder ∈ folders ->
     (exists hit, hit ∈ hits /\ path hit = FileScanner.f_path folder)
     <-> is_Some (FileScanner.findMatchingRule regexTest rules
                    (FileScanner.f_name folder)))
  /\ (forall hit, hit ∈ hits ->
        matched_rule hit
        = id <$> FileScanner.findMatchingRule regexTest rules (name hit))
  /\ (forall hit, hit ∈ hits ->
        is_Some (dest_preview hit)
        <-> is_Some (FileScanner.findMatchingRule regexTest rules (name hit))).

(** What the scanner emits for one visited folder. *)
Definition hitOfFolder (folder : FileScanner.Folder) (hit : FolderHit)
  : Prop :=
  path hit = FileScanner.f_path folder
  /\ name hit = FileScanner.f_name folder
  /\ matched_rule hit
     = FileScanner.labelOrId
         <$> FileScanner.findMatchingRule regexTest rules
               (FileScanner.f_name folder)
  /\ (is_Some (dest_preview hit)
      <-> is_Some (FileScanner.findMatchingRule regexTest rules
                     (FileScanner.f_name folder))).

(** What the loops emit: each hit is made by [makeHit] from its folder
    and some state of the random source. *)
Definition madeFrom (now : Clock) (folder : FileScanner.Folder)
    (hit : FolderHit) : Prop :=
  exists g, hit = (FileScanner.makeHit regexTest rules now folder g).1.

End ScannerSpec.

(** "LongPath is attached exactly when the path length exceeds 247." *)
Definition longPathAsSpecified (path : string) (g : Rng) : Prop :=
  LongPath ∈ (FileScanner.analyzeWarnings path g).1
  <-> (247 < String.length path)%nat.

Definition labelledRule : Rule :=
  mkRule "b" true (mkPattern Contains "report" false true) "D:\Out"
    "{yyyy}\{name}" AutoRename (Some "Reports") 1.

Definition zeroDraws : Rng := mkRng (fun _ => 0%N) 0.
Definition highDraws : Rng := mkRng (fun _ => 9007199254740991%N) 0.

(** 11 September 2025 local time. *)
Definition someDay : Clock := mkClock 2025 8 11 2025 8.

(** A path of [n + 3] characters. *)
Definition pathOfLength (n : nat) : string := "C:\" +:+ repeatChar "a" n.


(** ** The planner as specified *)

(** Source and destination have the same parent directory, ignoring case,
    as [determineOperationKind] compares them. *)
Definition sameParent (p d : string) : Prop :=
  toLowerCase (PlanGenerator.parentOf p)
  = toLowerCase (PlanGenerator.parentOf d).

(** What follows the parent directory in a path: separator and name. *)
Definition afterParent (p : string) : string :=
  drop (String.length (PlanGenerator.parentOf p)) p.

Definition lastComponent (p : string) : string := pop (split p "\").

(** [PlanOptions] of the core API; the browser planner takes none. *)
Record PlanOptions := mkPlanOptions { enable_cross_volume : bool }.

(** "Rename iff the parents resolve to the same directory and the name
    differs; Move iff same volume root but different parents; CopyDelete
    iff different volumes, and only when enable_cross_volume is set." *)
Definition kindAsSpecified (opts : PlanOptions) (hit : FolderHit)
    (g : Rng) : Prop :=
  forall dest,
    truthyString (dest_preview hit) = Some dest ->
    (PlanGenerator.analyzeConflicts hit g).1 = [] ->
    let k := (PlanGenerator.determineOperationKind hit g).1 in
    (k = Rename <->
       sameParent (path hit) dest
       /\ lastComponent (path hit) <> lastComponent dest)
    /\ (k = Move <->
          PlanGenerator.isCrossVolume (path hit) dest = false
          /\ ~ sameParent (path hit) dest)
    /\ (k = CopyDelete <->
          PlanGenerator.isCrossVolume (path hit) dest = true
          /\ enable_cross_volume opts = true).

(** [dest] lies strictly below [src]. *)
Definition isDescendant (dest src : string) : Prop :=
  exists rest, rest <> EmptyString /\ dest = src +:+ "\" +:+ rest.

(** Sum of [f] over the nodes of a plan's node map. *)
Definition nodesSum (f : PlanNode -> Z) (m : gmap string PlanNode) : Z :=
  map_fold (fun _ node acc => acc + f node) 0 m.

Definition sumOver {A} (f : A -> Z) (l : list A) : Z :=
  foldr (fun x acc => f x + acc) 0 l.

(** A hit's size, an absent size counting as zero. *)
Definition sizeOrZero (hit : FolderHit) : Z := default 0 (size_bytes hit).

(** Byte counts whose sum is at most [2^53]: every partial sum is then an
    integer that a JavaScript number holds exactly, and the additions of
    the code are exact. *)
Definition safeSum {A} (f : A -> Z) (l : list A) : Prop :=
  Forall (fun x => 0 <= f x) l /\ sumOver f l <= 2 ^ 53.

Definition pathAfter (hit : FolderHit) : string :=
  default (path hit) (truthyString (dest_preview hit)).

(** The root node of a hit: every field but the conflicts and the
    operation kind is fixed by the hit and the node id. *)
Definition nodeOfHit (hit : FolderHit) (rid : string) (node : PlanNode)
  : Prop :=
  node = mkNode rid true (name hit) (path hit) (name hit) (pathAfter hit)
           (node_kind node) (size_bytes hit) (warnings hit)
           (conflicts node) [] (matched_rule hit).

(** A node without the two fields that depend on [Math.random]. *)
Definition eraseRandom (node : PlanNode) : PlanNode :=
  mkNode (node_id node) (is_dir node) (name_before node)
    (path_before node) (name_after node) (path_after node) OpNone
    (node_size_bytes node) (node_warnings node) [] (children node)
    (rule_id node).

Definition agreeUpToRandom (p1 p2 : MovePlan) : Prop :=
  roots p1 = roots p2
  /\ eraseRandom <$> nodes p1 = eraseRandom <$> nodes p2
  /\ count_dirs (summary p1) = count_dirs (summary p2)
  /\ total_bytes (summary p1) = total_bytes (summary p2)
  /\ cross_volume (summary p1) = cross_volume (summary p2)
  /\ sum_warnings (summary p1) = sum_warnings (summary p2).

(** Two states of the random source that will deliver the same draws. *)
Definition sameDraws (g1 g2 : Rng) : Prop :=
  forall n, stream g1 (pos g1 + n) = stream g2 (pos g2 + n).

(** A computation whose result depends on the random source only through
    the draws still to come. *)
Definition drawsOnly {R} (f : Rng -> R * Rng) : Prop :=
  forall g1 g2, sameDraws g1 g2 ->
    (f g1).1 = (f g2).1 /\ sameDraws (f g1).2 (f g2).2.

(** "The planner produces identical plans for the same input": any two
    runs, whatever [Math.random] delivers. *)
Definition planAsSpecified (hits : list FolderHit) (g1 g2 : Rng) : Prop :=
  (PlanGenerator.buildPlan hits g1).1 = (PlanGenerator.buildPlan hits g2).1.

(** The contribution of a hit to [summary.cross_volume]. *)
Definition crossingCount (hit : FolderHit) : Z :=
  match truthyString (dest_preview hit) with
  | Some dest => if PlanGenerator.isCrossVolume (path hit) dest then 1 else 0
  | None => 0
  end.

(** The loop invariant of [generatePlan] after the hits [done]. *)
Definition planInv (done : list FolderHit) (st : PlanGenerator.Locals)
  : Prop :=
  PlanGenerator.rootIds st
  = PlanGenerator.nodeId <$> seq 0 (length done)
  /\ dom (PlanGenerator.nodesObj st)
     = list_to_set (C := gset string) (PlanGenerator.rootIds st)
  /\ Forall2
       (fun hit rid =>
          exists node, PlanGenerator.nodesObj st !! rid = Some node
                       /\ nodeOfHit hit rid node)
       done (PlanGenerator.rootIds st)
  /\ PlanGenerator.countDirs st = Z.of_nat (length done)
  /\ PlanGenerator.totalBytes st = sumOver sizeOrZero done
  /\ PlanGenerator.totalConflicts st
     = nodesSum (fun node => Z.of_nat (length (conflicts node)))
         (PlanGenerator.nodesObj st)
  /\ PlanGenerator.totalWarnings st
     = nodesSum (fun node => Z.of_nat (length (node_warnings node)))
         (PlanGenerator.nodesObj st).

(** Two runs of the loop that agree on all but the random fields. *)
Definition runsAgree (st1 st2 : PlanGenerator.Locals) : Prop :=
  PlanGenerator.rootIds st1 = PlanGenerator.rootIds st2
  /\ eraseRandom <$> PlanGenerator.nodesObj st1
     = eraseRandom <$> PlanGenerator.nodesObj st2
  /\ PlanGenerator.countDirs st1 = PlanGenerator.countDirs st2
  /\ PlanGenerator.totalBytes st1 = PlanGenerator.totalBytes st2
  /\ PlanGenerator.crossVolume st1 = PlanGenerator.crossVolume st2
  /\ PlanGenerator.totalWarnings st1 = PlanGenerator.totalWarnings st2.

(** The same locals over another state of the random source. *)
Definition withRng (st : PlanGenerator.Locals) (g : Rng)
  : PlanGenerator.Locals :=
  PlanGenerator.mkLocals (PlanGenerator.rootIds st)
    (PlanGenerator.totalBytes st) (PlanGenerator.countDirs st)
    (PlanGenerator.countFiles st) (PlanGenerator.crossVolume st)
    (PlanGenerator.totalConflicts st) (PlanGenerator.totalWarnings st)
    (PlanGenerator.nodesObj st) g.

Definition nestedHit : FolderHit :=
  mkHit "C:\A" "A" (Some "r") (Some "C:\A\sub\A") [] None.
Definition bigHit : FolderHit :=
  mkHit "D:\big" "big" (Some "r") (Some "E:\archive\big") []
    (Some 2147483648).
Definition renameHit : FolderHit :=
  mkHit "C:\src\x" "x" (Some "r") (Some "C:\SRC\y") [] (Some 5).
Definition shareHit : FolderHit :=
  mkHit "srv\x" "x" (Some "r") (Some "SRV\y") [] (Some 5).

(** ** Template expansion *)

(** The tokens the scanner substitutes, and templates as sequences of
    literal text and tokens. *)
Inductive Token := TName | TYear | TMonth | TDay.

Global Instance Token_eq_dec : EqDecision Token.
Proof. solve_decision. Defined.

Inductive Segment := Lit (text : string) | Tok (t : Token).

Definition tokenText (t : Token) : string :=
  match t with
  | TName => "{name}"
  | TYear => "{year}"
  | TMonth => "{month}"
  | TDay => "{day}"
  end.

Definition renderSegment (seg : Segment) : string :=
  match seg with
  | Lit text => text
  | Tok t => tokenText t
  end.

(** The template text of a sequence of segments. *)
Fixpoint render (segs : list Segment) : string :=
  match segs with
  | [] => EmptyString
  | seg :: rest => renderSegment seg +:+ render rest
  end.

(** What each token stands for: the folder's name and the local date,
    month and day padded to two digits. *)
Definition tokenValue (folder : FileScanner.Folder) (now : Clock)
    (t : Token) : string :=
  match t with
  | TName => FileScanner.f_name folder
  | TYear => FileScanner.toString (fullYear now)
  | TMonth => padStart (FileScanner.toString (month now + 1)) 2 "0"
  | TDay => padStart (FileScanner.toString (date now)) 2 "0"
  end.

Definition expandSegment (folder : FileScanner.Folder) (now : Clock)
    (seg : Segment) : string :=
  match seg with
  | Lit text => text
  | Tok t => tokenValue folder now t
  end.

Fixpoint expandAll (folder : FileScanner.Folder) (now : Clock)
    (segs : list Segment) : string :=
  match segs with
  | [] => EmptyString
  | seg :: rest => expandSegment folder now seg +:+ expandAll folder now rest
  end.

Fixpoint hasChar (c : ascii) (s : string) : bool :=
  match s with
  | EmptyString => false
  | String d s' => Ascii.eqb d c || hasChar c s'
  end.

Fixpoint tokensOf (segs : list Segment) : list Token :=
  match segs with
  | [] => []
  | Lit _ :: rest => tokensOf rest
  | Tok t :: rest => t :: tokensOf rest
  end.

(** The literal text of a template holds no opening brace. *)
Definition plainLiterals (segs : list Segment) : Prop :=
  Forall (fun seg => match seg with
                     | Lit text => hasChar "{" text = false
                     | Tok _ => True
                     end) segs.

(** Text that is neither a token nor special in a replacement. *)
Definition plainText (s : string) : Prop :=
  hasChar "{" s = false /\ hasChar "$" s = false.

(** The template in which the token [t] has been replaced by [v]. *)
Definition substToken (t : Token) (v : string) (segs : list Segment)
  : list Segment :=
  (fun seg => match seg with
              | Tok t' => if decide (t' = t) then Lit v else seg
              | Lit _ => seg
              end) <$> segs.

Definition isDigit (c : ascii) : bool :=
  let n := N_of_ascii c in ((48 <=? n) && (n <=? 57))%N.

Fixpoint allDigits (s : string) : bool :=
  match s with
  | EmptyString => true
  | String c s' => isDigit c && allDigits s'
  end.

(** The expansion the specification describes, written from its wording:
    [{name}], [{label}], [{yyyy}], [{yyyyMM}], [{drive}] and [{parent}]
    are substituted, the time-based ones from UTC; any other token makes
    the rule fail to load ([None]). [token] holds the token name read so
    far when the scan is inside braces. *)
Definition specTokenValue (folder : FileScanner.Folder) (rule : Rule)
    (now : Clock) (token : string) : option string :=
  if String.eqb token "name" then Some (FileScanner.f_name folder)
  else if String.eqb token "label" then Some (default EmptyString (label rule))
  else if String.eqb token "yyyy" then
    Some (FileScanner.toString (utcFullYear now))
  else if String.eqb token "yyyyMM" then
    Some (FileScanner.toString (utcFullYear now)
          +:+ padStart (FileScanner.toString (utcMonth now + 1)) 2 "0")
  else if String.eqb token "drive" then
    Some (take 1 (FileScanner.f_path folder))
  else if String.eqb token "parent" then
    Some (lastComponent (PlanGenerator.parentOf (FileScanner.f_path folder)))
  else None.

Fixpoint specExpandFrom (value : string -> option string)
    (token : option string) (s : string) : option string :=
  match s with
  | EmptyString =>
      match token with
      | None => Some EmptyString
      | Some _ => None
      end
  | String c s' =>
      match token with
      | None =>
          if Ascii.eqb c "{" then specExpandFrom value (Some EmptyString) s'
          else String c <$> specExpandFrom value None s'
      | Some read =>
          if Ascii.eqb c "}" then
            match value read, specExpandFrom value None s' with
            | Some v, Some rest => Some (v +:+ rest)
            | _, _ => None
            end
          else specExpandFrom value (Some (read +:+ String c EmptyString)) s'
      end
  end.

Definition specDestination (folder : FileScanner.Folder) (rule : Rule)
    (now : Clock) : option string :=
  (fun t => dest_root rule +:+ "\" +:+ t)
    <$> specExpandFrom (specTokenValue folder rule now) None (template rule).

(** "The destination preview is dest_root joined with the expanded
    template; a template with an unknown token is a load-time error":
    a hit whose rule loads carries the specified destination, and no hit
    is matched by a rule that does not load. *)
Definition previewAsSpecified (folder : FileScanner.Folder) (rule : Rule)
    (now : Clock) (hit : FolderHit) : Prop :=
  match specDestination folder rule now with
  | Some dest => dest_preview hit = Some dest
  | None => dest_preview hit = None
  end.

Definition datedRule : Rule :=
  mkRule "d" true (mkPattern Contains "report" false true) "D:\Sorted"
    "{year}\{month}\{name}" AutoRename None 2.

Definition bogusRule : Rule :=
  mkRule "c" true (mkPattern Contains "report" false true) "D:\Out"
    "{bogus}\{name}" AutoRename None 0.

Definition reportFolder : FileScanner.Folder :=
  FileScanner.mkFolder "D:\report\report_backup" "report_backup"
    (FileScanner.MiB * 123).

(** ** The executor *)

(** What holds of the executor from the cancel signal on: the flag stays
    set, no further operation is started, and a finished run is
    [Cancelled]. *)
Definition cancelledAt (n : nat) (e : FileExecutor.Executor) : Prop :=
  FileExecutor.isCancelled e = true /\ FileExecutor.started e = n
  /\ (FileExecutor.phase e = FileExecutor.Finished
      -> FileExecutor.status e = Cancelled).

(** The phase reached by one event once the executor is cancelled. *)
Definition nextPhaseCancelled (ev : FileExecutor.Event)
    (ph : FileExecutor.Phase) : FileExecutor.Phase :=
  match ev, ph with
  | FileExecutor.CallExecute, FileExecutor.NotStarted =>
      FileExecutor.LoopExited
  | FileExecutor.TimerFires, FileExecutor.InFlight _ _ _ _ =>
      FileExecutor.LoopExited
  | FileExecutor.Continue, FileExecutor.LoopExited => FileExecutor.Finished
  | _, _ => ph
  end.

End Spec.

(* ===================================================================== *)
(** * services/sessionManager.ts *)
(* ===================================================================== *)

(** The session manager keeps the sessions of the three services in maps
    and drives the services. Its [start...] methods are asynchronous.
    JavaScript runs the code between two [await]s without interruption,
    and resumes an [await] on a promise that is already settled before
    it handles the next event or timer. The methods are called from event
    handlers, one call per event, so the manager changes state in the
    following atomic steps: a call of one of its methods, up to the first
    timer it waits for, and the firing of a timer, up to the next timer
    or to the end of the call that waits for it. In particular
    [cancelExecution], which awaits the already finished
    [executor.cancel()], is one step.

    The scanner, generator and executor objects made by the calls live
    in a heap, addressed by their position; the maps [scanners],
    [planGenerators] and [executors] hold addresses. [Math.random] is
    one source shared by all of them, [Date.now()] and [new Date()] are
    arguments of the steps that read them. The fields [error] (undefined
    on every path) and [journal_path] (a rendering of the clock), the
    scan options (never read) and the three [getAll...] methods (the
    order of a [Map] is not kept) are left out. *)

Module SessionManager.
Import JsString Effects Types.

(** [arr.join(sep)] *)
Fixpoint join (l : list string) (sep : string) : string :=
  match l with
  | [] => EmptyString
  | [x] => x
  | x :: rest => x +:+ sep +:+ join rest sep
  end.

(** [parseInt(s)] without a radix: leading white space is skipped, a
    sign and the prefix [0x] are read, and the longest prefix of digits
    gives the value; [None] is [NaN]. *)
Definition isWhiteSpace (c : ascii) : bool :=
  let n := N_of_ascii c in
  (((9 <=? n) && (n <=? 13)) || (n =? 32) || (n =? 160))%N.

Fixpoint trimStart (s : string) : string :=
  match s with
  | EmptyString => EmptyString
  | String c s' => if isWhiteSpace c then trimStart s' else s
  end.

Definition digitOf (radix : N) (c : ascii) : option N :=
  let n := N_of_ascii c in
  let v :=
    if ((48 <=? n) && (n <=? 57))%N then Some (n - 48)%N
    else if ((97 <=? n) && (n <=? 122))%N then Some (n - 87)%N
    else if ((65 <=? n) && (n <=? 90))%N then Some (n - 55)%N
    else None in
  match v with
  | Some d => if (d <? radix)%N then Some d else None
  | None => None
  end.

Fixpoint digitsValue (radix : N) (s : string) (acc : option N) : option N :=
  match s with
  | EmptyString => acc
  | String c s' =>
      match digitOf radix c with
      | Some d =>
          digitsValue radix s' (Some (default 0%N acc * radix + d)%N)
      | None => acc
      end
  end.

Definition parseInt (input : string) : option Z :=
  let s := trimStart input in
  let '(negative, s1) :=
    match s with
    | String c r =>
        if Ascii.eqb c "-" then (true, r)
        else if Ascii.eqb c "+" then (false, r)
        else (false, s)
    | EmptyString => (false, s)
    end in
  let '(radix, s2) :=
    match s1 with
    | String c (String x r) =>
        if Ascii.eqb c "0" && (Ascii.eqb x "x" || Ascii.eqb x "X")
        then (16%N, r) else (10%N, s1)
    | _ => (10%N, s1)
    end in
  match digitsValue radix s2 None with
  | Some n => Some (if negative then - Z.of_N n else Z.of_N n)
  | None => None
  end.

(** The sessions of [types/index.ts]. The progress of a scan keeps the
    three fields that the scanner writes. *)
Record ScanProgress := mkScanProgress {
  scan_current_item : option string;
  scan_completed_ops : Z;
  scan_total_ops : Z
}.

Record ScanSession := mkScanSession {
  scan_session_id : string;
  scan_roots : list string;
  scan_status : SessionStatus;
  scan_progress : option ScanProgress;
  scan_results : option (list FolderHit)
}.

Record PlanSession := mkPlanSession {
  plan_session_id : string;
  scan_id : option string;
  planning_status : SessionStatus;
  session_plan : option MovePlan
}.

Record ExecutionSession := mkExecutionSession {
  execution_session_id : string;
  plan_id : string;
  execution_status : SessionStatus;
  execution_progress : option FileExecutor.Progress
}.

(** The objects of the heap: a [FileScanner] with its session, its rules
    and the variables [i] and [results] of its loop; a [PlanGenerator]
    with its hits, waiting for its delay or done; a [FileExecutor]. *)
Inductive Object :=
| Scanner (session : ScanSession) (rules : list Rule) (i : nat)
    (results : list FolderHit)
| Generator (sessionId : string) (folderHits : list FolderHit)
    (waiting : bool)
| ExecutorOf (sessionId : string) (executor : FileExecutor.Executor).

Record Manager := mkManager {
  scanSessions : gmap string ScanSession;
  planSessions : gmap string PlanSession;
  executionSessions : gmap string ExecutionSession;
  scanners : gmap string nat;
  planGenerators : gmap string nat;
  executors : gmap string nat;
  heap : list Object;
  source : Rng
}.

(** [new SessionManager()] *)
Definition newManager (g : Rng) : Manager :=
  mkManager ∅ ∅ ∅ ∅ ∅ ∅ [] g.

(** What a call does: it returns, with the session id when it makes one,
    or throws (the asynchronous methods reject their promise). *)
Inductive Outcome :=
| Returned (value : option string)
| Thrown (message : string).

Inductive Call :=
| CreateScanSession (roots : list string) (dateNow : N)
| StartScan (sessionId : string) (rules : list Rule)
| CreatePlanSession (scanId : string) (selectedPaths : list string)
    (dateNow : N)
| StartPlanning (sessionId : string)
| CreateExecutionSession (planId : string) (dateNow : N)
| StartExecution (sessionId : string)
| CancelExecution (sessionId : string)
| Cleanup (olderThanMinutes : Z) (dateNow : N)
| Timer (address : nat) (now : Clock).

Definition getScanSession (m : Manager) (sessionId : string)
  : option ScanSession := scanSessions m !! sessionId.

Definition getPlanSession (m : Manager) (sessionId : string)
  : option PlanSession := planSessions m !! sessionId.

Definition getExecutionSession (m : Manager) (sessionId : string)
  : option ExecutionSession := executionSessions m !! sessionId.

Section Methods.

(** The [RegExp] engine, and the rendering
    [Math.random().toString(36).substr(2, 9)] of a drawn number. *)
Variable regexTest : string -> bool -> string -> option bool.
Variable suffixOf : Q -> string.

(** [`scan-${Date.now()}-${Math.random().toString(36).substr(2, 9)}`] *)
Definition sessionIdOf (prefix : string) (dateNow : N) (r : Q) : string :=
  prefix +:+ "-" +:+ pretty dateNow +:+ "-" +:+ suffixOf r.

Definition createScanSession (roots : list string) (dateNow : N)
    (m : Manager) : Manager * Outcome :=
  let (r, g) := random (source m) in
  let sessionId := sessionIdOf "scan" dateNow r in
  let session := mkScanSession sessionId roots Created None None in
  (mkManager (<[sessionId := session]> (scanSessions m)) (planSessions m)
     (executionSessions m) (scanners m) (planGenerators m) (executors m)
     (heap m) g,
   Returned (Some sessionId)).

Definition createPlanSession (scanId : string) (selectedPaths : list string)
    (dateNow : N) (m : Manager) : Manager * Outcome :=
  let (r, g) := random (source m) in
  let sessionId := sessionIdOf "plan" dateNow r in
  let session := mkPlanSession sessionId (Some scanId) Created None in
  (mkManager (scanSessions m) (<[sessionId := session]> (planSessions m))
     (executionSessions m) (scanners m) (planGenerators m) (executors m)
     (heap m) g,
   Returned (Some sessionId)).

Definition createExecutionSession (planId : string) (dateNow : N)
    (m : Manager) : Manager * Outcome :=
  let (r, g) := random (source m) in
  let sessionId := sessionIdOf "exec" dateNow r in
  let session := mkExecutionSession sessionId planId Created None in
  (mkManager (scanSessions m) (planSessions m)
     (<[sessionId := session]> (executionSessions m)) (scanners m)
     (planGenerators m) (executors m) (heap m) g,
   Returned (Some sessionId)).

(** *** Scanning *)

Definition setCurrentItem (item : option string) (pr : option ScanProgress)
  : option ScanProgress :=
  (fun p => mkScanProgress item (scan_completed_ops p) (scan_total_ops p))
    <$> pr.

Definition setCompletedOps (n : Z) (pr : option ScanProgress)
  : option ScanProgress :=
  (fun p => mkScanProgress (scan_current_item p) n (scan_total_ops p)) <$> pr.

Definition setTotalOps (n : Z) (pr : option ScanProgress)
  : option ScanProgress :=
  (fun p => mkScanProgress (scan_current_item p) (scan_completed_ops p) n)
    <$> pr.

(** The head of the loop of [FileScanner.startScan] at index [i]: either
    the scanner waits for the delay of [generateMockResults] on root [i],
    or the scan is over and the continuation of [SessionManager.startScan]
    stores the scanner's session. *)
Definition scanLoop (address : nat) (session : ScanSession)
    (rules : list Rule) (i : nat) (results : list FolderHit) (m : Manager)
  : Manager :=
  match scan_roots session !! i with
  | Some root =>
      let session' :=
        mkScanSession (scan_session_id session) (scan_roots session)
          (scan_status session)
          (setCurrentItem (Some root) (scan_progress session))
          (scan_results session) in
      mkManager (scanSessions m) (planSessions m) (executionSessions m)
        (scanners m) (planGenerators m) (executors m)
        (<[address := Scanner session' rules i results]> (heap m))
        (source m)
  | None =>
      let session' :=
        mkScanSession (scan_session_id session) (scan_roots session)
          Completed
          (setTotalOps (Z.of_nat (length (scan_roots session)))
             (scan_progress session))
          (Some results) in
      mkManager (<[scan_session_id session := session']> (scanSessions m))
        (planSessions m) (executionSessions m) (scanners m)
        (planGenerators m) (executors m)
        (<[address := Scanner session' rules i results]> (heap m))
        (source m)
  end.

Definition startScan (sessionId : string) (rules : list Rule) (m : Manager)
  : Manager * Outcome :=
  match scanSessions m !! sessionId with
  | None => (m, Thrown "Scan session not found")
  | Some session =>
      let address := length (heap m) in
      let own :=
        mkScanSession sessionId (scan_roots session) Running
          (Some (mkScanProgress None 0 1)) None in
      let m' :=
        mkManager (scanSessions m) (planSessions m) (executionSessions m)
          (<[sessionId := address]> (scanners m)) (planGenerators m)
          (executors m) (heap m ++ [Scanner own rules 0 []]) (source m) in
      (scanLoop address own rules 0 [] m', Returned None)
  end.

(** The delay of [generateMockResults] has elapsed. *)
Definition scanTimer (address : nat) (now : Clock) (session : ScanSession)
    (rules : list Rule) (i : nat) (results : list FolderHit) (m : Manager)
  : Manager :=
  match scan_status session, scan_roots session !! i with
  | Running, Some root =>
      let (results', g) :=
        FileScanner.generateMockResults regexTest rules now root results
          (source m) in
      let session' :=
        mkScanSession (scan_session_id session) (scan_roots session)
          (scan_status session)
          (setCompletedOps (Z.of_nat i + 1) (scan_progress session))
          (scan_results session) in
      scanLoop address session' rules (S i) results'
        (mkManager (scanSessions m) (planSessions m) (executionSessions m)
           (scanners m) (planGenerators m) (executors m) (heap m) g)
  | _, _ => m
  end.

(** *** Planning *)

(** [generatePlan] once its delay has elapsed. *)
Definition planAfterDelay (folderHits : list FolderHit) (g : Rng)
  : MovePlan * Rng :=
  let st := PlanGenerator.planLoop 0 folderHits (PlanGenerator.initLocals g) in
  (mkPlan (PlanGenerator.rootIds st) (PlanGenerator.nodesObj st)
     (mkSummary (PlanGenerator.countDirs st) (PlanGenerator.countFiles st)
        (PlanGenerator.totalBytes st) (PlanGenerator.crossVolume st)
        (PlanGenerator.totalConflicts st) (PlanGenerator.totalWarnings st)),
   PlanGenerator.rng st).

Definition startPlanning (sessionId : string) (m : Manager)
  : Manager * Outcome :=
  match planSessions m !! sessionId with
  | None => (m, Thrown "Plan session not found")
  | Some session =>
      let scanSession :=
        match truthyString (scan_id session) with
        | Some scanId => scanSessions m !! scanId
        | None => None
        end in
      match scanSession ≫= scan_results with
      | None => (m, Thrown "Scan session or results not found")
      | Some folderHits =>
          let address := length (heap m) in
          let session' :=
            mkPlanSession (plan_session_id session) (scan_id session)
              Running (session_plan session) in
          (* [simulateProcessingDelay] draws the length of the delay *)
          let (_, g) := random (source m) in
          (mkManager (scanSessions m)
             (<[sessionId := session']> (planSessions m))
             (executionSessions m) (scanners m)
             (<[sessionId := address]> (planGenerators m)) (executors m)
             (heap m ++ [Generator sessionId folderHits true]) g,
           Returned None)
      end
  end.

Definition planTimer (address : nat) (sessionId : string)
    (folderHits : list FolderHit) (waiting : bool) (m : Manager) : Manager :=
  if waiting then
    let (p, g) := planAfterDelay folderHits (source m) in
    let own := mkPlanSession sessionId None Completed (Some p) in
    mkManager (scanSessions m) (<[sessionId := own]> (planSessions m))
      (executionSessions m) (scanners m) (planGenerators m) (executors m)
      (<[address := Generator sessionId folderHits false]> (heap m)) g
  else m.

(** *** Executing *)

Definition withSource (e : FileExecutor.Executor) (g : Rng)
  : FileExecutor.Executor :=
  FileExecutor.mkExecutor (FileExecutor.status e) (FileExecutor.progress e)
    (FileExecutor.exec_plan e) (FileExecutor.isCancelled e)
    (FileExecutor.phase e) g (FileExecutor.started e).

(** The session of an executor: [plan_id] is [plan.roots.join(',')]. *)
Definition sessionOf (sessionId : string) (e : FileExecutor.Executor)
  : ExecutionSession :=
  mkExecutionSession sessionId
    (join (roots (FileExecutor.exec_plan e)) ",")
    (FileExecutor.status e) (FileExecutor.progress e).

(** After a step of the executor: when its loop is over, the
    continuations of [executeMovePlan] and of
    [SessionManager.startExecution] run, and the executor's session is
    stored. *)
Definition settle (address : nat) (sessionId : string)
    (e : FileExecutor.Executor) (m : Manager) : Manager :=
  match FileExecutor.phase e with
  | FileExecutor.LoopExited =>
      let e' := FileExecutor.step e FileExecutor.Continue in
      mkManager (scanSessions m) (planSessions m)
        (<[sessionId := sessionOf sessionId e']> (executionSessions m))
        (scanners m) (planGenerators m) (executors m)
        (<[address := ExecutorOf sessionId e']> (heap m))
        (FileExecutor.exec_rng e')
  | _ =>
      mkManager (scanSessions m) (planSessions m) (executionSessions m)
        (scanners m) (planGenerators m) (executors m)
        (<[address := ExecutorOf sessionId e]> (heap m))
        (FileExecutor.exec_rng e)
  end.

Definition startExecution (sessionId : string) (m : Manager)
  : Manager * Outcome :=
  match executionSessions m !! sessionId with
  | None => (m, Thrown "Execution session not found")
  | Some session =>
      let planSession :=
        if truthy (plan_id session) then planSessions m !! plan_id session
        else None in
      match planSession ≫= session_plan with
      | None => (m, Thrown "Plan session or plan not found")
      | Some p =>
          let address := length (heap m) in
          let e := FileExecutor.create p (source m) in
          let m' :=
            mkManager (scanSessions m) (planSessions m)
              (executionSessions m) (scanners m) (planGenerators m)
              (<[sessionId := address]> (executors m))
              (heap m ++ [ExecutorOf sessionId e]) (source m) in
          (settle address sessionId
             (FileExecutor.step e FileExecutor.CallExecute) m',
           Returned None)
      end
  end.

(** The delay of an operation has elapsed. *)
Definition executionTimer (address : nat) (sessionId : string)
    (e : FileExecutor.Executor) (m : Manager) : Manager :=
  match FileExecutor.phase e with
  | FileExecutor.InFlight _ _ _ _ =>
      settle address sessionId
        (FileExecutor.step (withSource e (source m)) FileExecutor.TimerFires)
        m
  | _ => m
  end.

Definition cancelObject (o : Object) : Object :=
  match o with
  | ExecutorOf sessionId e =>
      ExecutorOf sessionId (FileExecutor.step e FileExecutor.CallCancel)
  | _ => o
  end.

Definition cancelExecution (sessionId : string) (m : Manager)
  : Manager * Outcome :=
  let heap' :=
    match executors m !! sessionId with
    | Some address => alter cancelObject address (heap m)
    | None => heap m
    end in
  let sessions' :=
    match executionSessions m !! sessionId with
    | Some session =>
        <[sessionId :=
            mkExecutionSession (execution_session_id session)
              (plan_id session) Cancelled (execution_progress session)]>
          (executionSessions m)
    | None => executionSessions m
    end in
  (mkManager (scanSessions m) (planSessions m) sessions' (scanners m)
     (planGenerators m) (executors m) heap' (source m),
   Returned None).

(** *** Cleaning up *)

(** [parseInt(id.split('-')[1]) < cutoff] *)
Definition expired (cutoff : Z) (sessionId : string) : bool :=
  match parseInt (default "undefined" (split sessionId "-" !! 1%nat)) with
  | Some sessionTime => sessionTime <? cutoff
  | None => false
  end.

(** One of the three loops of [cleanup], over the entries of
    [sessions]. *)
Definition sweep {A B : Type} (cutoff : Z) (sessions : gmap string A)
    (objects : gmap string B) : gmap string A * gmap string B :=
  foldr (fun entry maps =>
           if expired cutoff entry.1
           then (delete entry.1 maps.1, delete entry.1 maps.2)
           else maps)
    (sessions, objects) (map_to_list sessions).

Definition cleanup (olderThanMinutes : Z) (dateNow : N) (m : Manager)
  : Manager * Outcome :=
  let cutoff := Z.of_N dateNow - olderThanMinutes * 60 * 1000 in
  let (scans, scanners') := sweep cutoff (scanSessions m) (scanners m) in
  let (plans, generators') :=
    sweep cutoff (planSessions m) (planGenerators m) in
  let (executions, executors') :=
    sweep cutoff (executionSessions m) (executors m) in
  (mkManager scans plans executions scanners' generators' executors'
     (heap m) (source m),
   Returned None).

(** *** The steps of the manager *)

Definition timer (address : nat) (now : Clock) (m : Manager) : Manager :=
  match heap m !! address with
  | Some (Scanner session rules i results) =>
      scanTimer address now session rules i results m
  | Some (Generator sessionId folderHits waiting) =>
      planTimer address sessionId folderHits waiting m
  | Some (ExecutorOf sessionId e) => executionTimer address sessionId e m
  | None => m
  end.

Definition step (m : Manager) (c : Call) : Manager * Outcome :=
  match c with
  | CreateScanSession roots dateNow => createScanSession roots dateNow m
  | StartScan sessionId rules => startScan sessionId rules m
  | CreatePlanSession scanId selectedPaths dateNow =>
      createPlanSession scanId selectedPaths dateNow m
  | StartPlanning sessionId => startPlanning sessionId m
  | CreateExecutionSession planId dateNow =>
      createExecutionSession planId dateNow m
  | StartExecution sessionId => startExecution sessionId m
  | CancelExecution sessionId => cancelExecution sessionId m
  | Cleanup olderThanMinutes dateNow => cleanup olderThanMinutes dateNow m
  | Timer address now => (timer address now m, Returned None)
  end.

Definition run (calls : list Call) (m : Manager) : Manager :=
  fold_left (fun m c => (step m c).1) calls m.

End Methods.

End SessionManager.

(* ===================================================================== *)
(** * pages/SetupPage.tsx: the rule and root lists *)
(* ===================================================================== *)

(** The state updates of the handlers that edit the configuration, as
    functions of the previous lists. *)

Module SetupPage.
Import JsString Effects Types.

(** [arr.filter((_, i) => keep(i))], from index [i] on. *)
Fixpoint filterIndex {A : Type} (keep : nat -> bool) (i : nat) (l : list A)
  : list A :=
  match l with
  | [] => []
  | x :: rest =>
      if keep i then x :: filterIndex keep (S i) rest
      else filterIndex keep (S i) rest
  end.

Definition removeRoot (index : nat) (prev : list string) : list string :=
  filterIndex (fun i => negb (i =? index)%nat) 0 prev.




End SetupPage.

(* ===================================================================== *)
(** * Shapes and invariants of the services' results *)
(* ===================================================================== *)

(** Predicates in which the further properties of the services are
    stated: what a glob dot matches, where a mock folder lies, which facts
    of a hit justify a conflict, which plan nodes the executor may act
    on, and what holds of an executor that is called once at every point
    of its run. *)

Module Invariants.
Import JsString Effects Types.

(** The text holds none of the line terminators that the [.] of a
    regular expression excludes. *)
Fixpoint noLineTerminators (s : string) : bool :=
  match s with
  | EmptyString => true
  | String c s' => FileScanner.dotMatches c && noLineTerminators s'
  end.

(** A mock folder of positive size lying below [root]. *)
Definition folderUnder (root : string) (folder : FileScanner.Folder) : Prop :=
  exists between,
    FileScanner.f_path folder
    = root +:+ "\" +:+ between +:+ FileScanner.f_name folder
    /\ 0 < FileScanner.f_size folder.

Definition hitUnder (root : string) (hit : FolderHit) : Prop :=
  exists between size,
    path hit = root +:+ "\" +:+ between +:+ name hit
    /\ size_bytes hit = Some size /\ 0 < size.

Definition nodeUnder (root : string) (node : PlanNode) : Prop :=
  exists between,
    path_before node = root +:+ "\" +:+ between +:+ name_before node.

(** The facts about a hit that a reported conflict rests on. The code
    aims at an available space of 70 to 90 percent of the required one;
    the bounds leave a tenth of a percent on either side, which covers
    the floor and the rounding of the product. *)
Definition conflictJustified (hit : FolderHit) (c : Conflict) : Prop :=
  match c with
  | NameExists existing =>
      exists dest, truthyString (dest_preview hit) = Some dest
                   /\ existing = dest +:+ "_backup"
  | CycleDetected => False
  | DestInsideSource =>
      exists dest, truthyString (dest_preview hit) = Some dest
                   /\ includes (toLowerCase (path hit)) (toLowerCase dest) = true
  | NoSpace required available =>
      size_bytes hit = Some required /\ 1024 * 1024 * 100 < required
      /\ available < required
      /\ 699 * required < 1000 * available
      /\ 1000 * available < 901 * required
  | PermissionConflict p =>
      p = Administrator /\ (AccessDenied ∈ warnings hit)
  end.

(** A plan node that is not skipped: what the planner has checked. *)
Definition executableNode (node : PlanNode) : Prop :=
  node_kind node <> OpNone
  /\ (AccessDenied ∉ node_warnings node)
  /\ (PermissionConflict Administrator ∉ conflicts node)
  /\ (DestInsideSource ∉ conflicts node)
  /\ includes (toLowerCase (path_before node))
       (toLowerCase (path_after node)) = false
  /\ (node_kind node = CopyDelete
      <-> PlanGenerator.isCrossVolume (path_before node) (path_after node)
          = true).

(** The root node of a hit, with the states of the random source at its
    two conflict analyses. *)
Definition nodeMadeFrom (hit : FolderHit) (rid : string) (node : PlanNode)
  : Prop :=
  exists g1 g2,
    node = mkNode rid true (name hit) (path hit) (name hit)
             (Spec.pathAfter hit)
             (PlanGenerator.determineOperationKind hit g2).1 (size_bytes hit)
             (warnings hit) (PlanGenerator.analyzeConflicts hit g1).1 []
             (matched_rule hit).

Definition nodesMade (done : list FolderHit) (st : PlanGenerator.Locals)
  : Prop :=
  Forall2 (fun hit rid =>
             exists node, PlanGenerator.nodesObj st !! rid = Some node
                          /\ nodeMadeFrom hit rid node)
    done (PlanGenerator.rootIds st).

(** The plan's roots that have a node. *)
Definition knownRoots (p : MovePlan) : list PlanNode :=
  omap (fun rootId => nodes p !! rootId) (roots p).


Definition sizeOf (ops : list FileExecutor.Operation) : Z :=
  foldr (fun op acc => FileExecutor.op_size op + acc) 0 ops.

(** The progress record of a completed run. *)
Definition fullProgress (p : MovePlan) : FileExecutor.Progress :=
  FileExecutor.mkProgress None
    (FileExecutor.calculateTotalOperations p)
    (FileExecutor.calculateTotalOperations p)
    (total_bytes (summary p)) (total_bytes (summary p)).

(** The progress record after the first [n] operations. *)
Definition partialProgress (ops : list FileExecutor.Operation) (n : nat)
    (pr : FileExecutor.Progress) : Prop :=
  FileExecutor.completed_ops pr = Z.of_nat n
  /\ FileExecutor.bytes_processed pr = sizeOf (firstn n ops).

Definition totalsOf (e : FileExecutor.Executor) (totalOps totalBytes : Z)
  : Prop :=
  exists pr, FileExecutor.progress e = Some pr
             /\ FileExecutor.total_ops pr = totalOps
             /\ FileExecutor.progress_total_bytes pr = totalBytes.

(** The calls of [executeMovePlan] among the events of a run, and the
    runs of an executor that is called once. *)
Fixpoint calls (events : list FileExecutor.Event) : nat :=
  match events with
  | [] => 0
  | FileExecutor.CallExecute :: rest => S (calls rest)
  | _ :: rest => calls rest
  end.

Definition singleCall (events : list FileExecutor.Event) : Prop :=
  (calls events <= 1)%nat.

(** What holds of the executor made for plan [p] with random source [g]
    at every point of every run with one call. *)
Definition execInv (p : MovePlan) (g : Rng) (e : FileExecutor.Executor)
  : Prop :=
  let ops := (FileExecutor.generateFileOperations p g).1 in
  FileExecutor.exec_plan e = p
  /\ match FileExecutor.phase e with
     | FileExecutor.NotStarted =>
         FileExecutor.status e = Created
         /\ FileExecutor.progress e = None
         /\ FileExecutor.started e = 0%nat
         /\ FileExecutor.exec_rng e = g
     | FileExecutor.InFlight i completedOps processedBytes operations =>
         operations = ops /\ FileExecutor.status e = Running
         /\ FileExecutor.started e = S i
         /\ completedOps = Z.of_nat i
         /\ processedBytes = sizeOf (firstn i ops)
         /\ exists op,
              ops !! i = Some op
              /\ FileExecutor.progress e
                 = Some (FileExecutor.mkProgress
                           (Some (FileExecutor.op_path op)) completedOps
                           (FileExecutor.calculateTotalOperations p)
                           processedBytes (total_bytes (summary p)))
     | FileExecutor.LoopExited =>
         FileExecutor.status e = Running
         /\ exists pr n,
              FileExecutor.progress e = Some pr /\ partialProgress ops n pr
              /\ FileExecutor.total_ops pr
                 = FileExecutor.calculateTotalOperations p
              /\ FileExecutor.progress_total_bytes pr
                 = total_bytes (summary p)
              /\ (n <= FileExecutor.started e <= S n)%nat
              /\ (n <= length ops)%nat
              /\ (FileExecutor.isCancelled e = false ->
                  n = length ops /\ FileExecutor.started e = n)
     | FileExecutor.Finished =>
         (FileExecutor.status e = Completed
          /\ FileExecutor.started e = length ops
          /\ FileExecutor.progress e = Some (fullProgress p))
         \/ (FileExecutor.status e = Cancelled
             /\ FileExecutor.isCancelled e = true
             /\ exists pr n,
                  FileExecutor.progress e = Some pr
                  /\ partialProgress ops n pr
                  /\ (n <= FileExecutor.started e <= S n)%nat
                  /\ (n <= length ops)%nat)
     end.

(** Inputs of the examples: a folder that no rule matched, a folder the
    scanner could not read, and the plans of the executor's examples. *)
Definition unmatchedHit : FolderHit :=
  mkHit "C:\data\cache" "cache" None None [] (Some 1024).

Definition deniedHit : FolderHit :=
  mkHit "C:\data\vault" "vault" (Some "r1") (Some "D:\out\vault")
    [AccessDenied] (Some 1024).

Definition literalRule : Rule :=
  mkRule "r9" true (mkPattern Glob "cache" false true) "D:\out" "Archive"
    AutoRename None 0.

Definition renamePlan : MovePlan :=
  (PlanGenerator.buildPlan [Spec.renameHit] Spec.highDraws).1.

Definition skippedPlan : MovePlan :=
  (PlanGenerator.buildPlan [unmatchedHit; unmatchedHit; unmatchedHit]
     Spec.highDraws).1.

End Invariants.

(* ===================================================================== *)
(** * States of the session manager *)
(* ===================================================================== *)

(** The states that a scan and an execution lead the manager through,
    what holds of every manager, and the managers of the examples. *)

Module Lifecycle.
Import JsString Effects Types SessionManager.

(** The manager while the scanner of [sessionId] waits for the delay of
    its root [j]. *)
Definition scanning (m : Manager) (sessionId : string) (roots : list string)
    (rules : list Rule) (j : nat) (results : list FolderHit) (g : Rng)
  : Manager :=
  mkManager (scanSessions m) (planSessions m) (executionSessions m)
    (<[sessionId := length (heap m)]> (scanners m)) (planGenerators m)
    (executors m)
    (heap m
     ++ [Scanner
           (mkScanSession sessionId roots Running
              (Some (mkScanProgress (roots !! j) (Z.of_nat j) 1)) None)
           rules j results])
    g.

(** The manager when that scan is over. *)
Definition scanned (m : Manager) (sessionId : string) (roots : list string)
    (rules : list Rule) (results : list FolderHit) (g : Rng) : Manager :=
  let session :=
    mkScanSession sessionId roots Completed
      (Some (mkScanProgress (last roots) (Z.of_nat (length roots))
               (Z.of_nat (length roots))))
      (Some results) in
  mkManager (<[sessionId := session]> (scanSessions m)) (planSessions m)
    (executionSessions m)
    (<[sessionId := length (heap m)]> (scanners m)) (planGenerators m)
    (executors m)
    (heap m ++ [Scanner session rules (length roots) results])
    g.

(** The manager while the executor of [sessionId] runs, and when its run
    is over. *)
Definition executing (m : Manager) (sessionId : string)
    (e : FileExecutor.Executor) : Manager :=
  mkManager (scanSessions m) (planSessions m) (executionSessions m)
    (scanners m) (planGenerators m)
    (<[sessionId := length (heap m)]> (executors m))
    (heap m ++ [ExecutorOf sessionId e]) (FileExecutor.exec_rng e).

Definition executed (m : Manager) (sessionId : string)
    (e : FileExecutor.Executor) : Manager :=
  mkManager (scanSessions m) (planSessions m)
    (<[sessionId := sessionOf sessionId e]> (executionSessions m))
    (scanners m) (planGenerators m)
    (<[sessionId := length (heap m)]> (executors m))
    (heap m ++ [ExecutorOf sessionId e]) (FileExecutor.exec_rng e).

(** A plan made by the generator: its roots are the node ids in
    order. *)
Definition generated (p : MovePlan) : Prop :=
  exists n, roots p = PlanGenerator.nodeId <$> seq 0 n.

(** What holds of the stored sessions and of the objects of the heap in
    every manager. *)
Definition okScan (sessionId : string) (s : ScanSession) : Prop :=
  scan_session_id s = sessionId
  /\ ((scan_status s = Created /\ scan_results s = None)
      \/ (scan_status s = Completed /\ is_Some (scan_results s))).

Definition okPlan (sessionId : string) (s : PlanSession) : Prop :=
  plan_session_id s = sessionId
  /\ take 5 sessionId = "plan-"
  /\ (((planning_status s = Created \/ planning_status s = Running)
       /\ session_plan s = None /\ is_Some (scan_id s))
      \/ (planning_status s = Completed /\ scan_id s = None
          /\ exists p, session_plan s = Some p /\ generated p)).

Definition okExecution (sessionId : string) (s : ExecutionSession) : Prop :=
  execution_session_id s = sessionId
  /\ ((execution_progress s = None
       /\ (execution_status s = Created \/ execution_status s = Cancelled))
      \/ (is_Some (execution_progress s)
          /\ (execution_status s = Completed
              \/ execution_status s = Cancelled)
          /\ exists n,
               plan_id s = join (PlanGenerator.nodeId <$> seq 0 n) ",")).

Definition okObject (o : Object) : Prop :=
  match o with
  | Scanner _ _ _ _ => True
  | Generator sessionId _ _ => take 5 sessionId = "plan-"
  | ExecutorOf _ e =>
      is_Some (FileExecutor.progress e)
      /\ generated (FileExecutor.exec_plan e)
  end.

Definition wellFormed (m : Manager) : Prop :=
  map_Forall okScan (scanSessions m)
  /\ map_Forall okPlan (planSessions m)
  /\ map_Forall okExecution (executionSessions m)
  /\ Forall okObject (heap m).

(** Managers of the examples: one that holds a finished scan, and one
    that holds a finished plan and an execution session for it. *)
Definition someSuffix : Q -> string := fun _ => "k3x9".

Definition finishedScan : ScanSession :=
  mkScanSession "scan-1-a" ["C:\src"] Completed
    (Some (mkScanProgress (Some "C:\src") 1 1)) (Some [Spec.renameHit]).

Definition createdScan : ScanSession :=
  mkScanSession "scan-2-b" ["C:\data"] Created None None.

Definition scanManager : Manager :=
  mkManager {[ "scan-1-a" := finishedScan; "scan-2-b" := createdScan ]}
    ∅ ∅ ∅ ∅ ∅ [] Spec.zeroDraws.

Definition finishedPlan : PlanSession :=
  mkPlanSession "plan-1-a" None Completed (Some Invariants.renamePlan).

Definition createdExecution : ExecutionSession :=
  mkExecutionSession "exec-1-a" "plan-1-a" Created None.

Definition planManager : Manager :=
  mkManager ∅ {[ "plan-1-a" := finishedPlan ]}
    {[ "exec-1-a" := createdExecution ]} ∅ ∅ ∅ [] Spec.zeroDraws.

End Lifecycle.

(* ===================================================================== *)
(** * The model on concrete inputs *)
(* ===================================================================== *)

Section Examples.
Import JsString Effects Types Spec.

Example toLowerCase_latin1 :
  toLowerCase "Report_Q1" = "report_q1"
  /\ toLowerCase (String (ascii_of_N 192) (String (ascii_of_N 215) "Z"))
     = String (ascii_of_N 224) (String (ascii_of_N 215) "z").
Proof. split; reflexivity. Qed.

Example split_backslash :
  split "C:\a\b" "\" = ["C:"; "a"; "b"]
  /\ split EmptyString "\" = [EmptyString]
  /\ split "a\" "\" = ["a"; EmptyString].
Proof. repeat split; reflexivity. Qed.

Example substring_before_last_backslash :
  lastIndexOf "C:\a\b" "\" = 4
  /\ substring "C:\a\b" 0 4 = "C:\a"
  /\ lastIndexOf "abc" "\" = -1 /\ substring "abc" 0 (-1) = EmptyString.
Proof. repeat split; reflexivity. Qed.

Example replace_first_occurrence_only :
  replace "x{name}y{name}" "{name}" "A" = "xAy{name}".
Proof. reflexivity. Qed.

Example replace_dollar_patterns :
  replace "x{name}y" "{name}" "[$&|$$|$`|$'|$1]" = "x[{name}|$|x|y|$1]y".
Proof. reflexivity. Qed.

Example matchGlob_star_and_question :
  FileScanner.matchGlob "report_q1" "*report*" = true
  /\ FileScanner.matchGlob "report_q1" "rep?rt_q1" = true
  /\ FileScanner.matchGlob "axb" "a.b" = false
  /\ FileScanner.matchGlob "a.b" "a.b" = true
  /\ FileScanner.matchGlob "ab" "a" = false.
Proof. repeat split; reflexivity. Qed.

Example exclusion_rule_matches_what_its_pattern_misses :
  FileScanner.matchesPattern noRegExp "cache" ruleNoReport = true
  /\ FileScanner.matchesPattern noRegExp "Report_Q1" ruleNoReport = false.
Proof. split; reflexivity. Qed.

Example folders_of_a_plain_root :
  FileScanner.f_path <$> FileScanner.generateRealisticFolders "D:\work"
  = ["D:\work\work_backup"; "D:\work\temp\cache"; "D:\work\media\images"].
Proof. reflexivity. Qed.

Example folders_of_a_root_ending_in_backslash :
  FileScanner.f_name <$> FileScanner.generateRealisticFolders "D:\x\"
  = ["D:\x\_backup"; "cache"; "images"].
Proof. reflexivity. Qed.

Example destination_of_dated_template :
  FileScanner.generateDestinationPath reportFolder datedRule someDay
  = "D:\Sorted\2025\09\report_backup".
Proof. reflexivity. Qed.

Example isCrossVolume_cases :
  PlanGenerator.isCrossVolume "D:\big" "E:\archive\big" = true
  /\ PlanGenerator.isCrossVolume "C:\src\x" "c:\SRC\y" = false
  /\ PlanGenerator.isCrossVolume "srv\x" "SRV\y" = true
  /\ PlanGenerator.isCrossVolume "\\srv\a" "\\other\b" = false.
Proof. repeat split; reflexivity. Qed.

Example conflicts_of_a_big_cross_volume_hit :
  (PlanGenerator.analyzeConflicts bigHit zeroDraws).1
  = [NameExists "E:\archive\big_backup"; NoSpace 2147483648 1503238553]
  /\ (PlanGenerator.analyzeConflicts bigHit highDraws).1 = [].
Proof. split; vm_compute; reflexivity. Qed.

Example reversed_move_is_flagged :
  (PlanGenerator.analyzeConflicts
     (mkHit "C:\A\sub\A" "A" (Some "r") (Some "C:\A") [] None)
     highDraws).1
  = [DestInsideSource].
Proof. vm_compute. reflexivity. Qed.

Example plan_of_three_hits :
  let p := (PlanGenerator.buildPlan [nestedHit; bigHit; renameHit]
              highDraws).1 in
  roots p = ["node_0"; "node_1"; "node_2"]
  /\ node_kind <$> nodes p !! "node_0" = Some Move
  /\ node_kind <$> nodes p !! "node_1" = Some CopyDelete
  /\ node_kind <$> nodes p !! "node_2" = Some Rename
  /\ summary p = mkSummary 3 177 2147483653 1 0 0.
Proof. vm_compute. repeat split; reflexivity. Qed.

Example run_to_completion :
  let e := FileExecutor.run
             ([FileExecutor.CallExecute]
              ++ List.repeat FileExecutor.TimerFires 5
              ++ [FileExecutor.Continue])
             (FileExecutor.create
                (PlanGenerator.buildPlan [renameHit] highDraws).1 zeroDraws) in
  FileExecutor.status e = Completed /\ FileExecutor.started e = 5%nat.
Proof. vm_compute. split; reflexivity. Qed.

End Examples.

(* ===================================================================== *)
(** * Lemmas on the string primitives *)
(* ===================================================================== *)

Section StringLemmas.
Import JsString.

Lemma append_cons c a b : String c a +:+ b = String c (a +:+ b).
Proof. reflexivity. Qed.

Lemma append_nil_r a : a +:+ EmptyString = a.
Proof. induction a as [|c a IH]; [done|]. by rewrite append_cons, IH. Qed.

Lemma append_assoc a b c : (a +:+ b) +:+ c = a +:+ (b +:+ c).
Proof. induction a as [|d a IH]; [done|]. by rewrite !append_cons, IH. Qed.

Lemma append_length a b :
  String.length (a +:+ b) = (String.length a + String.length b)%nat.
Proof. induction a as [|c a IH]; simpl; [done | by rewrite IH]. Qed.

Lemma prefix_cons a p c s :
  String.prefix (String a p) (String c s)
  = if ascii_dec a c then String.prefix p s else false.
Proof. reflexivity. Qed.

Lemma prefix_length sub s :
  String.prefix sub s = true -> (String.length sub <= String.length s)%nat.
Proof.
  revert s. induction sub as [|c sub IH]; intros s; simpl; [lia|].
  destruct s as [|d s]; [done|]. simpl.
  destruct (Ascii.ascii_dec c d); [|done].
  intros H. apply IH in H. lia.
Qed.

Lemma prefix_refl s : String.prefix s s = true.
Proof.
  induction s as [|c s IH]; simpl; [done|].
  by destruct (Ascii.ascii_dec c c).
Qed.

Lemma prefix_app a s : String.prefix a (a +:+ s) = true.
Proof.
  induction a as [|c a IH]; [by destruct s|].
  rewrite append_cons, prefix_cons. by destruct (ascii_dec c c).
Qed.

Lemma drop_app a s : drop (String.length a) (a +:+ s) = s.
Proof. induction a as [|c a IH]; [done|]. by rewrite append_cons. Qed.

Lemma take_drop_length n s :
  take n s +:+ drop (String.length (take n s)) s = s.
Proof.
  revert s. induction n as [|n IH]; intros [|c s]; try done.
  simpl. rewrite append_cons. f_equal. apply IH.
Qed.

Lemma includes_cons c s sub :
  includes (String c s) sub = String.prefix sub (String c s) || includes s sub.
Proof. reflexivity. Qed.

Lemma includes_nil sub :
  includes EmptyString sub = String.prefix sub EmptyString.
Proof. simpl. apply orb_false_r. Qed.

Lemma includes_length s sub :
  includes s sub = true -> (String.length sub <= String.length s)%nat.
Proof.
  induction s as [|c s IH].
  - rewrite includes_nil. apply prefix_length.
  - rewrite includes_cons. intros [H|H]%orb_true_iff.
    + by apply prefix_length in H.
    + apply IH in H. simpl. lia.
Qed.

Lemma includes_refl s : includes s s = true.
Proof.
  destruct s; [done|]. by rewrite includes_cons, prefix_refl.
Qed.

Lemma toLowerCase_length s : String.length (toLowerCase s) = String.length s.
Proof. induction s as [|c s IH]; simpl; [done | by rewrite IH]. Qed.

Lemma toLowerCase_app a b :
  toLowerCase (a +:+ b) = toLowerCase a +:+ toLowerCase b.
Proof.
  induction a as [|c a IH]; [done|].
  rewrite append_cons. simpl. by rewrite IH.
Qed.

End StringLemmas.

(* ===================================================================== *)
(** * Properties of the matcher *)
(* ===================================================================== *)

Section MatcherProperties.
Import JsString Effects Types FileScanner Spec.

Variable regexTest : string -> bool -> string -> option bool.

Lemma matchesPattern_inclusive text rule :
  is_exclude (pattern rule) = false ->
  matchesPattern regexTest text rule = patternHits regexTest text rule.
Proof.
  intros Hinc. unfold matchesPattern, patternHits. rewrite Hinc.
  destruct (kind (pattern rule)); try apply xorb_false_r.
  destruct (regexTest _ _ _); [apply xorb_false_r | reflexivity].
Qed.

Lemma findMatchingRule_enabled rules folderName rule :
  findMatchingRule regexTest rules folderName = Some rule ->
  rule ∈ rules /\ enabled rule = true
  /\ matchesPattern regexTest folderName rule = true.
Proof.
  induction rules as [|r rest IH]; simpl; [discriminate|].
  destruct (enabled r) eqn:Hen; simpl.
  - destruct (matchesPattern regexTest folderName r) eqn:Hm.
    + intros [= <-]. split; [left | done].
    + intros H. destruct (IH H) as (? & ? & ?). split; [by right | done].
  - intros H. destruct (IH H) as (? & ? & ?). split; [by right | done].
Qed.

Lemma findMatchingRule_filter_enabled rules folderName :
  findMatchingRule regexTest rules folderName
  = findMatchingRule regexTest (List.filter enabled rules) folderName.
Proof.
  induction rules as [|r rest IH]; simpl; [done|].
  destruct (enabled r) eqn:Hen; simpl; [|done].
  rewrite Hen. simpl. by rewrite IH.
Qed.

Lemma findMatchingRule_disableAt i rules folderName :
  is_Some (findMatchingRule regexTest (disableAt i rules) folderName) ->
  is_Some (findMatchingRule regexTest rules folderName).
Proof.
  revert i. induction rules as [|r rest IH]; intros i; [done|].
  destruct i as [|i]; simpl.
  - destruct (enabled r); simpl; [|done].
    destruct (matchesPattern regexTest folderName r); [by eauto | done].
  - destruct (enabled r); simpl; [|by apply IH].
    destruct (matchesPattern regexTest folderName r); [done | by apply IH].
Qed.

Lemma filter_length_le {A} (p q : A -> bool) (l : list A) :
  (forall x, p x = true -> q x = true) ->
  (length (List.filter p l) <= length (List.filter q l))%nat.
Proof.
  intros Hpq. induction l as [|x l IH]; simpl; [done|].
  destruct (p x) eqn:Hp.
  - rewrite (Hpq x Hp). simpl. lia.
  - destruct (q x); simpl; lia.
Qed.

Lemma findMatchingRule_reprioritise f rules folderName :
  findMatchingRule regexTest (reprioritise f rules) folderName
  = setPriority f <$> findMatchingRule regexTest rules folderName.
Proof.
  induction rules as [|r rest IH]; simpl; [done|].
  destruct (enabled r); simpl; [|exact IH].
  change (matchesPattern regexTest folderName (setPriority f r))
    with (matchesPattern regexTest folderName r).
  by destruct (matchesPattern regexTest folderName r).
Qed.

(** C1 (as amended). In a rule set whose enabled rules are all inclusive,
    the matcher returns the first rule in declaration order that is
    enabled and whose pattern matches the folder name, and no rule when
    there is none: disabled rules take no part, and the [priority] field
    is not consulted, so that giving the rules any other priorities
    leaves the choice unchanged. *)
Theorem findMatchingRule_first_enabled_match rules folderName :
  Forall (fun r => enabled r = true -> is_exclude (pattern r) = false) rules ->
  findMatchingRule regexTest rules folderName
  = head (List.filter
            (fun r => enabled r && patternHits regexTest folderName r) rules)
  /\ forall f,
       findMatchingRule regexTest (reprioritise f rules) folderName
       = setPriority f <$> findMatchingRule regexTest rules folderName.
Proof.
  intros Hinc. split; [|intros f; apply findMatchingRule_reprioritise].
  induction Hinc as [|r rest Hr _ IH]; simpl; [done|].
  destruct (enabled r) eqn:Hen; simpl; [|done].
  rewrite matchesPattern_inclusive by auto.
  by destruct (patternHits regexTest folderName r).
Qed.

(** C9. Disabling a rule never increases the number of folder names for
    which the matcher returns a rule. *)
Theorem hitCount_disable_monotone rules names i :
  (hitCount regexTest (disableAt i rules) names
   <= hitCount regexTest rules names)%nat.
Proof.
  unfold hitCount. apply filter_length_le. intros n Hn.
  apply bool_decide_eq_true. apply bool_decide_eq_true in Hn.
  by eapply findMatchingRule_disableAt.
Qed.

End MatcherProperties.

(** C1, witness: a rule set of two enabled inclusive rules, and the same
    rules with their priorities exchanged. *)
Lemma findMatchingRule_first_enabled_match_witness :
  Forall (fun r => Types.enabled r = true
                   -> Types.is_exclude (Types.pattern r) = false)
    [Spec.ruleRep; Spec.ruleReport]
  /\ FileScanner.findMatchingRule Spec.noRegExp
       [Spec.ruleRep; Spec.ruleReport] "Report_Q1"
     = Some Spec.ruleRep
  /\ FileScanner.findMatchingRule Spec.noRegExp
       (Spec.reprioritise (fun r => 6 - Types.priority r)
          [Spec.ruleRep; Spec.ruleReport]) "Report_Q1"
     = Some (Spec.setPriority (fun r => 6 - Types.priority r) Spec.ruleRep).
Proof.
  assert (H : Forall (fun r => Types.enabled r = true
                        -> Types.is_exclude (Types.pattern r) = false)
                [Spec.ruleRep; Spec.ruleReport])
    by (repeat constructor).
  split; [exact H|].
  destruct (findMatchingRule_first_enabled_match Spec.noRegExp
              [Spec.ruleRep; Spec.ruleReport] "Report_Q1" H) as [Hfirst Hprio].
  split; [exact Hfirst|].
  rewrite Hprio, Hfirst. reflexivity.
Defined.

(** C1, counterexample. With two enabled inclusive rules that both match,
    the matcher returns the one declared first although the other has the
    lower priority; and an enabled exclusion rule whose pattern matches
    does not prevent the inclusive rule before it from being returned. *)
Lemma findMatchingRule_not_as_specified :
  ~ Spec.matcherAsSpecified Spec.noRegExp
      [Spec.ruleRep; Spec.ruleReport] "Report_Q1"
  /\ ~ Spec.matcherAsSpecified Spec.noRegExp
        [Spec.ruleReport; Spec.ruleNoReport] "Report_Q1".
Proof.
  split; unfold Spec.matcherAsSpecified; vm_compute; discriminate.
Qed.

(* ===================================================================== *)
(** * Properties of the scanner *)
(* ===================================================================== *)

Section ScannerProperties.
Import JsString Effects Types FileScanner Spec.

Variable regexTest : string -> bool -> string -> option bool.
Variable rules : list Rule.
Variable now : Clock.

Lemma analyzeWarnings_elem path g w :
  w ∈ (analyzeWarnings path g).1 <->
  (w = LongPath /\ 250 < Z.of_nat (String.length path))
  \/ (w = AclDiffers /\ includes path "$" || includes path "@" = true)
  \/ (exists r1 r2 g1 g2,
        random g = (r1, g1) /\ Qltb r1 (3 # 10) = true
        /\ random g1 = (r2, g2)
        /\ w = if Qfloor (r2 * 2) =? 0 then Junction else CrossVolume).
Proof.
  unfold analyzeWarnings.
  destruct (random g) as [r1 g1] eqn:Hr1.
  assert (Hw1 : forall x, x ∈ (if 250 <? Z.of_nat (String.length path)
                               then [LongPath] else []) <->
                          x = LongPath /\ 250 < Z.of_nat (String.length path)).
  { intros x. destruct (Z.ltb_spec 250 (Z.of_nat (String.length path))).
    - rewrite list_elem_of_singleton. split; [done | by intros [? _]].
    - rewrite elem_of_nil. split; [done | lia]. }
  assert (Hw2 : forall x, x ∈ (if includes path "$" || includes path "@"
                               then [AclDiffers] else []) <->
                          x = AclDiffers
                          /\ includes path "$" || includes path "@" = true).
  { intros x. destruct (includes path "$" || includes path "@").
    - rewrite list_elem_of_singleton. split; [done | by intros [? _]].
    - rewrite elem_of_nil. split; [done | by intros [_ ?]]. }
  destruct (Qltb r1 (3 # 10)) eqn:Hlt.
  - destruct (random g1) as [r2 g2] eqn:Hr2. simpl.
    rewrite !elem_of_app, Hw1, Hw2, list_elem_of_singleton.
    split.
    + intros [?|[?|?]]; [by left | by right; left |].
      right; right. by exists r1, r2, g1, g2.
    + intros [?|[?|(? & ? & ? & ? & [= <- <-] & _ & Hr & ->)]];
        [by left | by right; left |].
      right; right. rewrite Hr2 in Hr. by injection Hr as <- <-.
  - simpl. rewrite !elem_of_app, Hw1, Hw2. split.
    + intros [?|?]; [by left | by right; left].
    + intros [?|[?|(? & ? & ? & ? & [= <- <-] & Hc & _)]];
        [by left | by right | congruence].
Qed.

Lemma analyzeWarnings_LongPath path g :
  LongPath ∈ (analyzeWarnings path g).1 <->
  (250 < String.length path)%nat.
Proof.
  rewrite analyzeWarnings_elem. split.
  - intros [[_ ?]|[[? _]|(? & r2 & ? & ? & _ & _ & _ & Hw)]];
      [lia | done | by destruct (Qfloor (r2 * 2) =? 0)].
  - intros ?. left. split; [done | lia].
Qed.

Lemma makeHit_fields folder g :
  let hit := (makeHit regexTest rules now folder g).1 in
  path hit = f_path folder /\ name hit = f_name folder
  /\ matched_rule hit
     = labelOrId <$> findMatchingRule regexTest rules (f_name folder)
  /\ dest_preview hit
     = (fun rule => generateDestinationPath folder rule now)
         <$> findMatchingRule regexTest rules (f_name folder)
  /\ warnings hit = (analyzeWarnings (f_path folder) g).1
  /\ size_bytes hit = Some (f_size folder).
Proof.
  unfold makeHit. by destruct (analyzeWarnings (f_path folder) g).
Qed.

Lemma pushHits_emits folders results g :
  exists hits,
    (pushHits regexTest rules now folders results g).1 = results ++ hits
    /\ Forall2 (madeFrom regexTest rules now) folders hits.
Proof.
  revert results g. induction folders as [|folder rest IH];
    intros results g; simpl.
  - exists []. by rewrite app_nil_r.
  - destruct (makeHit regexTest rules now folder g) as [hit g'] eqn:Hmk.
    destruct (IH (results ++ [hit]) g') as (hits & -> & Hall).
    exists (hit :: hits). rewrite <- app_assoc. split; [done|].
    constructor; [|done]. exists g. by rewrite Hmk.
Qed.

Lemma scanRoots_emits scanRootsOf results g :
  exists hits,
    (scanRoots regexTest rules now scanRootsOf results g).1 = results ++ hits
    /\ Forall2 (madeFrom regexTest rules now) (visitedFolders scanRootsOf) hits.
Proof.
  revert results g. induction scanRootsOf as [|root rest IH];
    intros results g; simpl.
  - exists []. by rewrite app_nil_r.
  - unfold generateMockResults.
    destruct (pushHits_emits (generateRealisticFolders root) results g)
      as (hits1 & Hp & Hall1).
    destruct (pushHits regexTest rules now _ results g) as [results' g'].
    simpl in Hp. subst results'.
    destruct (IH (results ++ hits1) g') as (hits2 & -> & Hall2).
    exists (hits1 ++ hits2). rewrite <- app_assoc. split; [done|].
    unfold visitedFolders. simpl. by apply Forall2_app.
Qed.

Lemma startScan_emits sessionRoots g :
  (startScan regexTest rules now sessionRoots g).1.1 = Completed
  /\ Forall2 (madeFrom regexTest rules now) (visitedFolders sessionRoots)
       (startScan regexTest rules now sessionRoots g).1.2.
Proof.
  unfold startScan.
  destruct (scanRoots_emits sessionRoots [] g) as (hits & Hs & Hall).
  destruct (scanRoots regexTest rules now sessionRoots [] g) as [results g'].
  simpl in *. by subst.
Qed.

(** C4 (as amended). A completed scan emits exactly one FolderHit per
    visited folder, in visiting order, whether or not a rule matched. The
    hit carries the folder's path and name; its [matched_rule] is the
    matched rule's label when that is a non-empty string and its id
    otherwise, and is absent when no rule matched; and [dest_preview] is
    present exactly when a rule matched. *)
Theorem startScan_one_hit_per_folder sessionRoots g :
  (startScan regexTest rules now sessionRoots g).1.1 = Completed
  /\ Forall2 (hitOfFolder regexTest rules) (visitedFolders sessionRoots)
       (startScan regexTest rules now sessionRoots g).1.2.
Proof.
  destruct (startScan_emits sessionRoots g) as [Hst Hall].
  split; [done|]. eapply Forall2_impl; [exact Hall|].
  intros folder hit [g' ->].
  destruct (makeHit_fields folder g') as (Hp & Hn & Hm & Hd & _).
  unfold hitOfFolder. rewrite Hp, Hn, Hm, Hd.
  repeat split; try done; rewrite fmap_is_Some; done.
Qed.

(** C8 (as amended). The LongPath warning is attached to a folder's hit
    exactly when the folder's path is longer than 250 characters: this
    holds of [analyzeWarnings] for every path and every state of the
    random source, and of every hit a scan emits. *)
Theorem LongPath_iff_longer_than_250 :
  (forall path g,
     LongPath ∈ (analyzeWarnings path g).1 <->
     (250 < String.length path)%nat)
  /\ (forall sessionRoots g,
        Forall (fun hit => LongPath ∈ warnings hit
                           <-> (250 < String.length (path hit))%nat)
          (startScan regexTest rules now sessionRoots g).1.2).
Proof.
  split; [apply analyzeWarnings_LongPath|].
  intros sessionRoots g. apply Forall_lookup. intros i hit Hi.
  destruct (startScan_emits sessionRoots g) as [_ Hall].
  destruct (Forall2_lookup_r _ _ _ _ _ Hall Hi) as (folder & _ & g' & ->).
  destruct (makeHit_fields folder g') as (Hp & _ & _ & _ & Hw & _).
  rewrite Hp, Hw. apply analyzeWarnings_LongPath.
Qed.

End ScannerProperties.

(** C4, counterexample. With no rule at all the scan of [D:\x] still emits
    a hit for the visited folder [D:\x\temp\cache], so hits are not
    emitted only on a match; and a folder matched by a labelled rule gets
    the label, not the rule id, as its [matched_rule]. *)
Lemma startScan_not_as_specified :
  ~ Spec.hitsAsSpecified Spec.noRegExp [] (Spec.visitedFolders ["D:\x"])
      (FileScanner.startScan Spec.noRegExp [] Spec.someDay ["D:\x"]
         Spec.highDraws).1.2
  /\ ~ Spec.hitsAsSpecified Spec.noRegExp [Spec.labelledRule]
        (Spec.visitedFolders ["D:\report"])
        (FileScanner.startScan Spec.noRegExp [Spec.labelledRule]
           Spec.someDay ["D:\report"] Spec.highDraws).1.2.
Proof.
  split.
  - intros (Hemit & _ & _).
    pose (folder := FileScanner.mkFolder "D:\x\temp\cache" "cache"
                      (FileScanner.MiB * 34)).
    destruct (Hemit folder) as [Hsome _].
    { vm_compute. apply list_elem_of_In. simpl. auto. }
    destruct Hsome as [r Hr]; [|vm_compute in Hr; discriminate].
    exists (Types.mkHit "D:\x\temp\cache" "cache" None None []
              (Some (FileScanner.MiB * 34))).
    split; [|reflexivity].
    apply list_elem_of_In. vm_compute. right. left. reflexivity.
  - intros (_ & Hid & _).
    pose (hit := Types.mkHit "D:\report\report_backup" "report_backup"
                   (Some "Reports") (Some "D:\Out\{yyyy}\report_backup")
                   [] (Some (FileScanner.MiB * 123))).
    specialize (Hid hit). vm_compute in Hid.
    assert (Some "Reports" = Some "b") as [=].
    apply Hid. apply list_elem_of_In. left. reflexivity.
Qed.

(** C8, counterexample. A path of 248 characters exceeds 247 and gets no
    LongPath warning. *)
Lemma LongPath_not_at_248 :
  String.length (Spec.pathOfLength 245) = 248%nat
  /\ ~ Spec.longPathAsSpecified (Spec.pathOfLength 245) Spec.highDraws.
Proof.
  split; [reflexivity|].
  unfold Spec.longPathAsSpecified. intros [_ Hback].
  assert (Hin : Types.LongPath
                ∈ (FileScanner.analyzeWarnings (Spec.pathOfLength 245)
                     Spec.highDraws).1)
    by (apply Hback; vm_compute; lia).
  vm_compute in Hin. inversion Hin.
Qed.

(* ===================================================================== *)
(** * Properties of template expansion *)
(* ===================================================================== *)

Section TemplateProperties.
Import JsString Effects Types FileScanner Spec.

Lemma replaceFrom_nil pat repl before :
  pat <> EmptyString -> replaceFrom pat repl before EmptyString = before.
Proof. by destruct pat. Qed.

Lemma replaceFrom_cons pat repl before c s :
  replaceFrom pat repl before (String c s)
  = if String.prefix pat (String c s)
    then before +:+ getSubstitution pat before
                      (drop (String.length pat) (String c s)) repl
                +:+ drop (String.length pat) (String c s)
    else replaceFrom pat repl (before +:+ String c EmptyString) s.
Proof. reflexivity. Qed.

Lemma tokenText_prefix_miss t c s :
  Ascii.eqb c "{" = false -> String.prefix (tokenText t) (String c s) = false.
Proof.
  intros Hc. destruct t; unfold tokenText; rewrite prefix_cons;
    (destruct (ascii_dec "{" c) as [<-|_]; [done | reflexivity]).
Qed.

Lemma replaceFrom_skip_plain t repl text : forall before s,
  hasChar "{" text = false ->
  replaceFrom (tokenText t) repl before (text +:+ s)
  = replaceFrom (tokenText t) repl (before +:+ text) s.
Proof.
  induction text as [|c text IH]; intros before s Hplain.
  - by rewrite append_nil_r.
  - simpl in Hplain. apply orb_false_iff in Hplain as [Hc Hrest].
    rewrite append_cons, replaceFrom_cons, tokenText_prefix_miss by done.
    rewrite IH by done. by rewrite append_assoc.
Qed.

Lemma replaceFrom_skip_token t t' repl before s :
  t' <> t ->
  replaceFrom (tokenText t) repl before (tokenText t' +:+ s)
  = replaceFrom (tokenText t) repl (before +:+ tokenText t') s.
Proof.
  intros Hne.
  destruct t, t'; try done; unfold tokenText;
    repeat (rewrite append_cons, replaceFrom_cons; cbn [String.prefix ascii_dec]);
    cbn; rewrite ?append_assoc; reflexivity.
Qed.

Lemma getSubstitution_plain matched before after repl :
  hasChar "$" repl = false ->
  getSubstitution matched before after repl = repl.
Proof.
  induction repl as [|c r IH]; [done|]. simpl.
  intros [Hc Hr]%orb_false_iff. rewrite Hc. by rewrite IH.
Qed.

Lemma replaceFrom_hit t repl before s :
  hasChar "$" repl = false ->
  replaceFrom (tokenText t) repl before (tokenText t +:+ s)
  = before +:+ repl +:+ s.
Proof.
  intros Hplain.
  assert (Hcons : exists c p, tokenText t = String c p)
    by (destruct t; eauto).
  destruct Hcons as (c & p & Htok).
  rewrite Htok at 2. rewrite append_cons, replaceFrom_cons.
  rewrite <- append_cons, <- Htok.
  by rewrite prefix_app, drop_app, getSubstitution_plain.
Qed.

Lemma substToken_absent t v segs :
  t ∉ tokensOf segs -> substToken t v segs = segs.
Proof.
  induction segs as [|[text|t'] rest IH]; simpl; intros Hnot; [done|..].
  - unfold substToken in *. simpl. by rewrite IH.
  - apply not_elem_of_cons in Hnot as [Hne Hrest].
    unfold substToken in *. simpl. rewrite IH by done.
    by destruct (decide (t' = t)) as [->|].
Qed.

Lemma replace_render_from t v segs : forall before,
  plainLiterals segs -> NoDup (tokensOf segs) -> hasChar "$" v = false ->
  replaceFrom (tokenText t) v before (render segs)
  = before +:+ render (substToken t v segs).
Proof.
  induction segs as [|[text|t'] rest IH]; intros before Hlit Hnodup Hv.
  - simpl. rewrite append_nil_r. apply replaceFrom_nil. by destruct t.
  - apply Forall_cons in Hlit as [Htext Hlit]. simpl.
    rewrite replaceFrom_skip_plain, IH by done.
    apply append_assoc.
  - apply Forall_cons in Hlit as [_ Hlit]. simpl in Hnodup.
    apply NoDup_cons in Hnodup as [Hnot Hnodup]. simpl.
    destruct (decide (t' = t)) as [->|Hne].
    + rewrite replaceFrom_hit by done.
      fold (substToken t v rest). by rewrite substToken_absent.
    + rewrite replaceFrom_skip_token, IH by done.
      apply append_assoc.
Qed.

Lemma replace_render t v segs :
  plainLiterals segs -> NoDup (tokensOf segs) -> hasChar "$" v = false ->
  replace (render segs) (tokenText t) v = render (substToken t v segs).
Proof. intros. unfold replace. by rewrite replace_render_from. Qed.

Lemma substToken_plainLiterals t v segs :
  hasChar "{" v = false -> plainLiterals segs ->
  plainLiterals (substToken t v segs).
Proof.
  intros Hv Hlit. unfold plainLiterals, substToken.
  apply Forall_fmap. eapply Forall_impl; [exact Hlit|].
  intros [text|t'] Hseg; simpl; [done|]. by destruct (decide (t' = t)).
Qed.

Lemma tokensOf_substToken_sublist t v segs :
  sublist (tokensOf (substToken t v segs)) (tokensOf segs).
Proof.
  induction segs as [|[text|t'] rest IH]; simpl; [done|done|].
  fold (substToken t v rest). destruct (decide (t' = t)); simpl.
  - by apply sublist_cons.
  - by apply sublist_skip.
Qed.

Lemma substToken_NoDup t v segs :
  NoDup (tokensOf segs) -> NoDup (tokensOf (substToken t v segs)).
Proof.
  intros H. eapply sublist_NoDup; [exact H|].
  apply tokensOf_substToken_sublist.
Qed.

Lemma allDigits_hasChar c s :
  isDigit c = false -> allDigits s = true -> hasChar c s = false.
Proof.
  intros Hc. induction s as [|d s IH]; [done|]. simpl.
  intros [Hd Hs]%andb_true_iff. rewrite IH by done.
  destruct (Ascii.eqb_spec d c) as [->|]; [congruence | done].
Qed.

Lemma pretty_N_char_digit x : isDigit (pretty_N_char x) = true.
Proof. unfold pretty_N_char. by repeat case_match. Qed.

Lemma pretty_N_go_digits x : forall s,
  allDigits s = true -> allDigits (pretty_N_go x s) = true.
Proof.
  induction (N.lt_wf_0 x) as [x _ IH]. intros s Hs.
  destruct (decide (x = 0)%N) as [->|Hx]; [by rewrite pretty_N_go_0|].
  rewrite pretty_N_go_step by lia. apply IH.
  - apply N.div_lt; lia.
  - simpl. by rewrite pretty_N_char_digit.
Qed.

Lemma toString_digits n : allDigits (toString n) = true.
Proof.
  unfold toString, pretty, pretty_N. case_decide; [done|].
  by apply pretty_N_go_digits.
Qed.

Lemma allDigits_app a b :
  allDigits (a +:+ b) = allDigits a && allDigits b.
Proof.
  induction a as [|c a IH]; [done|].
  rewrite append_cons. simpl. by rewrite IH, andb_assoc.
Qed.

Lemma repeatChar_digits k : allDigits (repeatChar "0" k) = true.
Proof. induction k as [|k IH]; [done | exact IH]. Qed.

Lemma padStart_digits s n :
  allDigits s = true -> allDigits (padStart s n "0") = true.
Proof.
  intros Hs. unfold padStart. by rewrite allDigits_app, repeatChar_digits.
Qed.

Lemma digits_plainText s : allDigits s = true -> plainText s.
Proof. intros Hs. split; by apply allDigits_hasChar. Qed.

Lemma tokenValue_plainText folder now t :
  plainText (f_name folder) -> plainText (tokenValue folder now t).
Proof.
  intros Hname. destruct t; simpl; [done|..]; apply digits_plainText.
  - apply toString_digits.
  - apply padStart_digits, toString_digits.
  - apply padStart_digits, toString_digits.
Qed.

Lemma render_all_substituted folder now segs :
  render (substToken TDay (tokenValue folder now TDay)
            (substToken TMonth (tokenValue folder now TMonth)
               (substToken TYear (tokenValue folder now TYear)
                  (substToken TName (tokenValue folder now TName) segs))))
  = expandAll folder now segs.
Proof.
  induction segs as [|[text|t] rest IH]; [done|..].
  - simpl. f_equal. apply IH.
  - unfold substToken in *. rewrite !fmap_cons.
    destruct t; simpl; f_equal; apply IH.
Qed.

(** Sequential [replace] calls expand a template made of plain text and
    the four tokens, each used at most once. *)
Lemma generateDestinationPath_expands folder rule now segs :
  template rule = render segs ->
  plainLiterals segs -> NoDup (tokensOf segs) ->
  plainText (f_name folder) ->
  generateDestinationPath folder rule now
  = dest_root rule +:+ "\" +:+ expandAll folder now segs.
Proof.
  intros Htpl Hlit Hnodup Hname. unfold generateDestinationPath.
  rewrite Htpl.
  pose proof (tokenValue_plainText folder now TName Hname) as [Hn1 Hn2].
  pose proof (tokenValue_plainText folder now TYear Hname) as [Hy1 Hy2].
  pose proof (tokenValue_plainText folder now TMonth Hname) as [Hm1 Hm2].
  pose proof (tokenValue_plainText folder now TDay Hname) as [Hd1 Hd2].
  change "{name}" with (tokenText TName).
  change "{year}" with (tokenText TYear).
  change "{month}" with (tokenText TMonth).
  change "{day}" with (tokenText TDay).
  change (f_name folder) with (tokenValue folder now TName).
  change (toString (fullYear now)) with (tokenValue folder now TYear).
  change (padStart (toString (month now + 1)) 2 "0")
    with (tokenValue folder now TMonth).
  change (padStart (toString (date now)) 2 "0")
    with (tokenValue folder now TDay).
  rewrite replace_render by done.
  rewrite replace_render
    by auto using substToken_plainLiterals, substToken_NoDup.
  rewrite replace_render
    by auto using substToken_plainLiterals, substToken_NoDup.
  rewrite replace_render
    by auto using substToken_plainLiterals, substToken_NoDup.
  by rewrite render_all_substituted.
Qed.

(** C5 (as amended). For every matched hit a destination preview is
    always produced (no template is rejected) and it is the rule's
    dest_root, a backslash, and the expanded template. When the template
    is made of plain text and of the tokens [{name}], [{year}], [{month}]
    and [{day}], each at most once, and the folder's name holds neither
    an opening brace nor a dollar sign, the expansion replaces them by
    the folder's name and by the year, the two-digit month and the
    two-digit day of the local date at scan time. *)
Theorem dest_preview_expands regexTest rules now folder rule g :
  findMatchingRule regexTest rules (f_name folder) = Some rule ->
  let hit := (makeHit regexTest rules now folder g).1 in
  (exists expanded,
     dest_preview hit = Some (dest_root rule +:+ "\" +:+ expanded))
  /\ (forall segs,
        template rule = render segs ->
        plainLiterals segs -> NoDup (tokensOf segs) ->
        plainText (f_name folder) ->
        dest_preview hit
        = Some (dest_root rule +:+ "\" +:+ expandAll folder now segs)).
Proof.
  intros Hrule hit.
  destruct (makeHit_fields regexTest rules now folder g)
    as (_ & _ & _ & Hdest & _).
  fold hit in Hdest. rewrite Hrule in Hdest. simpl in Hdest.
  split.
  - eexists. rewrite Hdest. reflexivity.
  - intros segs Htpl Hlit Hnodup Hname. rewrite Hdest.
    f_equal. by apply generateDestinationPath_expands.
Qed.

End TemplateProperties.

(** C5, witness: the template [{year}\{month}\{name}] on 11 September 2025. *)
Lemma dest_preview_expands_witness :
  FileScanner.findMatchingRule Spec.noRegExp [Spec.datedRule]
    (FileScanner.f_name Spec.reportFolder) = Some Spec.datedRule
  /\ Types.dest_preview
       (FileScanner.makeHit Spec.noRegExp [Spec.datedRule] Spec.someDay
          Spec.reportFolder Spec.highDraws).1
     = Some "D:\Sorted\2025\09\report_backup".
Proof.
  assert (Hrule : FileScanner.findMatchingRule Spec.noRegExp [Spec.datedRule]
                    (FileScanner.f_name Spec.reportFolder)
                  = Some Spec.datedRule) by reflexivity.
  split; [exact Hrule|].
  destruct (dest_preview_expands Spec.noRegExp [Spec.datedRule] Spec.someDay
              Spec.reportFolder Spec.datedRule Spec.highDraws Hrule)
    as [_ Hexpand].
  apply (Hexpand [Spec.Tok Spec.TYear; Spec.Lit "\"; Spec.Tok Spec.TMonth;
                  Spec.Lit "\"; Spec.Tok Spec.TName]).
  - reflexivity.
  - repeat constructor.
  - apply (bool_decide_unpack
             (NoDup [Spec.TYear; Spec.TMonth; Spec.TName])).
    vm_compute. exact I.
  - split; reflexivity.
Defined.

(** C5, counterexample. The documented template [{yyyy}\{name}] is left
    as it stands instead of receiving the year, and a rule whose template
    holds the unknown token [{bogus}] is accepted and yields a destination
    with the token in it. *)
Lemma dest_preview_not_as_specified :
  ~ Spec.previewAsSpecified Spec.reportFolder Spec.labelledRule Spec.someDay
      (FileScanner.makeHit Spec.noRegExp [Spec.labelledRule] Spec.someDay
         Spec.reportFolder Spec.highDraws).1
  /\ ~ Spec.previewAsSpecified Spec.reportFolder Spec.bogusRule Spec.someDay
        (FileScanner.makeHit Spec.noRegExp [Spec.bogusRule] Spec.someDay
           Spec.reportFolder Spec.highDraws).1.
Proof.
  split; unfold Spec.previewAsSpecified; vm_compute; discriminate.
Qed.

(* ===================================================================== *)
(** * Properties of the planner *)
(* ===================================================================== *)

Section PlannerKinds.
Import JsString Effects Types PlanGenerator Spec.

Lemma analyzeConflicts_elem hit g c :
  c ∈ (analyzeConflicts hit g).1 <->
  c ∈ (nameConflict hit g).1 \/ c ∈ permissionConflict hit
  \/ c ∈ (spaceConflict hit (nameConflict hit g).2).1 \/ c ∈ cycleConflict hit.
Proof.
  unfold analyzeConflicts.
  destruct (nameConflict hit g) as [c1 g1]. simpl.
  destruct (spaceConflict hit g1) as [c3 g3]. simpl.
  by rewrite !elem_of_app.
Qed.

Lemma nameConflict_elem hit g c :
  c ∈ (nameConflict hit g).1 -> exists p, c = NameExists p.
Proof.
  unfold nameConflict. destruct (truthyString (dest_preview hit)) as [dest|];
    [|by intros ?%elem_of_nil].
  destruct (random g) as [r g']. destruct (Qltb r (3 # 10)); simpl.
  - intros ->%list_elem_of_singleton. eauto.
  - by intros ?%elem_of_nil.
Qed.

Lemma spaceConflict_elem hit g c :
  c ∈ (spaceConflict hit g).1 -> exists r a, c = NoSpace r a.
Proof.
  unfold spaceConflict. destruct (truthyNumber (size_bytes hit)) as [size|];
    [|by intros ?%elem_of_nil].
  destruct (1024 * 1024 * 100 <? size); [|by intros ?%elem_of_nil].
  destruct (random g) as [r g1]. destruct (Qltb r (2 # 10));
    [|by intros ?%elem_of_nil].
  destruct (random g1) as [r2 g2].
  destruct (_ <? size); simpl; [|by intros ?%elem_of_nil].
  intros ->%list_elem_of_singleton. eauto.
Qed.

Lemma permissionConflict_elem hit c :
  c ∈ permissionConflict hit -> c = PermissionConflict Administrator.
Proof.
  unfold permissionConflict. destruct (hasWarning AccessDenied hit).
  - by intros ->%list_elem_of_singleton.
  - by intros ?%elem_of_nil.
Qed.

Lemma DestInsideSource_elem hit g :
  DestInsideSource ∈ (analyzeConflicts hit g).1 <->
  exists dest, truthyString (dest_preview hit) = Some dest
               /\ includes (toLowerCase (path hit)) (toLowerCase dest) = true.
Proof.
  rewrite analyzeConflicts_elem. split.
  - intros [H|[H|[H|H]]].
    + by apply nameConflict_elem in H as [? ?].
    + by apply permissionConflict_elem in H.
    + by apply spaceConflict_elem in H as (? & ? & ?).
    + unfold cycleConflict in H.
      destruct (truthyString (dest_preview hit)) as [dest|];
        [|by apply elem_of_nil in H].
      exists dest. split; [done|].
      destruct (includes _ _); [done | by apply elem_of_nil in H].
  - intros (dest & Hd & Hinc). right; right; right.
    unfold cycleConflict. rewrite Hd, Hinc. by apply list_elem_of_singleton.
Qed.

Lemma truthyString_Some o s : truthyString o = Some s -> o = Some s.
Proof.
  destruct o as [t|]; simpl; [|done]. by destruct (truthy t); intros [= ->].
Qed.

Lemma isDescendant_longer dest src :
  isDescendant dest src -> (String.length src < String.length dest)%nat.
Proof. intros (rest & _ & ->). rewrite append_length. simpl. lia. Qed.

(** The containment test of [analyzeConflicts] asks whether the source
    path contains the destination text; a destination strictly below the
    source is longer than the source, so it is never reported. *)
Lemma DestInsideSource_missed_for_descendant hit dest g :
  dest_preview hit = Some dest ->
  isDescendant dest (path hit) ->
  DestInsideSource ∉ (analyzeConflicts hit g).1.
Proof.
  intros Hd Hdesc. rewrite DestInsideSource_elem.
  intros (dest' & Ht & Hinc). apply truthyString_Some in Ht.
  rewrite Hd in Ht. injection Ht as <-.
  apply includes_length in Hinc. rewrite !toLowerCase_length in Hinc.
  apply isDescendant_longer in Hdesc. lia.
Qed.

Lemma DestInsideSource_forces_Skip hit g1 g2 :
  DestInsideSource ∈ (analyzeConflicts hit g1).1 ->
  (determineOperationKind hit g2).1 = Skip.
Proof.
  intros (dest & Hd & Hinc)%DestInsideSource_elem.
  assert (Hin : DestInsideSource ∈ (analyzeConflicts hit g2).1).
  { apply DestInsideSource_elem. eauto. }
  unfold determineOperationKind. rewrite Hd.
  destruct (analyzeConflicts hit g2) as [cs g']. simpl in *.
  destruct cs as [|c cs]; [by apply elem_of_nil in Hin | done].
Qed.

Lemma parentOf_take p : exists n, parentOf p = take n p.
Proof.
  unfold parentOf, substring. eexists.
  replace (Z.to_nat (Z.min (Z.min (Z.max 0 0) (Z.of_nat (String.length p)))
             (Z.min (Z.max (lastIndexOf p "\") 0) (Z.of_nat (String.length p)))))
    with 0%nat by lia.
  reflexivity.
Qed.

Lemma parent_afterParent p : parentOf p +:+ afterParent p = p.
Proof.
  unfold afterParent. destruct (parentOf_take p) as [n ->].
  apply take_drop_length.
Qed.

Lemma no_conflicts_parts hit g :
  (analyzeConflicts hit g).1 = [] ->
  permissionConflict hit = [] /\ cycleConflict hit = [].
Proof.
  unfold analyzeConflicts.
  destruct (nameConflict hit g) as [c1 g1].
  destruct (spaceConflict hit g1) as [c3 g3]. simpl.
  intros (_ & (? & (_ & ?)%app_eq_nil)%app_eq_nil)%app_eq_nil. done.
Qed.

(** C2 (as amended). For every hit with a destination for which the
    conflict analysis of [determineOperationKind] finds no conflict, the
    operation kind is CopyDelete exactly when source and destination lie
    on different volumes (there is no enable_cross_volume option and a
    cross-volume move is never rejected); Rename exactly when they lie on
    the same volume and their parent directories are equal ignoring case,
    in which case what follows the parent (separator and name) differs
    ignoring case; and Move exactly when they lie on the same volume and
    the parents differ. *)
Theorem determineOperationKind_classifies hit dest g :
  truthyString (dest_preview hit) = Some dest ->
  (analyzeConflicts hit g).1 = [] ->
  let k := (determineOperationKind hit g).1 in
  (k = CopyDelete <-> isCrossVolume (path hit) dest = true)
  /\ (k = Rename <->
        isCrossVolume (path hit) dest = false /\ sameParent (path hit) dest)
  /\ (k = Move <->
        isCrossVolume (path hit) dest = false /\ ~ sameParent (path hit) dest)
  /\ (k = Rename ->
        toLowerCase (afterParent (path hit)) <> toLowerCase (afterParent dest)).
Proof.
  intros Hd Hnone.
  destruct (no_conflicts_parts hit g Hnone) as [Hperm Hcycle].
  assert (Hacc : hasWarning AccessDenied hit = false).
  { unfold permissionConflict in Hperm.
    by destruct (hasWarning AccessDenied hit). }
  assert (Hneq : toLowerCase (path hit) <> toLowerCase dest).
  { intros Heq. unfold cycleConflict in Hcycle. rewrite Hd in Hcycle.
    by rewrite Heq, includes_refl in Hcycle. }
  unfold determineOperationKind, sameParent. rewrite Hd.
  destruct (analyzeConflicts hit g) as [cs g']. simpl in Hnone. subst cs.
  simpl. rewrite Hacc.
  destruct (isCrossVolume (path hit) dest); simpl.
  { repeat split; try done; by intros []. }
  destruct (String.eqb_spec (toLowerCase (parentOf (path hit)))
              (toLowerCase (parentOf dest))) as [Hpar|Hpar]; simpl.
  - repeat split; try done; try by intros [].
    intros _ Hafter. apply Hneq.
    rewrite <- (parent_afterParent (path hit)), <- (parent_afterParent dest).
    by rewrite !toLowerCase_app, Hpar, Hafter.
  - repeat split; try done; by intros [].
Qed.

End PlannerKinds.

Section PlannerRuns.
Import JsString Effects Types PlanGenerator Spec.

Lemma nodeId_inj i j : nodeId i = nodeId j -> i = j.
Proof. unfold nodeId. intros [= H]. by apply (inj pretty). Qed.

Lemma default_truthyNumber o : default 0 (truthyNumber o) = default 0 o.
Proof.
  destruct o as [n|]; simpl; [|done].
  by destruct (Z.eqb_spec n 0) as [->|].
Qed.

Lemma planIteration_eq i hit st :
  exists cs k est g',
    planIteration i hit st
    = mkLocals (rootIds st ++ [nodeId i])
        (totalBytes st + sizeOrZero hit) (countDirs st + 1)
        (countFiles st + est) (crossVolume st + crossingCount hit)
        (totalConflicts st + Z.of_nat (length cs))
        (totalWarnings st + Z.of_nat (length (warnings hit)))
        (<[nodeId i :=
             mkNode (nodeId i) true (name hit) (path hit) (name hit)
               (pathAfter hit) k (size_bytes hit) (warnings hit) cs []
               (matched_rule hit)]> (nodesObj st))
        g'.
Proof.
  unfold planIteration, sizeOrZero, crossingCount, pathAfter.
  destruct (analyzeConflicts hit (rng st)) as [cs g1].
  destruct (random g1) as [r g2].
  destruct (determineOperationKind hit g2) as [k g3].
  exists cs, k, (Qfloor (r * 50) + 10), g3.
  rewrite <- default_truthyNumber.
  f_equal.
  all: try (destruct (truthyNumber (size_bytes hit)); simpl; lia).
  all: destruct (truthyString (dest_preview hit)) as [dest|]; try done;
    try lia.
  destruct (isCrossVolume (path hit) dest); lia.
Qed.

Lemma sumOver_snoc {A} (f : A -> Z) l x :
  sumOver f (l ++ [x]) = sumOver f l + f x.
Proof. induction l as [|y l IH]; simpl; [lia | rewrite IH; lia]. Qed.

Lemma nodesSum_insert f (m : gmap string PlanNode) rid node :
  m !! rid = None ->
  nodesSum f (<[rid := node]> m) = nodesSum f m + f node.
Proof.
  intros Hnone. unfold nodesSum.
  rewrite map_fold_insert_L; [done | intros; lia | done].
Qed.

Lemma planInv_fresh done st :
  planInv done st -> nodesObj st !! nodeId (length done) = None.
Proof.
  intros (Hroots & Hdom & _). apply not_elem_of_dom.
  rewrite Hdom, Hroots, elem_of_list_to_set, list_elem_of_fmap.
  intros (j & Heq & Hj). apply nodeId_inj in Heq. subst j.
  apply elem_of_seq in Hj. lia.
Qed.

Lemma planInv_init g : planInv [] (initLocals g).
Proof.
  unfold planInv, initLocals, nodesSum. simpl.
  rewrite dom_empty_L, map_fold_empty. repeat split; constructor.
Qed.

Lemma planInv_step done hit st :
  planInv done st ->
  planInv (done ++ [hit]) (planIteration (length done) hit st).
Proof.
  intros Hinv. pose proof (planInv_fresh _ _ Hinv) as Hfresh.
  destruct Hinv as (Hroots & Hdom & Hnodes & Hdirs & Hbytes & Hconf & Hwarn).
  destruct (planIteration_eq (length done) hit st)
    as (cs & k & est & g' & ->).
  unfold planInv. simpl. rewrite length_app. simpl.
  repeat split.
  - rewrite Hroots, Nat.add_1_r, seq_S, fmap_app. done.
  - rewrite dom_insert_L, list_to_set_app_L, Hdom. simpl.
    by rewrite union_empty_r_L, (comm_L (∪)).
  - apply Forall2_app.
    + eapply Forall2_impl; [exact Hnodes|].
      intros h rid (node & Hlook & Hnode). exists node. split; [|done].
      rewrite lookup_insert_ne; [done|]. intros <-. congruence.
    + constructor; [|constructor].
      eexists. split; [apply lookup_insert_eq | reflexivity].
  - lia.
  - rewrite sumOver_snoc. lia.
  - rewrite nodesSum_insert by done. simpl. lia.
  - rewrite nodesSum_insert by done. simpl. lia.
Qed.

Lemma planLoop_inv hits : forall done st,
  planInv done st ->
  planInv (done ++ hits) (planLoop (length done) hits st).
Proof.
  induction hits as [|hit rest IH]; intros done st Hinv; simpl.
  - by rewrite app_nil_r.
  - apply planInv_step with (hit := hit) in Hinv.
    apply IH in Hinv. rewrite length_app, Nat.add_1_r in Hinv.
    by rewrite <- app_assoc in Hinv.
Qed.

Lemma NoDup_nodeIds n : NoDup (nodeId <$> seq 0 n).
Proof.
  apply NoDup_fmap_2; [|apply NoDup_seq].
  intros i j. apply nodeId_inj.
Qed.

(** C10. A plan is always produced, and in it: [count_dirs] is the number
    of input hits; the roots are one fresh node id per hit, in order, and
    the node map holds exactly these nodes, each built from its hit;
    [summary.conflicts] and [summary.warnings] are the sums over the node
    map of the lengths of the nodes' conflict and warning lists; and
    [total_bytes] is the sum of the hits' sizes, absent sizes counting
    as zero, for sizes that are byte counts with a sum of at most
    [2^53], the range in which the additions of the code are exact. *)
Theorem generatePlan_summary hits g :
  exists p,
    (generatePlan hits g).1 = mkPlanSession Completed (Some p)
    /\ count_dirs (summary p) = Z.of_nat (length hits)
    /\ roots p = nodeId <$> seq 0 (length hits)
    /\ NoDup (roots p)
    /\ dom (nodes p) = list_to_set (C := gset string) (roots p)
    /\ Forall2 (fun hit rid =>
                  exists node, nodes p !! rid = Some node
                               /\ nodeOfHit hit rid node)
         hits (roots p)
    /\ sum_conflicts (summary p)
       = nodesSum (fun node => Z.of_nat (length (conflicts node))) (nodes p)
    /\ sum_warnings (summary p)
       = nodesSum (fun node => Z.of_nat (length (node_warnings node)))
           (nodes p)
    /\ (safeSum sizeOrZero hits ->
        total_bytes (summary p) = sumOver sizeOrZero hits).
Proof.
  unfold generatePlan, buildPlan.
  destruct (random g) as [r g0].
  pose proof (planLoop_inv hits [] (initLocals g0) (planInv_init g0)) as Hinv.
  simpl in Hinv.
  destruct Hinv as (Hroots & Hdom & Hnodes & Hdirs & Hbytes & Hconf & Hwarn).
  eexists. split; [reflexivity|]. simpl.
  rewrite Hroots. repeat split; try done.
  - apply NoDup_nodeIds.
  - by rewrite <- Hroots.
  - by rewrite <- Hroots.
Qed.

Lemma planIteration_agree i hit st1 st2 :
  runsAgree st1 st2 ->
  runsAgree (planIteration i hit st1) (planIteration i hit st2).
Proof.
  intros (Hroots & Hnodes & Hdirs & Hbytes & Hcross & Hwarn).
  destruct (planIteration_eq i hit st1) as (cs1 & k1 & e1 & g1 & ->).
  destruct (planIteration_eq i hit st2) as (cs2 & k2 & e2 & g2 & ->).
  unfold runsAgree. simpl.
  rewrite !fmap_insert, Hroots, Hnodes, Hdirs, Hbytes, Hcross, Hwarn.
  done.
Qed.

Lemma planLoop_agree hits : forall i st1 st2,
  runsAgree st1 st2 ->
  runsAgree (planLoop i hits st1) (planLoop i hits st2).
Proof.
  induction hits as [|hit rest IH]; intros i st1 st2 Hagree; simpl; [done|].
  by apply IH, planIteration_agree.
Qed.

Lemma random_drawsOnly : drawsOnly random.
Proof.
  intros g1 g2 Hsame. unfold random. simpl. split.
  - pose proof (Hsame 0%nat) as H0. rewrite !Nat.add_0_r in H0.
    by rewrite H0.
  - intros n. simpl. pose proof (Hsame (S n)) as HS.
    by rewrite !Nat.add_succ_r in HS.
Qed.

Lemma nameConflict_drawsOnly hit : drawsOnly (nameConflict hit).
Proof.
  intros g1 g2 Hsame. unfold nameConflict.
  destruct (truthyString (dest_preview hit)) as [dest|]; [|done].
  destruct (random_drawsOnly g1 g2 Hsame) as [Hv Hg].
  destruct (random g1) as [r1 g1'], (random g2) as [r2 g2'].
  cbn [fst snd] in *. subst r2. by destruct (Qltb r1 (3 # 10)).
Qed.

Lemma spaceConflict_drawsOnly hit : drawsOnly (spaceConflict hit).
Proof.
  intros g1 g2 Hsame. unfold spaceConflict.
  destruct (truthyNumber (size_bytes hit)) as [size|]; [|done].
  destruct (1024 * 1024 * 100 <? size); [|done].
  destruct (random_drawsOnly g1 g2 Hsame) as [Hv Hg].
  destruct (random g1) as [r1 g1'], (random g2) as [r2 g2'].
  cbn [fst snd] in *. subst r2. destruct (Qltb r1 (2 # 10)); [|done].
  destruct (random_drawsOnly g1' g2' Hg) as [Hv' Hg'].
  destruct (random g1') as [q1 h1], (random g2') as [q2 h2].
  cbn [fst snd] in *. subst q2. by destruct (_ <? size).
Qed.

Lemma analyzeConflicts_drawsOnly hit : drawsOnly (analyzeConflicts hit).
Proof.
  intros g1 g2 Hsame. unfold analyzeConflicts.
  destruct (nameConflict_drawsOnly hit g1 g2 Hsame) as [Hv Hg].
  destruct (nameConflict hit g1) as [c1 g1'], (nameConflict hit g2) as [c2 g2'].
  cbn [fst snd] in *. subst c2.
  destruct (spaceConflict_drawsOnly hit g1' g2' Hg) as [Hv' Hg'].
  destruct (spaceConflict hit g1') as [c3 h1], (spaceConflict hit g2') as [c4 h2].
  cbn [fst snd] in *. by subst c4.
Qed.

Lemma determineOperationKind_drawsOnly hit :
  drawsOnly (determineOperationKind hit).
Proof.
  intros g1 g2 Hsame. unfold determineOperationKind.
  destruct (truthyString (dest_preview hit)) as [dest|]; [|done].
  destruct (analyzeConflicts_drawsOnly hit g1 g2 Hsame) as [Hv Hg].
  destruct (analyzeConflicts hit g1) as [c1 g1'],
    (analyzeConflicts hit g2) as [c2 g2'].
  cbn [fst snd] in *. subst c2.
  destruct (0 <? Z.of_nat (length c1)); [done|].
  destruct (hasWarning AccessDenied hit); [done|].
  destruct (isCrossVolume (path hit) dest); [done|].
  by destruct (String.eqb _ _).
Qed.

Lemma planIteration_sameDraws i hit st g2 :
  sameDraws (rng st) g2 ->
  exists g2',
    planIteration i hit (withRng st g2) = withRng (planIteration i hit st) g2'
    /\ sameDraws (rng (planIteration i hit st)) g2'.
Proof.
  intros Hsame. unfold planIteration, withRng.
  cbn [rng rootIds totalBytes countDirs countFiles crossVolume
       totalConflicts totalWarnings nodesObj].
  destruct (analyzeConflicts_drawsOnly hit _ _ Hsame) as [Hv Hg].
  destruct (analyzeConflicts hit (rng st)) as [c1 g1'],
    (analyzeConflicts hit g2) as [c2 g2'].
  cbn [fst snd] in *. subst c2.
  destruct (random_drawsOnly _ _ Hg) as [Hv' Hg'].
  destruct (random g1') as [r1 h1], (random g2') as [r2 h2].
  cbn [fst snd] in *. subst r2.
  destruct (determineOperationKind_drawsOnly hit _ _ Hg') as [Hk Hgk].
  destruct (determineOperationKind hit h1) as [k1 j1],
    (determineOperationKind hit h2) as [k2 j2].
  cbn [fst snd] in *. subst k2. by exists j2.
Qed.

Lemma planLoop_sameDraws hits : forall i st g2,
  sameDraws (rng st) g2 ->
  exists g2',
    planLoop i hits (withRng st g2) = withRng (planLoop i hits st) g2'
    /\ sameDraws (rng (planLoop i hits st)) g2'.
Proof.
  induction hits as [|hit rest IH]; intros i st g2 Hsame; simpl.
  - by exists g2.
  - destruct (planIteration_sameDraws i hit st g2 Hsame) as (g2' & -> & Hs).
    by apply IH.
Qed.

(** C6 (as amended). Two runs of the planner on the same hit list agree on
    the root list, on every node's id, names, paths, size, warnings,
    children and rule id, and on the summary's [count_dirs], [total_bytes],
    [cross_volume] and [warnings], whatever [Math.random] delivers; the
    nodes' conflicts and operation kinds and the summary's [conflicts] and
    [count_files] are functions of the draws: runs that receive the same
    draws produce identical plans. *)
Theorem buildPlan_deterministic_up_to_draws hits g1 g2 :
  agreeUpToRandom (buildPlan hits g1).1 (buildPlan hits g2).1
  /\ (sameDraws g1 g2 -> (buildPlan hits g1).1 = (buildPlan hits g2).1).
Proof.
  unfold buildPlan. split.
  - destruct (random g1) as [r1 h1], (random g2) as [r2 h2]. simpl.
    assert (Hinit : runsAgree (initLocals h1) (initLocals h2)) by done.
    apply (planLoop_agree hits 0%nat) in Hinit.
    destruct Hinit as (? & ? & ? & ? & ? & ?). done.
  - intros Hsame. destruct (random_drawsOnly g1 g2 Hsame) as [_ Hg].
    destruct (random g1) as [r1 h1], (random g2) as [r2 h2]. simpl in *.
    destruct (planLoop_sameDraws hits 0%nat (initLocals h1) h2 Hg)
      as (h2' & Heq & _).
    change (withRng (initLocals h1) h2) with (initLocals h2) in Heq.
    by rewrite Heq.
Qed.

End PlannerRuns.

(** C10, witness: the plan of three hits, one of them without a size. *)
Lemma generatePlan_summary_witness :
  Spec.safeSum Spec.sizeOrZero [Spec.bigHit; Spec.nestedHit; Spec.bigHit]
  /\ exists p,
       (PlanGenerator.generatePlan [Spec.bigHit; Spec.nestedHit; Spec.bigHit]
          Spec.zeroDraws).1
       = PlanGenerator.mkPlanSession Types.Completed (Some p)
       /\ Types.count_dirs (Types.summary p) = 3
       /\ Types.total_bytes (Types.summary p) = 4294967296.
Proof.
  assert (Hsafe : Spec.safeSum Spec.sizeOrZero
                    [Spec.bigHit; Spec.nestedHit; Spec.bigHit]).
  { split; [repeat constructor; vm_compute; discriminate|].
    vm_compute. discriminate. }
  split; [exact Hsafe|].
  destruct (generatePlan_summary [Spec.bigHit; Spec.nestedHit; Spec.bigHit]
              Spec.zeroDraws)
    as (p & Hp & Hdirs & _ & _ & _ & _ & _ & _ & Hbytes).
  exists p. split; [exact Hp|]. split; [exact Hdirs|].
  rewrite (Hbytes Hsafe). reflexivity.
Defined.

(** C2, witness: [C:\src\x] to [C:\SRC\y] is a Rename. *)
Lemma determineOperationKind_classifies_witness :
  Types.truthyString (Types.dest_preview Spec.renameHit) = Some "C:\SRC\y"
  /\ (PlanGenerator.analyzeConflicts Spec.renameHit Spec.highDraws).1 = []
  /\ (PlanGenerator.determineOperationKind Spec.renameHit Spec.highDraws).1
     = Types.Rename.
Proof.
  assert (Hd : Types.truthyString (Types.dest_preview Spec.renameHit)
               = Some "C:\SRC\y") by reflexivity.
  assert (Hc : (PlanGenerator.analyzeConflicts Spec.renameHit
                  Spec.highDraws).1 = []) by (vm_compute; reflexivity).
  split; [exact Hd|]. split; [exact Hc|].
  destruct (determineOperationKind_classifies Spec.renameHit "C:\SRC\y"
              Spec.highDraws Hd Hc) as (_ & [_ Hrename] & _).
  apply Hrename. split; vm_compute; reflexivity.
Defined.

(** C2, counterexample. The move of [D:\big] to [E:\archive\big] is planned
    as CopyDelete although enable_cross_volume is off; and the move of
    [srv\x] to [SRV\y], whose parents are equal ignoring case and whose
    names differ, is planned as CopyDelete, not Rename, because the volume
    roots are compared first and exactly. *)
Lemma determineOperationKind_not_as_specified :
  ~ Spec.kindAsSpecified (Spec.mkPlanOptions false) Spec.bigHit
      Spec.highDraws
  /\ ~ Spec.kindAsSpecified (Spec.mkPlanOptions true) Spec.shareHit
        Spec.highDraws.
Proof.
  split; intros H.
  - assert (Hc : (PlanGenerator.analyzeConflicts Spec.bigHit
                    Spec.highDraws).1 = []) by (vm_compute; reflexivity).
    destruct (H "E:\archive\big" eq_refl Hc) as (_ & _ & [Hcopy _]).
    destruct Hcopy as [_ Hflag]; [vm_compute; reflexivity | discriminate].
  - assert (Hc : (PlanGenerator.analyzeConflicts Spec.shareHit
                    Spec.highDraws).1 = []) by (vm_compute; reflexivity).
    destruct (H "SRV\y" eq_refl Hc) as ([_ Hrename] & _).
    assert (Hk : (PlanGenerator.determineOperationKind Spec.shareHit
                    Spec.highDraws).1 = Types.Rename).
    { apply Hrename. split; [vm_compute; reflexivity|].
      vm_compute. discriminate. }
    vm_compute in Hk. discriminate.
Qed.

(** C3, the failing input. The destination [C:\A\sub\A] lies below the
    source [C:\A], yet no DestInsideSource conflict is reported and the
    node is planned as a Move. *)
Theorem nested_destination_not_flagged :
  Spec.isDescendant "C:\A\sub\A" (Types.path Spec.nestedHit)
  /\ (Types.DestInsideSource
      ∉ (PlanGenerator.analyzeConflicts Spec.nestedHit Spec.highDraws).1)
  /\ (PlanGenerator.determineOperationKind Spec.nestedHit Spec.highDraws).1
     = Types.Move.
Proof.
  assert (Hdesc : Spec.isDescendant "C:\A\sub\A" (Types.path Spec.nestedHit)).
  { exists "sub\A". split; [discriminate | reflexivity]. }
  split; [exact Hdesc|]. split; [|vm_compute; reflexivity].
  by apply (DestInsideSource_missed_for_descendant Spec.nestedHit "C:\A\sub\A").
Qed.

(** C6, witness: two states of the source that deliver the same draws. *)
Lemma buildPlan_deterministic_up_to_draws_witness :
  Spec.sameDraws Spec.zeroDraws (Effects.mkRng (fun _ => 0%N) 7)
  /\ (PlanGenerator.buildPlan [Spec.bigHit] Spec.zeroDraws).1
     = (PlanGenerator.buildPlan [Spec.bigHit]
          (Effects.mkRng (fun _ => 0%N) 7)).1.
Proof.
  assert (Hs : Spec.sameDraws Spec.zeroDraws (Effects.mkRng (fun _ => 0%N) 7))
    by (intros n; reflexivity).
  split; [exact Hs|].
  exact (proj2 (buildPlan_deterministic_up_to_draws [Spec.bigHit]
                  Spec.zeroDraws (Effects.mkRng (fun _ => 0%N) 7)) Hs).
Defined.

(** C6, counterexample. Two runs on the same one-hit list: when the draws
    are low the node gets NameExists and NoSpace conflicts and is skipped,
    when they are high it gets none and is planned as CopyDelete. *)
Lemma buildPlan_not_deterministic :
  ~ Spec.planAsSpecified [Spec.bigHit] Spec.zeroDraws Spec.highDraws.
Proof.
  unfold Spec.planAsSpecified. intros H.
  apply (f_equal (fun p => Types.sum_conflicts (Types.summary p))) in H.
  vm_compute in H. discriminate.
Qed.

(* ===================================================================== *)
(** * Properties of the executor *)
(* ===================================================================== *)

Section ExecutorProperties.
Import JsString Effects Types FileExecutor Spec.

Lemma enterLoop_cancelled i completedOps processedBytes operations e :
  isCancelled e = true ->
  enterLoop i completedOps processedBytes operations e
  = mkExecutor (status e) (progress e) (exec_plan e) true LoopExited
      (exec_rng e) (started e).
Proof.
  intros Hc. unfold enterLoop. rewrite Hc.
  by destruct (operations !! i).
Qed.

Lemma step_cancelledAt n e ev :
  cancelledAt n e -> cancelledAt n (step e ev).
Proof.
  intros He. pose proof He as (Hc & Hn & Hfin). unfold step.
  destruct ev; destruct (phase e) eqn:Hph; try exact He.
  - (* executeMovePlan is called on a cancelled executor *)
    destruct (generateFileOperations (exec_plan e) (exec_rng e)) as [ops g'].
    rewrite enterLoop_cancelled by done. by split.
  - (* the timer fires after the signal: break *)
    rewrite Hc. by split.
  - (* the continuation of executeMovePlan *)
    rewrite Hc. by split.
  - (* cancel() itself, in each phase *)
    by split.
  - by split.
  - by split.
  - split; [done|]. split; [done|]. intros _. by apply Hfin.
Qed.

Lemma run_cancelledAt n events : forall e,
  cancelledAt n e -> cancelledAt n (run events e).
Proof.
  induction events as [|ev rest IH]; intros e He; [done|].
  apply IH. by apply step_cancelledAt.
Qed.

Lemma cancel_cancelledAt e :
  phase e <> Finished -> cancelledAt (started e) (step e CallCancel).
Proof. intros Hph. unfold step, cancelledAt. simpl. done. Qed.

Lemma step_phase_cancelled e ev :
  isCancelled e = true ->
  phase (step e ev) = nextPhaseCancelled ev (phase e).
Proof.
  intros Hc. unfold step.
  destruct ev; destruct (phase e) eqn:Hph; simpl; try done;
    rewrite ?Hc; try done.
  destruct (generateFileOperations (exec_plan e) (exec_rng e)) as [ops g'].
  by rewrite enterLoop_cancelled.
Qed.

Lemma cancelled_run_finishes n e :
  cancelledAt n e ->
  phase (run [CallExecute; TimerFires; Continue] e) = Finished.
Proof.
  intros He. unfold run. cbn [fold_left].
  pose proof (step_cancelledAt n e CallExecute He) as H1.
  pose proof (step_cancelledAt n _ TimerFires H1) as H2.
  rewrite step_phase_cancelled by apply H2.
  rewrite step_phase_cancelled by apply H1.
  rewrite step_phase_cancelled by apply He.
  by destruct (phase e).
Qed.

(** C7. For every execution in which cancellation is signalled before
    [executeMovePlan] has finished, whatever happened before and whatever
    happens after the signal: no operation is started after the signal
    (the one in flight, if any, runs to the end of its delay), a finished
    run has status Cancelled, and the run does finish, as Cancelled, once
    the pending timer and continuation have fired. *)
Theorem cancel_stops_scheduling p g before after :
  let e1 := run before (create p g) in
  phase e1 <> Finished ->
  let e2 := run (CallCancel :: after) e1 in
  let e3 := run [CallExecute; TimerFires; Continue] e2 in
  started e2 = started e1
  /\ (phase e2 = Finished -> status e2 = Cancelled)
  /\ phase e3 = Finished /\ status e3 = Cancelled
  /\ started e3 = started e1.
Proof.
  intros e1 Hph e2 e3.
  assert (H2 : cancelledAt (started e1) e2).
  { apply (run_cancelledAt _ after (step e1 CallCancel)).
    by apply cancel_cancelledAt. }
  assert (H3 : cancelledAt (started e1) e3) by by apply run_cancelledAt.
  assert (Hfin : phase e3 = Finished) by by eapply cancelled_run_finishes.
  destruct H2 as (_ & Hs2 & Hf2), H3 as (_ & Hs3 & Hf3).
  repeat split; auto.
Qed.

End ExecutorProperties.

(** C7, witness: cancellation during the second operation of a run. *)
Lemma cancel_stops_scheduling_witness :
  FileExecutor.phase
    (FileExecutor.run [FileExecutor.CallExecute; FileExecutor.TimerFires]
       (FileExecutor.create (PlanGenerator.buildPlan [Spec.renameHit]
                               Spec.highDraws).1 Spec.zeroDraws))
  <> FileExecutor.Finished
  /\ FileExecutor.status
       (FileExecutor.run
          [FileExecutor.CallExecute; FileExecutor.TimerFires;
           FileExecutor.Continue]
          (FileExecutor.run
             [FileExecutor.CallCancel; FileExecutor.TimerFires]
             (FileExecutor.run
                [FileExecutor.CallExecute; FileExecutor.TimerFires]
                (FileExecutor.create
                   (PlanGenerator.buildPlan [Spec.renameHit]
                      Spec.highDraws).1 Spec.zeroDraws))))
     = Types.Cancelled.
Proof.
  assert (Hph : FileExecutor.phase
                  (FileExecutor.run
                     [FileExecutor.CallExecute; FileExecutor.TimerFires]
                     (FileExecutor.create
                        (PlanGenerator.buildPlan [Spec.renameHit]
                           Spec.highDraws).1 Spec.zeroDraws))
                <> FileExecutor.Finished)
    by (vm_compute; discriminate).
  split; [exact Hph|].
  exact (proj1 (proj2 (proj2 (proj2
           (cancel_stops_scheduling
              (PlanGenerator.buildPlan [Spec.renameHit] Spec.highDraws).1
              Spec.zeroDraws
              [FileExecutor.CallExecute; FileExecutor.TimerFires]
              [FileExecutor.TimerFires] Hph))))).
Defined.

(* ===================================================================== *)
(** * Further properties of the services *)
(* ===================================================================== *)

(** ** The random source *)

Section RandomLemmas.
Import JsString Effects Types.

Lemma random_numerator g :
  exists k, (random g).1 = (k # two53)%Q /\ 0 <= k < Z.pos two53.
Proof.
  unfold random. simpl. eexists. split; [reflexivity|].
  pose proof (N.mod_lt (stream g (pos g)) (N.pos two53) ltac:(done)) as H.
  set (x := (stream g (pos g) `mod` N.pos two53)%N) in *.
  clearbody x. unfold two53 in *. lia.
Qed.

Lemma Qfloor_random_scaled g (m : positive) :
  0 <= Qfloor ((random g).1 * (Z.pos m # 1)) < Z.pos m.
Proof.
  destruct (random_numerator g) as (k & -> & Hk).
  unfold Qfloor, Qmult. simpl Qnum. simpl Qden.
  split.
  - apply Z.div_pos; lia.
  - apply Z.div_lt_upper_bound; [lia|]. nia.
Qed.

End RandomLemmas.

(** ** Glob patterns *)

Section GlobProperties.
Import JsString Effects Types FileScanner Spec Invariants.

Lemma atomsTest_star_cons rest d t :
  atomsTest (GAnySeq :: rest) (String d t)
  = atomsTest rest (String d t)
    || (dotMatches d && atomsTest (GAnySeq :: rest) t).
Proof. reflexivity. Qed.

Lemma atomsTest_star_nil rest :
  atomsTest (GAnySeq :: rest) EmptyString = atomsTest rest EmptyString.
Proof. simpl. apply orb_false_r. Qed.

Lemma globRegex_literal pattern :
  hasChar "*" pattern = false -> hasChar "?" pattern = false ->
  forall text, atomsTest (globRegex pattern) text = String.eqb text pattern.
Proof.
  induction pattern as [|c p IH]; intros Hs Hq text.
  - by destruct text.
  - simpl in Hs, Hq. apply orb_false_iff in Hs as [Hs1 Hs2].
    apply orb_false_iff in Hq as [Hq1 Hq2].
    simpl. unfold globAtom. rewrite Hs1, Hq1.
    destruct text as [|d t]; [done|]. simpl.
    rewrite IH by done. by rewrite (Ascii.eqb_sym c d).
Qed.

(** X1. A glob pattern without [*] and [?] matches exactly the text equal
    to it: every other character of a pattern, those special in regular
    expressions included, stands for itself. *)
Theorem matchGlob_literal text pattern :
  hasChar "*" pattern = false -> hasChar "?" pattern = false ->
  matchGlob text pattern = true <-> text = pattern.
Proof.
  intros Hs Hq. unfold matchGlob. rewrite globRegex_literal by done.
  apply String.eqb_eq.
Qed.

Lemma atomsTest_any text :
  atomsTest [GAnySeq] text = noLineTerminators text.
Proof.
  induction text as [|d t IH]; [done|].
  rewrite atomsTest_star_cons, IH. simpl.
  by destruct (dotMatches d).
Qed.

Lemma globRegex_app a b : globRegex (a +:+ b) = globRegex a ++ globRegex b.
Proof. induction a as [|c a IH]; [done|]. simpl. by rewrite IH. Qed.

Lemma atomsTest_literal_then_any lit :
  hasChar "*" lit = false -> hasChar "?" lit = false ->
  forall text, noLineTerminators text = true ->
  atomsTest (globRegex lit ++ [GAnySeq]) text = String.prefix lit text.
Proof.
  induction lit as [|c l IH]; intros Hs Hq text Hnl.
  - simpl. rewrite atomsTest_any, Hnl. by destruct text.
  - simpl in Hs, Hq. apply orb_false_iff in Hs as [Hs1 Hs2].
    apply orb_false_iff in Hq as [Hq1 Hq2].
    simpl globRegex. unfold globAtom. rewrite Hs1, Hq1.
    destruct text as [|d t]; [done|].
    simpl in Hnl. apply andb_true_iff in Hnl as [_ Hnl].
    rewrite prefix_cons. cbn [app atomsTest]. rewrite IH by done.
    destruct (ascii_dec c d) as [->|Hne].
    + by rewrite Ascii.eqb_refl.
    + by apply Ascii.eqb_neq in Hne as ->.
Qed.

(** X2. A literal between two stars is a substring test: on a text
    without line terminators the glob [*lit*] decides what the pattern
    kind Contains decides with the value [lit]. *)
Theorem matchGlob_wrapped_literal text lit :
  hasChar "*" lit = false -> hasChar "?" lit = false ->
  noLineTerminators text = true ->
  matchGlob text ("*" +:+ lit +:+ "*") = includes text lit.
Proof.
  intros Hs Hq. unfold matchGlob.
  change ("*" +:+ lit +:+ "*") with (String "*" (lit +:+ "*")).
  cbn [globRegex]. rewrite globRegex_app.
  change (globAtom "*") with GAnySeq.
  change (globRegex "*") with [GAnySeq].
  induction text as [|d t IH]; intros Hnl.
  - rewrite atomsTest_star_nil, atomsTest_literal_then_any, includes_nil by done.
    done.
  - rewrite atomsTest_star_cons, atomsTest_literal_then_any, includes_cons by done.
    simpl in Hnl. apply andb_true_iff in Hnl as [Hd Hnl].
    by rewrite Hd, IH.
Qed.


End GlobProperties.

(** ** Matching, scanning and previews *)

Section ScannerShape.
Import JsString Effects Types FileScanner Spec Invariants.

Variable regexTest : string -> bool -> string -> option bool.

Lemma findMatchingRule_append rules1 rules2 folderName :
  findMatchingRule regexTest (rules1 ++ rules2) folderName
  = match findMatchingRule regexTest rules1 folderName with
    | Some rule => Some rule
    | None => findMatchingRule regexTest rules2 folderName
    end.
Proof.
  induction rules1 as [|r rest IH]; simpl; [done|].
  destruct (enabled r); simpl; [|done].
  by destruct (matchesPattern regexTest folderName r).
Qed.

(** X4. Matching against a concatenation of rule lists: the rules of the
    first list win, and the second list is consulted only when the first
    has no enabled matching rule. *)
Theorem findMatchingRule_app rules1 rules2 folderName :
  findMatchingRule regexTest (rules1 ++ rules2) folderName
  = match findMatchingRule regexTest rules1 folderName with
    | Some rule => Some rule
    | None => findMatchingRule regexTest rules2 folderName
    end.
Proof. apply findMatchingRule_append. Qed.

(** X5. The matcher returns no rule exactly when every rule is disabled
    or does not match the folder name. *)
Theorem findMatchingRule_None rules folderName :
  findMatchingRule regexTest rules folderName = None <->
  Forall (fun r => enabled r && matchesPattern regexTest folderName r = false)
    rules.
Proof.
  induction rules as [|r rest IH]; simpl; [by split; [constructor|]|].
  rewrite Forall_cons. destruct (enabled r); simpl.
  - destruct (matchesPattern regexTest folderName r); simpl.
    + split; [done | by intros []].
    + rewrite IH. split; [by split | by intros []].
  - rewrite IH. split; [by split | by intros []].
Qed.

Lemma generateRealisticFolders_three root :
  exists f1 f2 f3,
    generateRealisticFolders root = [f1; f2; f3]
    /\ folderUnder root f1 /\ folderUnder root f2 /\ folderUnder root f3.
Proof.
  unfold generateRealisticFolders.
  destruct (includes (toLowerCase root) "documents");
    [|destruct (includes (toLowerCase root) "downloads")];
    do 3 eexists; (split; [reflexivity|]); repeat split.
  all: try (by eexists "Photos\"); try (by eexists "Projects\");
       try (by eexists "Old Files\"); try (by eexists "Software\");
       try (by eexists "Videos\"); try (by eexists "Documents\");
       try (by eexists "temp\"); try (by eexists "media\");
       try (by eexists EmptyString).
Qed.

Variable rules : list Rule.
Variable now : Clock.

Lemma visitedFolders_cons root rest :
  visitedFolders (root :: rest)
  = generateRealisticFolders root ++ visitedFolders rest.
Proof. reflexivity. Qed.

Lemma visitedFolders_length sessionRoots :
  length (visitedFolders sessionRoots) = (3 * length sessionRoots)%nat.
Proof.
  induction sessionRoots as [|root rest IH]; [done|].
  rewrite visitedFolders_cons, length_app, IH.
  destruct (generateRealisticFolders_three root) as (? & ? & ? & -> & _).
  simpl. lia.
Qed.

Lemma visitedFolders_under sessionRoots :
  Forall (fun folder => exists root, root ∈ sessionRoots
                                     /\ folderUnder root folder)
    (visitedFolders sessionRoots).
Proof.
  induction sessionRoots as [|root rest IH]; [constructor|].
  rewrite visitedFolders_cons. apply Forall_app. split.
  - destruct (generateRealisticFolders_three root)
      as (f1 & f2 & f3 & -> & H1 & H2 & H3).
    repeat constructor; exists root; (split; [left | done]).
  - eapply Forall_impl; [exact IH|].
    intros folder (r & Hr & Hu). exists r. split; [by right | done].
Qed.

Lemma startScan_hits_under sessionRoots g :
  let hits := (startScan regexTest rules now sessionRoots g).1.2 in
  length hits = (3 * length sessionRoots)%nat
  /\ Forall (fun hit => exists root, root ∈ sessionRoots /\ hitUnder root hit)
       hits.
Proof.
  destruct (startScan_emits regexTest rules now sessionRoots g) as [_ Hall].
  split.
  - rewrite <- (Forall2_length _ _ _ Hall). apply visitedFolders_length.
  - apply Forall_lookup. intros i hit Hi.
    destruct (Forall2_lookup_r _ _ _ _ _ Hall Hi) as (folder & Hf & g' & ->).
    pose proof (visitedFolders_under sessionRoots) as Hunder.
    rewrite Forall_lookup in Hunder.
    destruct (Hunder i folder Hf) as (root & Hroot & between & Hpath & Hsize).
    destruct (makeHit_fields regexTest rules now folder g')
      as (Hp & Hn & _ & _ & _ & Hs).
    exists root. split; [done|]. exists between, (f_size folder).
    by rewrite Hp, Hn, Hs.
Qed.


Lemma analyzeWarnings_no_AccessDenied path g :
  AccessDenied ∉ (analyzeWarnings path g).1.
Proof.
  rewrite analyzeWarnings_elem.
  intros [[? _]|[[? _]|(? & r2 & ? & ? & _ & _ & _ & Hw)]];
    [done | done | by destruct (Qfloor (r2 * 2) =? 0)].
Qed.

(** X7. The warnings of a path are, in this order, some of LongPath,
    AclDiffers and one of Junction and CrossVolume: at most three, without
    repetition, and never AccessDenied or Offline; AclDiffers is among
    them exactly when the path holds a dollar sign or an at sign, whatever
    the random source delivers. *)
Theorem analyzeWarnings_shape path g :
  let ws := (analyzeWarnings path g).1 in
  (sublist ws [LongPath; AclDiffers; Junction]
   \/ sublist ws [LongPath; AclDiffers; CrossVolume])
  /\ (AccessDenied ∉ ws) /\ (Offline ∉ ws)
  /\ (AclDiffers ∈ ws
      <-> includes path "$" = true \/ includes path "@" = true).
Proof.
  assert (Hsub : let ws := (analyzeWarnings path g).1 in
            sublist ws [LongPath; AclDiffers; Junction]
            \/ sublist ws [LongPath; AclDiffers; CrossVolume]).
  { unfold analyzeWarnings.
    destruct (random g) as [r1 g1].
    destruct (250 <? Z.of_nat (String.length path));
      destruct (includes path "$" || includes path "@");
      destruct (Qltb r1 (3 # 10));
      [destruct (random g1) as [r2 g2]; destruct (Qfloor (r2 * 2) =? 0)|
       |destruct (random g1) as [r2 g2]; destruct (Qfloor (r2 * 2) =? 0)|
       |destruct (random g1) as [r2 g2]; destruct (Qfloor (r2 * 2) =? 0)|
       |destruct (random g1) as [r2 g2]; destruct (Qfloor (r2 * 2) =? 0)|];
      simpl;
      first [ left; by repeat first [apply sublist_skip | apply sublist_cons | apply sublist_nil]
            | right; by repeat first [apply sublist_skip | apply sublist_cons | apply sublist_nil]
            | left; solve [eauto 10 using sublist_skip, sublist_cons, sublist_nil]
            | right; solve [eauto 10 using sublist_skip, sublist_cons, sublist_nil] ]. }
  split; [exact Hsub|].
  split; [|split].
  1, 2: intros Hin; destruct Hsub as [Hs|Hs];
    pose proof (elem_of_sublist _ _ _ Hin Hs) as Hin';
    repeat (apply elem_of_cons in Hin' as [?|Hin']; [done|]);
    by apply elem_of_nil in Hin'.
  cbv zeta. rewrite analyzeWarnings_elem, <- orb_true_iff. split.
  - intros [[? _]|[[_ ?]|(? & r2 & ? & ? & _ & _ & _ & Hw)]];
      [done | done | by destruct (Qfloor (r2 * 2) =? 0)].
  - intros ?. right; left. by split.
Qed.

Lemma replace_absent text t repl :
  hasChar "{" text = false -> replace text (tokenText t) repl = text.
Proof.
  intros Hplain. unfold replace.
  rewrite <- (append_nil_r text) at 1.
  rewrite replaceFrom_skip_plain by done.
  rewrite replaceFrom_nil by (by destruct t). done.
Qed.

(** X8. A template without an opening brace is used as it stands: the
    destination is the rule's dest_root, a backslash and the template,
    the same for every folder and every date. *)
Theorem generateDestinationPath_verbatim folder rule :
  hasChar "{" (template rule) = false ->
  generateDestinationPath folder rule now
  = dest_root rule +:+ "\" +:+ template rule.
Proof.
  intros Hplain. unfold generateDestinationPath. cbv zeta.
  change "{name}" with (tokenText TName).
  change "{year}" with (tokenText TYear).
  change "{month}" with (tokenText TMonth).
  change "{day}" with (tokenText TDay).
  by rewrite !(replace_absent (template rule)) by done.
Qed.

End ScannerShape.

(** ** The rule editor of the setup page *)

Section SetupProperties.
Import JsString Effects Types FileScanner SetupPage Spec Invariants.






End SetupProperties.

(** ** Conflicts, operation kinds and plans *)

Section PlannerShape.
Import JsString Effects Types PlanGenerator Spec Invariants.

(** X9. Whether a move crosses volumes does not depend on its
    direction, and a move from a path to itself crosses none. *)
Theorem isCrossVolume_symmetric a b :
  isCrossVolume a b = isCrossVolume b a /\ isCrossVolume a a = false.
Proof.
  unfold isCrossVolume. split.
  - destruct (driveLetter a) as [x|], (driveLetter b) as [y|];
      try (by rewrite String.eqb_sym).
    by rewrite Ascii.eqb_sym.
  - destruct (driveLetter a).
    + by rewrite Ascii.eqb_refl.
    + by rewrite String.eqb_refl.
Qed.

Lemma nameConflict_justified hit g :
  Forall (conflictJustified hit) (nameConflict hit g).1.
Proof.
  unfold nameConflict.
  destruct (truthyString (dest_preview hit)) as [dest|] eqn:Hd; [|constructor].
  destruct (random g) as [r g']. destruct (Qltb r (3 # 10)); simpl;
    [|constructor].
  repeat constructor. by exists dest.
Qed.

Lemma permissionConflict_justified hit :
  Forall (conflictJustified hit) (permissionConflict hit).
Proof.
  unfold permissionConflict, hasWarning.
  destruct (bool_decide_reflect (AccessDenied ∈ warnings hit)); by repeat constructor.
Qed.

Lemma cycleConflict_justified hit :
  Forall (conflictJustified hit) (cycleConflict hit).
Proof.
  unfold cycleConflict.
  destruct (truthyString (dest_preview hit)) as [dest|] eqn:Hd; [|constructor].
  destruct (includes _ _) eqn:Hinc; [|constructor].
  repeat constructor. by exists dest.
Qed.

Lemma truthyNumber_Some o n : truthyNumber o = Some n -> o = Some n.
Proof.
  destruct o as [m|]; simpl; [|done]. by destruct (m =? 0); intros [= ->].
Qed.

Lemma spaceConflict_justified hit g :
  Forall (conflictJustified hit) (spaceConflict hit g).1.
Proof.
  unfold spaceConflict.
  destruct (truthyNumber (size_bytes hit)) as [size|] eqn:Hs; [|constructor].
  apply truthyNumber_Some in Hs.
  destruct (Z.ltb_spec (1024 * 1024 * 100) size) as [Hbig|]; [|constructor].
  destruct (random g) as [r g1]. destruct (Qltb r (2 # 10)); [|constructor].
  destruct (random_numerator g1) as (k & Hr & Hk).
  destruct (random g1) as [r2 g2]. simpl in Hr. subst r2.
  match goal with |- context [?a <? size] => set (available := a) end.
  assert (Hav : 7 * size - 10 < 10 * available /\ 10 * available < 9 * size).
  { subst available. unfold Qfloor, Qmult, Qplus, inject_Z.
    simpl Qnum. simpl Qden.
    match goal with |- context [?n `div` ?d] =>
      pose proof (Z.mul_div_le n d ltac:(lia));
      pose proof (Z.mul_succ_div_gt n d ltac:(lia));
      set (q := n `div` d) in *
    end.
    unfold two53 in *. split; nia. }
  destruct (Z.ltb_spec available size); simpl; [|constructor].
  repeat constructor; try done; lia.
Qed.

(** X10. The conflicts reported for a hit are at most four, pairwise
    different, never CycleDetected, and each rests on the hit: NameExists
    names the destination followed by [_backup]; Permission asks for
    Administrator and the hit carries AccessDenied; NoSpace gives the
    hit's size, above 100 MiB, as required and less than it as
    available, between 69.9 and 90.1 percent of it; DestInsideSource
    means that the lowered source path contains the lowered
    destination. *)
Theorem analyzeConflicts_shape hit g :
  let cs := (analyzeConflicts hit g).1 in
  (length cs <= 4)%nat /\ NoDup cs /\ Forall (conflictJustified hit) cs.
Proof.
  unfold analyzeConflicts.
  pose proof (nameConflict_justified hit g) as H1.
  destruct (nameConflict hit g) as [c1 g1] eqn:E1.
  pose proof (spaceConflict_justified hit g1) as H3.
  destruct (spaceConflict hit g1) as [c3 g3] eqn:E3.
  pose proof (permissionConflict_justified hit) as H2.
  pose proof (cycleConflict_justified hit) as H4.
  simpl in *.
  assert (L1 : c1 = [] \/ exists p, c1 = [NameExists p]).
  { unfold nameConflict in E1.
    destruct (truthyString (dest_preview hit)); [|injection E1 as <- _; by left].
    destruct (random g) as [r g']. destruct (Qltb r (3 # 10));
      injection E1 as <- _; [right; eauto | by left]. }
  assert (L2 : permissionConflict hit = []
               \/ permissionConflict hit = [PermissionConflict Administrator]).
  { unfold permissionConflict. destruct (hasWarning _ _); auto. }
  assert (L3 : c3 = [] \/ exists r a, c3 = [NoSpace r a]).
  { unfold spaceConflict in E3.
    destruct (truthyNumber (size_bytes hit)); [|injection E3 as <- _; by left].
    destruct (_ <? _); [|injection E3 as <- _; by left].
    destruct (random g1) as [r g']. destruct (Qltb r (2 # 10));
      [|injection E3 as <- _; by left].
    destruct (random g') as [r2 g2]. destruct (_ <? _);
      injection E3 as <- _; [right; eauto | by left]. }
  assert (L4 : cycleConflict hit = [] \/ cycleConflict hit = [DestInsideSource]).
  { unfold cycleConflict. destruct (truthyString _); [|auto].
    destruct (includes _ _); auto. }
  split; [|split].
  - destruct L1 as [->|[? ->]], L2 as [->| ->], L3 as [->|(? & ? & ->)],
      L4 as [->| ->]; simpl; lia.
  - destruct L1 as [->|[? ->]], L2 as [->| ->], L3 as [->|(? & ? & ->)],
      L4 as [->| ->]; simpl;
      repeat (apply NoDup_cons; split;
              [rewrite ?elem_of_cons, elem_of_nil; intros H; decompose [or] H; done|]);
      apply NoDup_nil_2.
  - repeat (apply Forall_app; split); done.
Qed.

(** X11. A hit whose warnings include AccessDenied gets a Permission
    conflict asking for Administrator, and its operation is Skip whatever
    its destination. *)
Theorem AccessDenied_forces_Skip hit g :
  AccessDenied ∈ warnings hit ->
  PermissionConflict Administrator ∈ (analyzeConflicts hit g).1
  /\ (determineOperationKind hit g).1 = Skip.
Proof.
  intros Hacc.
  assert (Hin : PermissionConflict Administrator ∈ (analyzeConflicts hit g).1).
  { apply analyzeConflicts_elem. right; left. unfold permissionConflict, hasWarning.
    rewrite bool_decide_eq_true_2 by done. by left. }
  split; [done|]. unfold determineOperationKind.
  destruct (truthyString (dest_preview hit)); [|done].
  destruct (analyzeConflicts hit g) as [cs g']. simpl in *.
  destruct cs; [by apply elem_of_nil in Hin | done].
Qed.

Lemma determineOperationKind_cases hit g :
  (determineOperationKind hit g).1 = Skip
  \/ exists dest,
       truthyString (dest_preview hit) = Some dest
       /\ (analyzeConflicts hit g).1 = []
       /\ (determineOperationKind hit g).1
          = if isCrossVolume (path hit) dest then CopyDelete
            else if String.eqb (toLowerCase (parentOf (path hit)))
                               (toLowerCase (parentOf dest))
                 then Rename else Move.
Proof.
  unfold determineOperationKind.
  destruct (truthyString (dest_preview hit)) as [dest|]; [|by left].
  destruct (analyzeConflicts hit g) as [cs g']. simpl.
  destruct cs; simpl; [|by left].
  destruct (hasWarning AccessDenied hit); [by left|].
  right. exists dest. repeat split.
  destruct (isCrossVolume (path hit) dest); [done|].
  by destruct (String.eqb _ _).
Qed.

Lemma nodeMadeFrom_executable hit rid node :
  nodeMadeFrom hit rid node ->
  node_kind node = Skip \/ executableNode node.
Proof.
  intros (g1 & g2 & ->). simpl.
  destruct (determineOperationKind_cases hit g2)
    as [Hskip|(dest & Hd & Hnone & Hk)]; [by left|].
  right. destruct (no_conflicts_parts hit g2 Hnone) as [Hperm Hcycle].
  unfold executableNode, pathAfter. simpl. rewrite Hd. simpl.
  assert (Hacc : AccessDenied ∉ warnings hit).
  { intros Hin. unfold permissionConflict, hasWarning in Hperm.
    by rewrite bool_decide_eq_true_2 in Hperm. }
  repeat split.
  - rewrite Hk. destruct (isCrossVolume _ _); [done|]. by destruct (String.eqb _ _).
  - done.
  - intros Hin.
    apply analyzeConflicts_elem in Hin as [H|[H|[H|H]]].
    + by apply nameConflict_elem in H as [? ?].
    + rewrite Hperm in H. by apply elem_of_nil in H.
    + by apply spaceConflict_elem in H as (? & ? & ?).
    + rewrite Hcycle in H. by apply elem_of_nil in H.
  - intros (dest' & Hd' & Hinc)%DestInsideSource_elem.
    unfold cycleConflict in Hcycle. rewrite Hd' in Hcycle.
    by rewrite Hinc in Hcycle.
  - unfold cycleConflict in Hcycle. rewrite Hd in Hcycle.
    by destruct (includes _ _).
  - rewrite Hk. destruct (isCrossVolume _ _); [done|].
    by destruct (String.eqb _ _).
  - rewrite Hk. by intros ->.
Qed.

Lemma planIteration_made i hit st :
  exists node est,
    nodeMadeFrom hit (nodeId i) node
    /\ 10 <= est <= 59
    /\ rootIds (planIteration i hit st) = rootIds st ++ [nodeId i]
    /\ nodesObj (planIteration i hit st) = <[nodeId i := node]> (nodesObj st)
    /\ countFiles (planIteration i hit st) = countFiles st + est
    /\ crossVolume (planIteration i hit st)
       = crossVolume st + crossingCount hit.
Proof.
  unfold planIteration, crossingCount.
  destruct (analyzeConflicts hit (rng st)) as [cs g1] eqn:E1.
  pose proof (Qfloor_random_scaled g1 50) as Hest.
  destruct (random g1) as [r g2].
  destruct (determineOperationKind hit g2) as [k g3] eqn:E2.
  eexists _, (Qfloor (r * 50) + 10). simpl. repeat split.
  - exists (rng st), g2. rewrite E1, E2. reflexivity.
  - simpl in Hest. lia.
  - simpl in Hest. lia.
  - destruct (truthyString (dest_preview hit)) as [dest|]; [|lia].
    destruct (isCrossVolume (path hit) dest); lia.
Qed.

Lemma nodesMade_step done hit st :
  planInv done st -> nodesMade done st ->
  nodesMade (done ++ [hit]) (planIteration (length done) hit st).
Proof.
  intros Hinv Hmade. pose proof (planInv_fresh _ _ Hinv) as Hfresh.
  destruct (planIteration_made (length done) hit st)
    as (node & est & Hnode & _ & Hroots & Hnodes & _).
  unfold nodesMade. rewrite Hroots, Hnodes. apply Forall2_app.
  - eapply Forall2_impl; [exact Hmade|].
    intros h rid (n & Hlook & Hn). exists n. split; [|done].
    rewrite lookup_insert_ne; [done|]. intros <-. congruence.
  - repeat constructor. exists node. split; [apply lookup_insert_eq | done].
Qed.

Lemma planLoop_made hits : forall done st,
  planInv done st -> nodesMade done st ->
  nodesMade (done ++ hits) (planLoop (length done) hits st).
Proof.
  induction hits as [|hit rest IH]; intros done st Hinv Hmade; simpl.
  - by rewrite app_nil_r.
  - pose proof (planInv_step _ hit _ Hinv) as Hinv'.
    pose proof (nodesMade_step _ hit _ Hinv Hmade) as Hmade'.
    specialize (IH _ _ Hinv' Hmade').
    rewrite length_app, Nat.add_1_r in IH. by rewrite <- app_assoc in IH.
Qed.

Lemma buildPlan_nodes_made hits g :
  let p := (buildPlan hits g).1 in
  Forall2 (fun hit rid =>
             exists node, nodes p !! rid = Some node
                          /\ nodeMadeFrom hit rid node)
    hits (roots p)
  /\ dom (nodes p) = list_to_set (C := gset string) (roots p).
Proof.
  unfold buildPlan. destruct (random g) as [r g0]. simpl.
  pose proof (planLoop_inv hits [] (initLocals g0) (planInv_init g0)) as Hinv.
  pose proof (planLoop_made hits [] (initLocals g0) (planInv_init g0)
                ltac:(constructor)) as Hmade.
  simpl in *. split; [exact Hmade|]. by destruct Hinv as (_ & Hdom & _).
Qed.

Lemma buildPlan_nodes_from_hits (Q : PlanNode -> Prop) hits g :
  (forall hit rid node,
     hit ∈ hits -> nodeMadeFrom hit rid node -> Q node) ->
  map_Forall (fun _ node => Q node) (nodes (buildPlan hits g).1).
Proof.
  intros HQ. destruct (buildPlan_nodes_made hits g) as [Hmade Hdom].
  intros rid node Hlook.
  assert (Hin : rid ∈ roots (buildPlan hits g).1).
  { apply (elem_of_list_to_set (C := gset string)). rewrite <- Hdom.
    apply elem_of_dom. eauto. }
  apply list_elem_of_lookup in Hin as [i Hi].
  destruct (Forall2_lookup_r _ _ _ _ _ Hmade Hi) as (hit & Hhit & n & Hn & Hfrom).
  rewrite Hlook in Hn. injection Hn as <-.
  eapply HQ; [|exact Hfrom]. apply list_elem_of_lookup. eauto.
Qed.

(** X12. Every node of a generated plan is either skipped or cleared by
    the planner: its kind is not None, it carries no AccessDenied warning
    and neither a Permission nor a DestInsideSource conflict, its lowered
    source path does not contain its lowered destination, and it is a
    CopyDelete exactly when source and destination are on different
    volumes. *)
Theorem buildPlan_nodes_executable hits g :
  map_Forall (fun _ node => node_kind node = Skip \/ executableNode node)
    (nodes (buildPlan hits g).1).
Proof.
  apply buildPlan_nodes_from_hits. intros hit rid node _.
  apply nodeMadeFrom_executable.
Qed.

Lemma planLoop_counts hits : forall i st,
  let st' := planLoop i hits st in
  crossVolume st' = crossVolume st + sumOver crossingCount hits
  /\ countFiles st + 10 * Z.of_nat (length hits) <= countFiles st'
  /\ countFiles st' <= countFiles st + 59 * Z.of_nat (length hits).
Proof.
  induction hits as [|hit rest IH]; intros i st; simpl; [lia|].
  destruct (planIteration_made i hit st)
    as (node & est & _ & Hest & _ & _ & Hfiles & Hcross).
  destruct (IH (S i) (planIteration i hit st)) as (Hc & Hlo & Hhi).
  rewrite Hc, Hcross. split; [lia|]. lia.
Qed.

(** X13. In the summary of a generated plan [cross_volume] counts the
    hits that have a destination on another volume, whether or not their
    node is skipped, and [count_files] lies between 10 and 59 times the
    number of hits. *)
Theorem buildPlan_summary_counts hits g :
  let s := summary (buildPlan hits g).1 in
  cross_volume s = sumOver crossingCount hits
  /\ 10 * Z.of_nat (length hits) <= count_files s
     <= 59 * Z.of_nat (length hits).
Proof.
  unfold buildPlan. destruct (random g) as [r g0]. simpl.
  destruct (planLoop_counts hits 0%nat (initLocals g0)) as (Hc & Hlo & Hhi).
  simpl in *. lia.
Qed.

End PlannerShape.

(** ** From scan results to a plan *)

Section ScanThenPlan.
Import JsString Effects Types FileScanner PlanGenerator Spec Invariants.
Variable regexTest : string -> bool -> string -> option bool.
Variable rules : list Rule.
Variable now : Clock.

Lemma startScan_hit_fields sessionRoots g hit :
  hit ∈ (startScan regexTest rules now sessionRoots g).1.2 ->
  (AccessDenied ∉ warnings hit)
  /\ (matched_rule hit = None -> dest_preview hit = None).
Proof.
  intros Hin. apply list_elem_of_lookup in Hin as [i Hi].
  destruct (startScan_emits regexTest rules now sessionRoots g) as [_ Hall].
  destruct (Forall2_lookup_r _ _ _ _ _ Hall Hi) as (folder & _ & g' & ->).
  destruct (makeHit_fields regexTest rules now folder g')
    as (_ & _ & Hm & Hd & Hw & _).
  rewrite Hm, Hd, Hw. split; [apply analyzeWarnings_no_AccessDenied|].
  by destruct (findMatchingRule regexTest rules (f_name folder)).
Qed.

Lemma buildPlan_count_dirs hits g :
  count_dirs (summary (buildPlan hits g).1) = Z.of_nat (length hits).
Proof.
  unfold buildPlan. destruct (random g) as [r g0]. simpl.
  pose proof (planLoop_inv hits [] (initLocals g0) (planInv_init g0)) as Hinv.
  simpl in Hinv. by destruct Hinv as (_ & _ & _ & Hdirs & _).
Qed.

(** X14. Planning the results of a scan: the plan has three directories
    for every scanned root; every node lies below one of the roots; no
    node has a Permission conflict, since the scanner never reports
    AccessDenied; and a folder that no rule matched is planned as Skip
    with its path unchanged. *)
Theorem plan_of_scan_results sessionRoots g g' :
  let hits := (startScan regexTest rules now sessionRoots g).1.2 in
  let p := (buildPlan hits g').1 in
  count_dirs (summary p) = 3 * Z.of_nat (length sessionRoots)
  /\ map_Forall
       (fun _ node =>
          (exists root, root ∈ sessionRoots /\ nodeUnder root node)
          /\ (PermissionConflict Administrator ∉ conflicts node)
          /\ (rule_id node = None ->
              node_kind node = Skip /\ path_after node = path_before node))
       (nodes p).
Proof.
  intros hits p. subst p. split.
  - rewrite buildPlan_count_dirs. subst hits.
    destruct (startScan_hits_under regexTest rules now sessionRoots g)
      as [-> _]. lia.
  - apply buildPlan_nodes_from_hits. intros hit rid node Hin (g1 & g2 & ->).
    cbn [path_before name_before conflicts rule_id node_kind path_after].
    destruct (startScan_hit_fields sessionRoots g hit Hin) as [Hacc Hnone].
    split; [|split].
    + destruct (startScan_hits_under regexTest rules now sessionRoots g)
        as [_ Hunder].
      rewrite Forall_lookup in Hunder.
      apply list_elem_of_lookup in Hin as [i Hi].
      destruct (Hunder i hit Hi) as (root & Hroot & between & size & Hp & _).
      exists root. split; [done|]. by exists between.
    + intros Hperm. apply analyzeConflicts_elem in Hperm as [H|[H|[H|H]]].
      * by apply nameConflict_elem in H as [? ?].
      * unfold permissionConflict, hasWarning in H.
        rewrite bool_decide_eq_false_2 in H by done.
        by apply elem_of_nil in H.
      * by apply spaceConflict_elem in H as (? & ? & ?).
      * unfold cycleConflict in H.
        destruct (truthyString _); [|by apply elem_of_nil in H].
        destruct (includes _ _); [|by apply elem_of_nil in H].
        by apply list_elem_of_singleton in H.
    + intros Hrule. specialize (Hnone Hrule).
      unfold determineOperationKind, pathAfter. by rewrite Hnone.
Qed.


End ScanThenPlan.

(** ** Runs of the executor *)

Section ExecutorRuns.
Import JsString Effects Types FileExecutor Spec Invariants.

Lemma nodeOperations_spec node fileCount totalSize : forall todo i g,
  let ops := (nodeOperations node fileCount totalSize i todo g).1 in
  length ops = todo
  /\ Forall (fun op => exists fileName,
               op_path op = path_before node +:+ "\" +:+ fileName) ops.
Proof.
  induction todo as [|todo IH]; intros i g; cbn [nodeOperations];
    [by split|].
  destruct (generateFileName i (name_before node) g) as [fileName g1].
  destruct (random g1) as [r g2].
  specialize (IH (S i) g2).
  destruct (nodeOperations node fileCount totalSize (S i) todo g2) as [rest g3].
  cbn [fst snd length] in *. destruct IH as [Hlen Hall].
  split; [by f_equal|].
  constructor; [by exists fileName | done].
Qed.

Lemma rootOperations_spec nodesOf : forall rootIds g,
  let ops := (rootOperations nodesOf rootIds g).1 in
  let known := omap (fun rootId => nodesOf !! rootId) rootIds in
  (5 * length known <= length ops <= 34 * length known)%nat
  /\ Forall (fun op => exists node fileName,
               node ∈ known
               /\ op_path op = path_before node +:+ "\" +:+ fileName) ops.
Proof.
  induction rootIds as [|rootId rest IH]; intros g;
    cbn [rootOperations omap list_omap].
  - split; [simpl; lia | constructor].
  - destruct (nodesOf !! rootId) as [node|] eqn:Hnode; [|apply IH].
    pose proof (Qfloor_random_scaled g 30) as Hcount.
    destruct (random g) as [r g1]. cbn [fst] in Hcount.
    set (fileCount := Qfloor (r * 30) + 5) in *.
    set (totalSize := match truthyNumber (node_size_bytes node) with
                      | Some n => n | None => 1024 * 1024 * 50 end).
    pose proof (nodeOperations_spec node fileCount totalSize
                  (Z.to_nat fileCount) 0 g1) as Hops.
    destruct (nodeOperations node fileCount totalSize 0 (Z.to_nat fileCount) g1)
      as [ops g2].
    specialize (IH g2).
    destruct (rootOperations nodesOf rest g2) as [more g3].
    cbn [fst snd] in *. destruct Hops as [Hlen Hpaths], IH as [Hbounds Hmore].
    split.
    + rewrite length_app, Hlen. cbn [length]. subst fileCount.
      change (Z.pos 30 # 1)%Q with 30%Q in Hcount. lia.
    + apply Forall_app. split.
      * eapply Forall_impl; [exact Hpaths|]. intros op [fileName Hop].
        exists node, fileName. split; [by left | done].
      * eapply Forall_impl; [exact Hmore|].
        intros op (n & fileName & Hn & Hop).
        exists n, fileName. split; [by right | done].
Qed.


Lemma enterLoop_frame i c b ops e :
  let e' := enterLoop i c b ops e in
  status e' = status e /\ exec_plan e' = exec_plan e
  /\ isCancelled e' = isCancelled e
  /\ (forall T B, totalsOf e T B -> totalsOf e' T B).
Proof.
  unfold enterLoop. destruct (ops !! i) as [op|]; [|done].
  destruct (isCancelled e); [done|].
  destruct (calculateOperationTime (op_size op) (exec_rng e)) as [t g'].
  repeat split; try done.
  intros T B (pr & Hpr & HT & HB). unfold totalsOf. simpl. rewrite Hpr.
  simpl. eauto.
Qed.

Lemma timers_finish_loop ops : forall k i c b e,
  isCancelled e = false -> (i + k = length ops)%nat ->
  let e' := run (repeat TimerFires k) (enterLoop i c b ops e) in
  phase e' = LoopExited /\ started e' = (started e + k)%nat
  /\ status e' = status e /\ exec_plan e' = exec_plan e
  /\ isCancelled e' = false
  /\ (forall T B, totalsOf e T B -> totalsOf e' T B).
Proof.
  induction k as [|k IH]; intros i c b e Hc Hlen.
  - simpl. unfold enterLoop.
    rewrite (lookup_ge_None_2 ops i) by lia. simpl.
    repeat split; try done; lia.
  - destruct (lookup_lt_is_Some_2 ops i ltac:(lia)) as [op Hop].
    cbn [repeat run fold_left].
    assert (Hstep : exists e1,
              step (enterLoop i c b ops e) TimerFires
              = enterLoop (S i) (c + 1) (b + op_size op) ops e1
              /\ isCancelled e1 = false /\ started e1 = S (started e)
              /\ status e1 = status e /\ exec_plan e1 = exec_plan e
              /\ (forall T B, totalsOf e T B -> totalsOf e1 T B)).
    { unfold enterLoop at 1. rewrite Hop, Hc.
      destruct (calculateOperationTime (op_size op) (exec_rng e)) as [t g'].
      unfold step. cbn [phase isCancelled]. rewrite ?Hc, Hop.
      destruct (random g') as [r g''].
      eexists. split; [reflexivity|]. repeat split; try done.
      intros T B (pr & Hpr & HT & HB). unfold totalsOf. simpl. rewrite Hpr.
      simpl. eauto. }
    destruct Hstep as (e1 & -> & Hc1 & Hs1 & Hst1 & Hp1 & Ht1).
    destruct (IH (S i) (c + 1) (b + op_size op) e1 Hc1 ltac:(lia))
      as (Hph & Hst & Hstat & Hplan & Hcan & Htot).
    change (fold_left step (repeat TimerFires k) ?x)
      with (run (repeat TimerFires k) x).
    repeat split; try done; try congruence.
    + rewrite Hst, Hs1. lia.
    + intros T B HT. by apply Htot, Ht1.
Qed.

Lemma run_app l1 l2 (e : Executor) : run (l1 ++ l2) e = run l2 (run l1 e).
Proof. apply fold_left_app. Qed.

Lemma step_CallExecute_create p g :
  step (create p g) CallExecute
  = enterLoop 0 0 0 (generateFileOperations p g).1
      (mkExecutor Running
         (Some (mkProgress None 0 (calculateTotalOperations p) 0
                  (total_bytes (summary p))))
         p false NotStarted (generateFileOperations p g).2 0).
Proof.
  unfold step, create. cbn [phase exec_plan exec_rng isCancelled started].
  by destruct (generateFileOperations p g).
Qed.

Lemma run_completes p g :
  let ops := (generateFileOperations p g).1 in
  let e := run ([CallExecute] ++ repeat TimerFires (length ops) ++ [Continue])
             (create p g) in
  phase e = Finished /\ status e = Completed
  /\ started e = length ops
  /\ progress e
     = Some (mkProgress None (calculateTotalOperations p)
               (calculateTotalOperations p) (total_bytes (summary p))
               (total_bytes (summary p))).
Proof.
  intros ops e. subst e. rewrite !run_app.
  change (run [CallExecute] (create p g))
    with (step (create p g) CallExecute).
  rewrite step_CallExecute_create. fold ops.
  match goal with |- context [enterLoop 0 0 0 ops ?e0] => set (e0' := e0) end.
  destruct (timers_finish_loop ops (length ops) 0 0 0 e0' eq_refl eq_refl)
    as (Hph & Hst & Hstat & Hplan & Hcan & Htot).
  destruct (Htot (calculateTotalOperations p) (total_bytes (summary p)))
    as (pr & Hpr & HT & HB).
  { eexists. split; [reflexivity|]. done. }
  set (e1 := run (repeat TimerFires (length ops)) (enterLoop 0 0 0 ops e0')) in *.
  change (run [Continue] e1) with (step e1 Continue).
  unfold step. rewrite Hph, Hcan. cbn. rewrite Hpr. cbn.
  rewrite HT, HB, Hst. done.
Qed.

(** X16. A run that is not cancelled ends: once the timer of each
    generated operation has fired and the continuation has run, the
    session is Completed, every operation was entered, and the progress
    shows the estimated totals as done, with no current item. *)
Theorem uncancelled_run_completes p g :
  let ops := (generateFileOperations p g).1 in
  let e := run ([CallExecute] ++ repeat TimerFires (length ops) ++ [Continue])
             (create p g) in
  phase e = Finished /\ status e = Completed
  /\ started e = length ops
  /\ progress e = Some (fullProgress p).
Proof. apply run_completes. Qed.

Lemma sizeOf_snoc ops op : sizeOf (ops ++ [op]) = sizeOf ops + op_size op.
Proof.
  unfold sizeOf. induction ops as [|o ops IH]; cbn [app foldr]; [lia|].
  rewrite IH. lia.
Qed.

Lemma execInv_create p g : execInv p g (create p g).
Proof. by repeat split. Qed.

Lemma execInv_enterLoop p g i bytes e :
  let ops := (generateFileOperations p g).1 in
  exec_plan e = p -> status e = Running -> started e = i ->
  (i <= length ops)%nat -> bytes = sizeOf (firstn i ops) ->
  (exists item,
     progress e = Some (mkProgress item (Z.of_nat i)
                          (calculateTotalOperations p) bytes
                          (total_bytes (summary p)))) ->
  execInv p g (enterLoop i (Z.of_nat i) bytes ops e).
Proof.
  intros ops Hplan Hstat Hstarted Hi Hbytes [item Hpr]. unfold enterLoop.
  destruct (ops !! i) as [op|] eqn:Hop.
  - destruct (isCancelled e) eqn:Hc.
    + split; [done|]. cbn [phase status progress started isCancelled].
      split; [done|]. eexists _, i. split; [exact Hpr|].
      unfold partialProgress. cbn. fold ops. repeat split; try done; lia.
    + destruct (calculateOperationTime (op_size op) (exec_rng e)) as [t g'].
      split; [done|]. cbn [phase status progress started isCancelled].
      fold ops. repeat split; try done; [by f_equal|].
      exists op. split; [done|]. by rewrite Hpr.
  - apply lookup_ge_None_1 in Hop.
    split; [done|]. cbn [phase status progress started isCancelled].
    split; [done|]. eexists _, i. split; [exact Hpr|].
    unfold partialProgress. cbn. fold ops. repeat split; try done; lia.
Qed.

Lemma execInv_step p g e ev : execInv p g e -> execInv p g (step e ev).
Proof.
  intros [Hplan Hinv]. destruct ev; unfold step.
  - (* CallExecute *)
    destruct (phase e) eqn:Hph; try (by split; [|rewrite Hph]).
    destruct Hinv as (Hstat & Hpr & Hst & Hg). rewrite Hplan, Hg.
    pose proof (execInv_enterLoop p g 0 0
                  (mkExecutor Running
                     (Some (mkProgress None 0 (calculateTotalOperations p) 0
                              (total_bytes (summary p))))
                     p (isCancelled e) NotStarted
                     (generateFileOperations p g).2 (started e))) as H.
    cbn [exec_plan status started progress] in H.
    destruct (generateFileOperations p g) as [ops g'].
    cbn [fst snd] in H. apply H; try done; [lia|]. by eexists.
  - (* TimerFires *)
    destruct (phase e) eqn:Hph; try (by split; [|rewrite Hph]).
    destruct Hinv as (-> & Hstat & Hst & -> & -> & op & Hop & Hpr).
    set (ops := (generateFileOperations p g).1) in *.
    pose proof (lookup_lt_Some _ _ _ Hop) as Hlt.
    destruct (isCancelled e) eqn:Hc.
    + split; [done|]. cbn [phase status progress started isCancelled].
      split; [done|]. eexists _, i. split; [exact Hpr|].
      unfold partialProgress. cbn. fold ops. repeat split; try done; lia.
    + rewrite Hop. destruct (random (exec_rng e)) as [r g'].
      replace (Z.of_nat i + 1) with (Z.of_nat (S i)) by lia.
      apply execInv_enterLoop; cbn [exec_plan status started progress];
        try done; try (fold ops; lia).
      * fold ops. by rewrite (take_S_r _ _ _ Hop), sizeOf_snoc.
      * rewrite Hpr. cbn. by eexists.
  - (* Continue *)
    destruct (phase e) eqn:Hph; try (by split; [|rewrite Hph]).
    destruct Hinv as (Hstat & pr & n & Hpr & Hpart & HT & HB & Hn & Hlen & Hall).
    destruct (isCancelled e) eqn:Hc.
    + split; [done|]. cbn [phase status progress started isCancelled].
      right. repeat split; try done. by exists pr, n.
    + split; [done|]. cbn [phase status progress started isCancelled].
      left. destruct (Hall eq_refl) as [-> ->]. repeat split; try done.
      rewrite Hpr. cbn. unfold fullProgress. by rewrite HT, HB.
  - (* CallCancel *)
    split; [done|]. cbn [phase status progress started isCancelled exec_rng].
    destruct (phase e) eqn:Hph; try done.
    + destruct Hinv as (Hstat & pr & n & Hpr & Hpart & HT & HB & Hn & Hlen & _).
      split; [done|]. by exists pr, n.
    + destruct Hinv as [Hdone | (Hstat & _ & Hrest)]; [by left|].
      right. by repeat split.
Qed.

Lemma execInv_run p g : forall es e, execInv p g e -> execInv p g (run es e).
Proof.
  induction es as [|ev es IH]; intros e He; [done|].
  apply IH, execInv_step, He.
Qed.

Lemma run_reachable es p g : execInv p g (run es (create p g)).
Proof. apply execInv_run, execInv_create. Qed.

(** X17. On an executor that is called once, whatever the interleaving
    of the call with timers and cancellations, a session whose status is
    Completed belongs to a finished run that entered every generated
    operation, and its progress shows the estimated totals as done. *)
Theorem Completed_ran_every_operation es p g :
  let e := run es (create p g) in
  singleCall es ->
  status e = Completed ->
  phase e = Finished
  /\ started e = length (generateFileOperations p g).1
  /\ progress e = Some (fullProgress p).
Proof.
  intros e _ Hstat. destruct (run_reachable es p g) as [_ Hinv]. fold e in Hinv.
  destruct (phase e).
  - destruct Hinv as (H & _). congruence.
  - destruct Hinv as (_ & H & _). congruence.
  - destruct Hinv as (H & _). congruence.
  - destruct Hinv as [(_ & Hs & Hp)|(H & _)]; [done | congruence].
Qed.

(** X18. On an executor that is called once, whatever the interleaving,
    a session whose status is Cancelled belongs to a finished run on
    which [cancel] was called; its progress counts the operations whose
    delay had elapsed, with their bytes (for operation sizes within
    [safeSum]), and at most one further operation was entered. *)
Theorem Cancelled_reports_elapsed_operations es p g :
  let e := run es (create p g) in
  let ops := (generateFileOperations p g).1 in
  singleCall es ->
  safeSum op_size ops ->
  status e = Cancelled ->
  phase e = Finished /\ isCancelled e = true
  /\ exists pr n,
       progress e = Some pr /\ partialProgress ops n pr
       /\ (n <= started e <= S n)%nat /\ (n <= length ops)%nat.
Proof.
  intros e ops _ _ Hstat. destruct (run_reachable es p g) as [_ Hinv].
  fold e in Hinv. destruct (phase e).
  - destruct Hinv as (H & _). congruence.
  - destruct Hinv as (_ & H & _). congruence.
  - destruct Hinv as (H & _). congruence.
  - destruct Hinv as [(H & _)|(_ & Hc & Hpr)]; [congruence | done].
Qed.

(** X19. On an executor that is called once: while the run waits for
    the delay of operation [i], the session is Running, its current item
    is the path of that operation, and the progress counts the [i]
    operations before it and their bytes (for operation sizes within
    [safeSum]). *)
Theorem in_flight_progress es p g i completedOps processedBytes operations :
  let e := run es (create p g) in
  singleCall es ->
  safeSum op_size (generateFileOperations p g).1 ->
  phase e = InFlight i completedOps processedBytes operations ->
  operations = (generateFileOperations p g).1
  /\ status e = Running /\ started e = S i
  /\ exists op,
       operations !! i = Some op
       /\ progress e
          = Some (mkProgress (Some (op_path op)) (Z.of_nat i)
                    (calculateTotalOperations p)
                    (sizeOf (firstn i operations))
                    (total_bytes (summary p))).
Proof.
  intros e _ _ Hph. destruct (run_reachable es p g) as [_ Hinv].
  fold e in Hinv. rewrite Hph in Hinv.
  destruct Hinv as (-> & Hstat & Hst & -> & -> & op & Hop & Hpr).
  repeat split; try done. by exists op.
Qed.

Lemma step_Finished e ev :
  phase e = Finished ->
  phase (step e ev) = Finished /\ status (step e ev) = status e
  /\ progress (step e ev) = progress e /\ started (step e ev) = started e.
Proof. intros Hph. destruct ev; unfold step; rewrite Hph; by cbn. Qed.

(** X20. Once [executeMovePlan] has returned, calls of [cancel] on the
    executor change nothing in its session: status, progress and the
    operations entered stay as they are, so that a late [cancel] does
    not turn a Completed session into a Cancelled one. *)
Theorem finished_is_final e : forall events,
  phase e = Finished ->
  calls events = 0%nat ->
  phase (run events e) = Finished /\ status (run events e) = status e
  /\ progress (run events e) = progress e
  /\ started (run events e) = started e.
Proof.
  intros events. revert e.
  induction events as [|ev events IH]; intros e Hph Hcalls; [done|].
  assert (Hrest : calls events = 0%nat) by (by destruct ev).
  destruct (step_Finished e ev Hph) as (Hph' & Hs & Hp & Hst).
  destruct (IH _ Hph' Hrest) as (? & ? & ? & ?).
  cbn [run fold_left]. unfold run in *. repeat split; congruence.
Qed.

Lemma sumOperations_skipped nodesOf : forall rootIds acc,
  Forall (fun node => node_kind node = Skip \/ node_kind node = OpNone)
    (omap (fun rootId => nodesOf !! rootId) rootIds) ->
  sumOperations nodesOf rootIds acc = acc.
Proof.
  induction rootIds as [|rootId rest IH]; intros acc Hall; [done|].
  cbn [sumOperations omap list_omap] in *.
  destruct (nodesOf !! rootId) as [node|]; [|by apply IH].
  apply Forall_cons in Hall as [[Hk|Hk] Hrest]; rewrite Hk; by apply IH.
Qed.

Lemma executor_run_snoc events ev e :
  FileExecutor.run (events ++ [ev]) e
  = FileExecutor.step (FileExecutor.run events e) ev.
Proof. unfold FileExecutor.run. by rewrite fold_left_app. Qed.

Lemma timers_reach ops : forall k i c b e,
  FileExecutor.isCancelled e = false -> (i + k <= length ops)%nat ->
  let e' :=
    FileExecutor.run (repeat FileExecutor.TimerFires k)
      (FileExecutor.enterLoop i c b ops e) in
  FileExecutor.isCancelled e' = false
  /\ if decide (i + k < length ops)%nat
     then exists c' b', FileExecutor.phase e'
                         = FileExecutor.InFlight (i + k) c' b' ops
     else FileExecutor.phase e' = FileExecutor.LoopExited.
Proof.
  induction k as [|k IH]; intros i c b e Hc Hlen.
  - cbn [repeat FileExecutor.run fold_left]. rewrite Nat.add_0_r.
    unfold FileExecutor.enterLoop. case_decide as Hi.
    + destruct (lookup_lt_is_Some_2 ops i Hi) as [op ->]. rewrite Hc.
      destruct (FileExecutor.calculateOperationTime _ _). cbn. eauto.
    + by rewrite (lookup_ge_None_2 ops i) by lia.
  - destruct (lookup_lt_is_Some_2 ops i ltac:(lia)) as [op Hop].
    cbn [repeat FileExecutor.run fold_left].
    assert (Hstep : exists e1,
              FileExecutor.step (FileExecutor.enterLoop i c b ops e)
                FileExecutor.TimerFires
              = FileExecutor.enterLoop (S i) (c + 1)
                  (b + FileExecutor.op_size op) ops e1
              /\ FileExecutor.isCancelled e1 = false).
    { unfold FileExecutor.enterLoop at 1. rewrite Hop, Hc.
      destruct (FileExecutor.calculateOperationTime _ _) as [t g'].
      unfold FileExecutor.step.
      cbn [FileExecutor.phase FileExecutor.isCancelled]. rewrite ?Hc, Hop.
      destruct (random g') as [r g'']. eexists. split; [reflexivity|]. done. }
    destruct Hstep as (e1 & -> & Hc1).
    specialize (IH (S i) (c + 1) (b + FileExecutor.op_size op) e1 Hc1
                  ltac:(lia)).
    replace (i + S k)%nat with (S i + k)%nat by lia. exact IH.
Qed.

Lemma started_run_phase p g j :
  let ops := (FileExecutor.generateFileOperations p g).1 in
  let e := FileExecutor.run
             (FileExecutor.CallExecute :: repeat FileExecutor.TimerFires j)
             (FileExecutor.create p g) in
  (j <= length ops)%nat ->
  FileExecutor.isCancelled e = false
  /\ if decide (j < length ops)%nat
     then exists c' b', FileExecutor.phase e = FileExecutor.InFlight j c' b' ops
     else FileExecutor.phase e = FileExecutor.LoopExited.
Proof.
  intros ops e Hj. subst e.
  change (FileExecutor.run (FileExecutor.CallExecute :: ?l) ?x)
    with (FileExecutor.run l (FileExecutor.step x FileExecutor.CallExecute)).
  rewrite step_CallExecute_create. fold ops.
  apply (timers_reach ops j 0); [done | lia].
Qed.

Lemma in_flight_facts p g j c b ops :
  let e := FileExecutor.run
             (FileExecutor.CallExecute :: repeat FileExecutor.TimerFires j)
             (FileExecutor.create p g) in
  FileExecutor.phase e = FileExecutor.InFlight j c b ops ->
  FileExecutor.exec_plan e = p
  /\ exists op,
       (FileExecutor.generateFileOperations p g).1 !! j = Some op
       /\ FileExecutor.progress e
          = Some (FileExecutor.mkProgress (Some (FileExecutor.op_path op))
                    (Z.of_nat j) (FileExecutor.calculateTotalOperations p)
                    (sizeOf (firstn j (FileExecutor.generateFileOperations
                                        p g).1))
                    (total_bytes (summary p))).
Proof.
  intros e Hph.
  destruct (run_reachable
              (FileExecutor.CallExecute :: repeat FileExecutor.TimerFires j)
              p g) as [Hplan Hinv].
  fold e in Hplan, Hinv. rewrite Hph in Hinv.
  destruct Hinv as (_ & _ & _ & -> & -> & op & Hop & Hpr).
  split; [done|]. by exists op.
Qed.

(** X21. [total_ops] estimates, it does not bound: for a plan of three or
    more roots that are all skipped the estimate is the minimum of 10
    while at least 15 operations are performed; during the wait for
    operation [j] the session is Running and reports [j] completed
    operations of 10, so that from the twelfth operation on it reports
    more completed operations than [total_ops]. *)
Theorem total_ops_is_no_bound p g :
  let ops := (generateFileOperations p g).1 in
  Forall (fun node => node_kind node = Skip \/ node_kind node = OpNone)
    (knownRoots p) ->
  (3 <= length (knownRoots p))%nat ->
  (15 <= length ops)%nat
  /\ forall j,
       (j < length ops)%nat ->
       let e := run (CallExecute :: repeat TimerFires j) (create p g) in
       status e = Running
       /\ exists pr,
            progress e = Some pr /\ total_ops pr = 10
            /\ completed_ops pr = Z.of_nat j.
Proof.
  intros ops Hskip Hroots. split.
  - destruct (rootOperations_spec (nodes p) (roots p) g) as [[Hlo _] _].
    fold (knownRoots p) in Hlo. fold (generateFileOperations p g) in Hlo.
    fold ops in Hlo. lia.
  - intros j Hj e.
    destruct (started_run_phase p g j ltac:(fold ops; lia)) as [_ Hph].
    fold ops e in Hph. rewrite decide_True in Hph by done.
    destruct Hph as (c & b & Hph).
    destruct (run_reachable (CallExecute :: repeat TimerFires j) p g)
      as [_ Hinv].
    fold e in Hinv. rewrite Hph in Hinv.
    destruct Hinv as (_ & Hstat & _ & -> & _ & op & _ & Hpr).
    split; [done|]. eexists. split; [exact Hpr|]. cbn. split; [|done].
    unfold calculateTotalOperations. by rewrite sumOperations_skipped.
Qed.

End ExecutorRuns.

(* ===================================================================== *)
(** * Properties of the session manager *)
(* ===================================================================== *)

Section ManagerCalls.
Import JsString Effects Types SessionManager Spec Invariants Lifecycle.
Variable regexTest : string -> bool -> string -> option bool.
Variable suffixOf : Q -> string.

Local Abbreviation step := (SessionManager.step regexTest suffixOf).
Local Abbreviation run := (SessionManager.run regexTest suffixOf).
Local Abbreviation sessionIdOf := (SessionManager.sessionIdOf suffixOf).

Lemma run_snoc calls c m : run (calls ++ [c]) m = (step (run calls m) c).1.
Proof. unfold SessionManager.run. by rewrite fold_left_app. Qed.

Lemma run_cons c calls m : run (c :: calls) m = run calls (step m c).1.
Proof. reflexivity. Qed.

Lemma run_app_calls calls1 calls2 m :
  run (calls1 ++ calls2) m = run calls2 (run calls1 m).
Proof. apply fold_left_app. Qed.

(** X22. Each of the three [create...Session] methods returns the id
    made of its prefix, the time and the rendering of one random draw,
    and stores under it a session that is Created and holds the argument
    (roots, scan id, plan id) and nothing else, whatever the selected
    paths; the sessions under every other id, the other two maps and the
    heap are as before. *)
Theorem create_then_get m dateNow :
  let r := (random (source m)).1 in
  (forall roots,
     let sessionId := sessionIdOf "scan" dateNow r in
     let m' := (step m (CreateScanSession roots dateNow)).1 in
     (step m (CreateScanSession roots dateNow)).2 = Returned (Some sessionId)
     /\ getScanSession m' sessionId
        = Some (mkScanSession sessionId roots Created None None)
     /\ (forall other, other <> sessionId ->
           getScanSession m' other = getScanSession m other)
     /\ planSessions m' = planSessions m
     /\ executionSessions m' = executionSessions m /\ heap m' = heap m)
  /\ (forall scanId selectedPaths,
        let sessionId := sessionIdOf "plan" dateNow r in
        let m' := (step m (CreatePlanSession scanId selectedPaths dateNow)).1 in
        (step m (CreatePlanSession scanId selectedPaths dateNow)).2
        = Returned (Some sessionId)
        /\ getPlanSession m' sessionId
           = Some (mkPlanSession sessionId (Some scanId) Created None)
        /\ (forall other, other <> sessionId ->
              getPlanSession m' other = getPlanSession m other)
        /\ scanSessions m' = scanSessions m
        /\ executionSessions m' = executionSessions m /\ heap m' = heap m)
  /\ (forall planId,
        let sessionId := sessionIdOf "exec" dateNow r in
        let m' := (step m (CreateExecutionSession planId dateNow)).1 in
        (step m (CreateExecutionSession planId dateNow)).2
        = Returned (Some sessionId)
        /\ getExecutionSession m' sessionId
           = Some (mkExecutionSession sessionId planId Created None)
        /\ (forall other, other <> sessionId ->
              getExecutionSession m' other = getExecutionSession m other)
        /\ scanSessions m' = scanSessions m
        /\ planSessions m' = planSessions m /\ heap m' = heap m).
Proof.
  intros r. subst r.
  unfold SessionManager.step, createScanSession, createPlanSession,
    createExecutionSession, getScanSession, getPlanSession,
    getExecutionSession.
  destruct (random (source m)) as [r g]. cbn [fst snd].
  repeat split; cbn; try apply lookup_insert_eq;
    intros other Hne; by apply lookup_insert_ne.
Qed.

Lemma startPlanning_cases sessionId m :
  (getPlanSession m sessionId = None
   /\ startPlanning sessionId m = (m, Thrown "Plan session not found"))
  \/ (exists session,
        getPlanSession m sessionId = Some session
        /\ (match truthyString (scan_id session) with
            | Some scanId => scanSessions m !! scanId
            | None => None
            end) ≫= scan_results = None
        /\ startPlanning sessionId m
           = (m, Thrown "Scan session or results not found"))
  \/ (exists session scanId scanSession folderHits,
        getPlanSession m sessionId = Some session
        /\ scan_id session = Some scanId /\ scanId <> EmptyString
        /\ getScanSession m scanId = Some scanSession
        /\ scan_results scanSession = Some folderHits
        /\ startPlanning sessionId m
           = (mkManager (scanSessions m)
                (<[sessionId :=
                     mkPlanSession (plan_session_id session)
                       (scan_id session) Running (session_plan session)]>
                   (planSessions m))
                (executionSessions m) (scanners m)
                (<[sessionId := length (heap m)]> (planGenerators m))
                (executors m)
                (heap m ++ [Generator sessionId folderHits true])
                (random (source m)).2,
              Returned None)).
Proof.
  unfold startPlanning, getPlanSession, getScanSession.
  destruct (planSessions m !! sessionId) as [session|]; [|by left].
  right.
  destruct ((match truthyString (scan_id session) with
             | Some scanId => scanSessions m !! scanId
             | None => None
             end) ≫= scan_results) as [folderHits|] eqn:Hres.
  - right. unfold truthyString in Hres.
    destruct (scan_id session) as [scanId|] eqn:Hid; [|done].
    destruct (truthy scanId) eqn:Ht; [|done].
    destruct (scanSessions m !! scanId) as [scanSession|] eqn:Hscan; [|done].
    cbn in Hres. exists session, scanId, scanSession, folderHits.
    repeat split; try done.
    + by intros ->.
    + rewrite Hid. by destruct (random (source m)).
  - left. exists session. by rewrite Hres.
Qed.

Lemma thrown_unchanged m c message :
  (step m c).2 = Thrown message -> (step m c).1 = m.
Proof.
  destruct c; cbn [SessionManager.step].
  - unfold createScanSession. by destruct (random (source m)).
  - unfold startScan. by destruct (scanSessions m !! sessionId).
  - unfold createPlanSession. by destruct (random (source m)).
  - destruct (startPlanning_cases sessionId m)
      as [[_ ->]|[(? & _ & _ & ->)|(? & ? & ? & ? & _ & _ & _ & _ & _ & ->)]];
      done.
  - unfold createExecutionSession. by destruct (random (source m)).
  - unfold startExecution.
    destruct (executionSessions m !! sessionId) as [session|]; [|done].
    by destruct (_ ≫= session_plan).
  - done.
  - unfold cleanup. by repeat destruct (sweep _ _ _).
  - done.
Qed.

Lemma startExecution_cases sessionId m :
  (getExecutionSession m sessionId = None
   /\ startExecution sessionId m = (m, Thrown "Execution session not found"))
  \/ (exists session,
        getExecutionSession m sessionId = Some session
        /\ (if truthy (plan_id session)
            then planSessions m !! plan_id session else None)
           ≫= session_plan = None
        /\ startExecution sessionId m
           = (m, Thrown "Plan session or plan not found"))
  \/ (exists session planSession p,
        getExecutionSession m sessionId = Some session
        /\ plan_id session <> EmptyString
        /\ getPlanSession m (plan_id session) = Some planSession
        /\ session_plan planSession = Some p
        /\ startExecution sessionId m
           = (settle (length (heap m)) sessionId
                (FileExecutor.step (FileExecutor.create p (source m))
                   FileExecutor.CallExecute)
                (mkManager (scanSessions m) (planSessions m)
                   (executionSessions m) (scanners m) (planGenerators m)
                   (<[sessionId := length (heap m)]> (executors m))
                   (heap m ++ [ExecutorOf sessionId
                                 (FileExecutor.create p (source m))])
                   (source m)),
              Returned None)).
Proof.
  unfold startExecution, getExecutionSession, getPlanSession.
  destruct (executionSessions m !! sessionId) as [session|]; [|by left].
  right.
  destruct ((if truthy (plan_id session)
             then planSessions m !! plan_id session else None)
            ≫= session_plan) as [p|] eqn:Hplan.
  - right. destruct (truthy (plan_id session)) eqn:Ht; [|done].
    destruct (planSessions m !! plan_id session) as [planSession|] eqn:Hps;
      [|done].
    cbn in Hplan. exists session, planSession, p. repeat split; try done.
    intros Heq. by rewrite Heq in Ht.
  - left. by exists session.
Qed.

(** X23. A call that throws leaves the manager as it was. [startScan]
    throws exactly for an unknown id; [startPlanning] and [startExecution]
    throw their not-found error for an unknown id; [startPlanning] returns
    exactly when the plan session names, by a non-empty id, a scan session
    that has results; and [startExecution] returns exactly when the
    execution session names, by a non-empty id, a plan session that has a
    plan. *)
Theorem start_preconditions m sessionId :
  (forall c message, (step m c).2 = Thrown message -> (step m c).1 = m)
  /\ (forall rules,
        (step m (StartScan sessionId rules)).2
        = match getScanSession m sessionId with
          | Some _ => Returned None
          | None => Thrown "Scan session not found"
          end)
  /\ (getPlanSession m sessionId = None ->
      (step m (StartPlanning sessionId)).2 = Thrown "Plan session not found")
  /\ (getExecutionSession m sessionId = None ->
      (step m (StartExecution sessionId)).2
      = Thrown "Execution session not found")
  /\ ((step m (StartPlanning sessionId)).2 = Returned None <->
   exists session scanId scanSession folderHits,
     getPlanSession m sessionId = Some session
     /\ scan_id session = Some scanId /\ scanId <> EmptyString
     /\ getScanSession m scanId = Some scanSession
     /\ scan_results scanSession = Some folderHits)
  /\ ((step m (StartExecution sessionId)).2 = Returned None <->
      exists session planSession p,
        getExecutionSession m sessionId = Some session
        /\ plan_id session <> EmptyString
        /\ getPlanSession m (plan_id session) = Some planSession
        /\ session_plan planSession = Some p).
Proof.
  split; [apply thrown_unchanged|].
  split.
  { intros rules. cbn [SessionManager.step]. unfold startScan, getScanSession.
    by destruct (scanSessions m !! sessionId). }
  split.
  { unfold getPlanSession. cbn [SessionManager.step]. unfold startPlanning.
    by intros ->. }
  split.
  { unfold getExecutionSession. cbn [SessionManager.step].
    unfold startExecution. by intros ->. }
  cbn [SessionManager.step]. split; split.
  - destruct (startPlanning_cases sessionId m)
      as [[_ ->]|[(? & _ & _ & ->)|(s & i & ss & h & ? & ? & ? & ? & ? & _)]];
      [done | done |]. intros _. by exists s, i, ss, h.
  - intros (s & i & ss & h & Hs & Hi & Hne & Hss & Hh).
    unfold startPlanning, getPlanSession, getScanSession in *.
    rewrite Hs, Hi. cbn. unfold truthy.
    destruct (String.eqb_spec i EmptyString) as [|_]; [done|]. cbn.
    rewrite Hss. cbn. rewrite Hh. by destruct (random (source m)).
  - destruct (startExecution_cases sessionId m)
      as [[_ ->]|[(? & _ & _ & ->)|(s & ps & p & ? & ? & ? & ? & _)]];
      [done | done |]. intros _. by exists s, ps, p.
  - intros (s & ps & p & Hs & Hne & Hps & Hp).
    unfold startExecution, getExecutionSession, getPlanSession in *.
    rewrite Hs. unfold truthy.
    destruct (String.eqb_spec (plan_id s) EmptyString) as [|_]; [done|]. cbn.
    rewrite Hps. cbn. by rewrite Hp.
Qed.

(** *** A scan from call to completion *)

Lemma insert_at_end {A} (l : list A) (x y : A) :
  <[length l := x]> (l ++ [y]) = l ++ [x].
Proof.
  rewrite insert_app_r_alt by lia. by rewrite Nat.sub_diag.
Qed.

Lemma lookup_at_end {A} (l : list A) (x : A) :
  (l ++ [x]) !! length l = Some x.
Proof. by rewrite lookup_app_r, Nat.sub_diag by lia. Qed.

Lemma scanRoots_snoc rules now roots root : forall results g,
  FileScanner.scanRoots regexTest rules now (roots ++ [root]) results g
  = FileScanner.generateMockResults regexTest rules now root
      (FileScanner.scanRoots regexTest rules now roots results g).1
      (FileScanner.scanRoots regexTest rules now roots results g).2.
Proof.
  induction roots as [|r rest IH]; intros results g; cbn [app FileScanner.scanRoots].
  - by destruct (FileScanner.generateMockResults _ _ _ _ _ _).
  - destruct (FileScanner.generateMockResults regexTest rules now r results g)
      as [results' g']. apply IH.
Qed.

Lemma repeat_snoc {A} (x : A) n : repeat x (S n) = repeat x n ++ [x].
Proof. induction n as [|n IH]; [done|]. cbn [repeat app] in *. by rewrite <- IH. Qed.

Lemma scan_in_progress m sessionId session rules now : forall j,
  getScanSession m sessionId = Some session ->
  (j < length (scan_roots session))%nat ->
  run (StartScan sessionId rules :: repeat (Timer (length (heap m)) now) j) m
  = scanning m sessionId (scan_roots session) rules j
      (FileScanner.scanRoots regexTest rules now
         (firstn j (scan_roots session)) [] (source m)).1
      (FileScanner.scanRoots regexTest rules now
         (firstn j (scan_roots session)) [] (source m)).2.
Proof.
  intros j Hs. unfold getScanSession in Hs. induction j as [|j IH]; intros Hj.
  - cbn [repeat]. unfold SessionManager.run. cbn [fold_left SessionManager.step].
    unfold startScan. rewrite Hs. cbn [fst].
    destruct (lookup_lt_is_Some_2 (scan_roots session) 0 Hj) as [root Hroot].
    unfold scanLoop. cbn [scan_roots]. rewrite Hroot.
    cbn. unfold scanning. rewrite insert_at_end, Hroot. done.
  - rewrite repeat_snoc, app_comm_cons, run_snoc, IH by lia.
    destruct (lookup_lt_is_Some_2 (scan_roots session) j ltac:(lia))
      as [root Hroot].
    destruct (lookup_lt_is_Some_2 (scan_roots session) (S j) Hj)
      as [root' Hroot'].
    rewrite (take_S_r _ _ _ Hroot), scanRoots_snoc.
    destruct (FileScanner.scanRoots regexTest rules now
                (firstn j (scan_roots session)) [] (source m))
      as [results g].
    cbn [fst snd SessionManager.step]. unfold timer, scanning.
    cbn [heap]. rewrite lookup_at_end. unfold scanTimer.
    cbn [scan_status scan_roots source]. rewrite Hroot.
    destruct (FileScanner.generateMockResults regexTest rules now root
                results g) as [results' g'].
    unfold scanLoop. cbn [scan_roots heap]. rewrite Hroot'.
    cbn. rewrite insert_at_end.
    replace (Z.of_nat j + 1) with (Z.of_nat (S j)) by lia. done.
Qed.

Lemma scan_completed m sessionId session rules now :
  getScanSession m sessionId = Some session ->
  run (StartScan sessionId rules
       :: repeat (Timer (length (heap m)) now)
            (length (scan_roots session))) m
  = scanned m sessionId (scan_roots session) rules
      (FileScanner.scanRoots regexTest rules now
         (scan_roots session) [] (source m)).1
      (FileScanner.scanRoots regexTest rules now
         (scan_roots session) [] (source m)).2.
Proof.
  intros Hs. destruct (length (scan_roots session)) as [|n] eqn:Hlen.
  - unfold getScanSession in Hs.
    cbn [repeat]. unfold SessionManager.run. cbn [fold_left SessionManager.step].
    unfold startScan. rewrite Hs. cbn [fst].
    apply length_zero_iff_nil in Hlen. unfold scanLoop, scanned.
    cbn [scan_roots]. rewrite Hlen. cbn. by rewrite insert_at_end.
  - rewrite repeat_snoc, app_comm_cons, run_snoc,
      (scan_in_progress _ _ session) by (done || lia).
    destruct (lookup_lt_is_Some_2 (scan_roots session) n ltac:(lia))
      as [root Hroot].
    assert (Hall : scan_roots session = firstn n (scan_roots session) ++ [root]).
    { rewrite <- (take_S_r _ _ _ Hroot), <- Hlen. by rewrite firstn_all. }
    assert (Hscan : FileScanner.scanRoots regexTest rules now
                      (scan_roots session) [] (source m)
                    = FileScanner.generateMockResults regexTest rules now root
                        (FileScanner.scanRoots regexTest rules now
                           (firstn n (scan_roots session)) [] (source m)).1
                        (FileScanner.scanRoots regexTest rules now
                           (firstn n (scan_roots session)) [] (source m)).2).
    { rewrite Hall at 1. apply scanRoots_snoc. }
    rewrite Hscan.
    destruct (FileScanner.scanRoots regexTest rules now
                (firstn n (scan_roots session)) [] (source m))
      as [results g].
    cbn [fst snd SessionManager.step]. unfold timer, scanning.
    cbn [heap]. rewrite lookup_at_end. unfold scanTimer.
    cbn [scan_status scan_roots source]. rewrite Hroot.
    destruct (FileScanner.generateMockResults regexTest rules now root
                results g) as [results' g'].
    unfold scanLoop. cbn [scan_roots heap].
    rewrite (lookup_ge_None_2 _ (S n)) by lia.
    cbn. unfold scanned. rewrite insert_at_end, Hlen, last_lookup, Hlen.
    cbn [pred]. rewrite Hroot.
    replace (Z.of_nat n + 1) with (Z.of_nat (S n)) by lia. done.
Qed.

(** X24. A scan through the manager: until the delay of the last root has
    elapsed the stored session is the one stored before the call (it is
    never shown as Running); then it is Completed, its results are those
    of [FileScanner.startScan] on the session's roots, and its progress
    counts all roots, the last one being the current item. *)
Theorem scan_lifecycle m sessionId session rules now j :
  getScanSession m sessionId = Some session ->
  let roots := scan_roots session in
  let m' :=
    run (StartScan sessionId rules :: repeat (Timer (length (heap m)) now) j)
      m in
  ((j < length roots)%nat -> getScanSession m' sessionId = Some session)
  /\ (j = length roots ->
      getScanSession m' sessionId
      = Some (mkScanSession sessionId roots Completed
                (Some (mkScanProgress (last roots) (Z.of_nat (length roots))
                         (Z.of_nat (length roots))))
                (Some (FileScanner.startScan regexTest rules now roots
                         (source m)).1.2))).
Proof.
  intros Hs roots m'. subst m'. split.
  - intros Hj. by rewrite (scan_in_progress _ _ session).
  - intros ->. subst roots. rewrite (scan_completed _ _ session) by done.
    unfold scanned, getScanSession. cbn [scanSessions].
    rewrite lookup_insert_eq. unfold FileScanner.startScan.
    by destruct (FileScanner.scanRoots _ _ _ _ _ _).
Qed.

(** *** Planning from call to completion *)

Lemma buildPlan_planAfterDelay folderHits g :
  PlanGenerator.buildPlan folderHits g
  = planAfterDelay folderHits (random g).2.
Proof.
  unfold PlanGenerator.buildPlan, planAfterDelay. by destruct (random g).
Qed.

(** X25. Planning through the manager: a plan session created for a scan
    that has results is Running from the call of [startPlanning] until
    the generator's delay has elapsed, then Completed with the plan that
    [generatePlan] builds from all results of the scan, whatever paths
    were selected, and with no scan id; a second [startPlanning] on it
    throws. *)
Theorem planning_uses_every_hit m scanId scanSession folderHits selectedPaths
    dateNow now :
  scanId <> EmptyString ->
  getScanSession m scanId = Some scanSession ->
  scan_results scanSession = Some folderHits ->
  let sessionId := sessionIdOf "plan" dateNow (random (source m)).1 in
  let m1 :=
    run [CreatePlanSession scanId selectedPaths dateNow;
         StartPlanning sessionId] m in
  let m2 := (step m1 (Timer (length (heap m)) now)).1 in
  getPlanSession m1 sessionId
  = Some (mkPlanSession sessionId (Some scanId) Running None)
  /\ getPlanSession m2 sessionId
     = Some (mkPlanSession sessionId None Completed
               (Some (PlanGenerator.buildPlan folderHits
                        (random (source m)).2).1))
  /\ step m2 (StartPlanning sessionId)
     = (m2, Thrown "Scan session or results not found").
Proof.
  intros Hne Hscan Hres sessionId m1 m2.
  assert (Ht : truthy scanId = true).
  { unfold truthy. by destruct (String.eqb_spec scanId EmptyString). }
  assert (Hm1 : m1 = mkManager (scanSessions m)
                  (<[sessionId := mkPlanSession sessionId (Some scanId)
                                    Running None]> (planSessions m))
                  (executionSessions m) (scanners m)
                  (<[sessionId := length (heap m)]> (planGenerators m))
                  (executors m)
                  (heap m ++ [Generator sessionId folderHits true])
                  (random (random (source m)).2).2).
  { subst m1 sessionId. unfold SessionManager.run.
    cbn [fold_left SessionManager.step]. unfold createPlanSession.
    destruct (random (source m)) as [r g]. cbn [fst snd].
    unfold startPlanning. cbn [planSessions scanSessions].
    rewrite lookup_insert_eq. cbn [scan_id truthyString]. rewrite Ht.
    unfold getScanSession in Hscan. rewrite Hscan. cbn. rewrite Hres.
    cbn. destruct (random g) as [r' g']. cbn. by rewrite insert_insert_eq. }
  assert (Hm2 : m2 = mkManager (scanSessions m)
                  (<[sessionId := mkPlanSession sessionId None Completed
                       (Some (PlanGenerator.buildPlan folderHits
                                (random (source m)).2).1)]> (planSessions m))
                  (executionSessions m) (scanners m)
                  (<[sessionId := length (heap m)]> (planGenerators m))
                  (executors m)
                  (heap m ++ [Generator sessionId folderHits false])
                  (PlanGenerator.buildPlan folderHits
                     (random (source m)).2).2).
  { subst m2. rewrite Hm1. cbn [SessionManager.step fst]. unfold timer.
    cbn [heap]. rewrite lookup_at_end. unfold planTimer. cbn [source].
    rewrite buildPlan_planAfterDelay.
    destruct (planAfterDelay folderHits (random (random (source m)).2).2)
      as [p g']. cbn. by rewrite insert_insert_eq, insert_at_end. }
  split; [|split].
  - rewrite Hm1. apply lookup_insert_eq.
  - rewrite Hm2. apply lookup_insert_eq.
  - rewrite Hm2. cbn [SessionManager.step]. unfold startPlanning.
    cbn [planSessions]. by rewrite lookup_insert_eq.
Qed.

(** *** An execution from call to completion *)

Lemma withSource_same e : withSource e (FileExecutor.exec_rng e) = e.
Proof. by destruct e. Qed.

Lemma settle_executing m sessionId e0 e :
  settle (length (heap m)) sessionId e (executing m sessionId e0)
  = match FileExecutor.phase e with
    | FileExecutor.LoopExited =>
        executed m sessionId (FileExecutor.step e FileExecutor.Continue)
    | _ => executing m sessionId e
    end.
Proof.
  unfold settle, executing, executed. cbn.
  destruct (FileExecutor.phase e); by rewrite insert_at_end.
Qed.

Lemma execution_in_progress m sessionId session planSession p now : forall j,
  getExecutionSession m sessionId = Some session ->
  plan_id session <> EmptyString ->
  getPlanSession m (plan_id session) = Some planSession ->
  session_plan planSession = Some p ->
  (j < length (FileExecutor.generateFileOperations p (source m)).1)%nat ->
  run (StartExecution sessionId :: repeat (Timer (length (heap m)) now) j) m
  = executing m sessionId
      (FileExecutor.run
         (FileExecutor.CallExecute :: repeat FileExecutor.TimerFires j)
         (FileExecutor.create p (source m))).
Proof.
  intros j Hs Hne Hps Hp. induction j as [|j IH]; intros Hj.
  - cbn [repeat]. unfold SessionManager.run.
    cbn [fold_left SessionManager.step].
    destruct (startExecution_cases sessionId m)
      as [[He _]|[(s & He & Hnone & _)|(s & ps & p' & He & _ & Hps' & Hp' & ->)]].
    + congruence.
    + rewrite Hs in He. injection He as <-. unfold truthy in Hnone.
      destruct (String.eqb_spec (plan_id session) EmptyString); [done|].
      unfold getPlanSession in Hps. cbn in Hnone. rewrite Hps in Hnone.
      cbn in Hnone. congruence.
    + rewrite Hs in He. injection He as <-. rewrite Hps in Hps'.
      injection Hps' as <-. rewrite Hp in Hp'. injection Hp' as <-.
      cbn [fst].
      change (mkManager _ _ _ _ _ _ _ _)
        with (executing m sessionId (FileExecutor.create p (source m))).
      rewrite settle_executing.
      destruct (started_run_phase p (source m) 0 ltac:(lia)) as [_ Hph].
      rewrite decide_True in Hph by done. destruct Hph as (c' & b' & Hph).
      cbn [repeat FileExecutor.run fold_left] in Hph.
      unfold FileExecutor.run. cbn [fold_left]. by rewrite Hph.
  - rewrite repeat_snoc, app_comm_cons, run_snoc, IH by lia.
    rewrite (repeat_snoc FileExecutor.TimerFires), app_comm_cons,
      executor_run_snoc.
    destruct (started_run_phase p (source m) j ltac:(lia)) as [_ Hph].
    rewrite decide_True in Hph by lia. destruct Hph as (c' & b' & Hph).
    destruct (started_run_phase p (source m) (S j) ltac:(lia)) as [_ Hph'].
    rewrite decide_True in Hph' by lia. destruct Hph' as (c'' & b'' & Hph').
    rewrite (repeat_snoc FileExecutor.TimerFires), app_comm_cons,
      executor_run_snoc in Hph'.
    set (e := FileExecutor.run _ _) in *.
    cbn [SessionManager.step fst]. unfold timer.
    unfold executing at 1. cbn [heap]. rewrite lookup_at_end.
    unfold executionTimer. rewrite Hph.
    change (source (executing m sessionId e)) with (FileExecutor.exec_rng e).
    rewrite withSource_same, settle_executing. by rewrite Hph'.
Qed.

Lemma alter_at_end {A} (f : A -> A) (l : list A) (x : A) :
  alter f (length l) (l ++ [x]) = l ++ [f x].
Proof. rewrite alter_app_r_alt by lia. by rewrite Nat.sub_diag. Qed.

Lemma execution_completed m sessionId session planSession p now :
  getExecutionSession m sessionId = Some session ->
  plan_id session <> EmptyString ->
  getPlanSession m (plan_id session) = Some planSession ->
  session_plan planSession = Some p ->
  let ops := (FileExecutor.generateFileOperations p (source m)).1 in
  run (StartExecution sessionId
       :: repeat (Timer (length (heap m)) now) (length ops)) m
  = executed m sessionId
      (FileExecutor.run
         (FileExecutor.CallExecute
          :: repeat FileExecutor.TimerFires (length ops)
             ++ [FileExecutor.Continue])
         (FileExecutor.create p (source m))).
Proof.
  intros Hs Hne Hps Hp ops. subst ops.
  destruct (started_run_phase p (source m)
              (length (FileExecutor.generateFileOperations p (source m)).1)
              ltac:(done)) as [_ Hph].
  rewrite decide_False in Hph by lia.
  rewrite app_comm_cons, executor_run_snoc.
  destruct (length (FileExecutor.generateFileOperations p (source m)).1)
    as [|n] eqn:Hlen.
  - cbn [repeat]. unfold SessionManager.run.
    cbn [fold_left SessionManager.step].
    destruct (startExecution_cases sessionId m)
      as [[He _]|[(s & He & Hnone & _)|(s & ps & p' & He & _ & Hps' & Hp' & ->)]].
    + congruence.
    + rewrite Hs in He. injection He as <-. unfold truthy in Hnone.
      destruct (String.eqb_spec (plan_id session) EmptyString); [done|].
      unfold getPlanSession in Hps. cbn in Hnone. rewrite Hps in Hnone.
      cbn in Hnone. congruence.
    + rewrite Hs in He. injection He as <-. rewrite Hps in Hps'.
      injection Hps' as <-. rewrite Hp in Hp'. injection Hp' as <-.
      cbn [fst].
      change (mkManager _ _ _ _ _ _ _ _)
        with (executing m sessionId (FileExecutor.create p (source m))).
      rewrite settle_executing.
      cbn [repeat FileExecutor.run fold_left] in Hph.
      unfold FileExecutor.run. cbn [repeat fold_left]. by rewrite Hph.
  - rewrite repeat_snoc, app_comm_cons, run_snoc,
      (execution_in_progress _ _ session planSession p) by (done || lia).
    rewrite (repeat_snoc FileExecutor.TimerFires), app_comm_cons,
      executor_run_snoc in *.
    destruct (started_run_phase p (source m) n ltac:(lia)) as [_ Hph'].
    rewrite decide_True in Hph' by lia. destruct Hph' as (c' & b' & Hph').
    set (e := FileExecutor.run _ _) in *.
    cbn [SessionManager.step fst]. unfold timer.
    unfold executing at 1. cbn [heap]. rewrite lookup_at_end.
    unfold executionTimer. rewrite Hph'.
    change (source (executing m sessionId e)) with (FileExecutor.exec_rng e).
    rewrite withSource_same, settle_executing. by rewrite Hph.
Qed.

Lemma execution_stored m sessionId session planSession p now j :
  getExecutionSession m sessionId = Some session ->
  plan_id session <> EmptyString ->
  getPlanSession m (plan_id session) = Some planSession ->
  session_plan planSession = Some p ->
  let ops := (FileExecutor.generateFileOperations p (source m)).1 in
  let m' :=
    run (StartExecution sessionId :: repeat (Timer (length (heap m)) now) j)
      m in
  ((j < length ops)%nat -> getExecutionSession m' sessionId = Some session)
  /\ (j = length ops ->
      getExecutionSession m' sessionId
      = Some (mkExecutionSession sessionId (join (roots p) ",") Completed
                (Some (fullProgress p)))).
Proof.
  intros Hs Hne Hps Hp ops m'. subst m'. split.
  - intros Hj.
    by rewrite (execution_in_progress _ _ session planSession p).
  - intros ->. subst ops.
    rewrite (execution_completed _ _ session planSession p) by done.
    unfold executed, getExecutionSession. cbn [executionSessions].
    rewrite lookup_insert_eq. unfold sessionOf.
    destruct (run_completes p (source m)) as (_ & Hst & _ & Hpr).
    destruct (run_reachable
                (FileExecutor.CallExecute
                 :: repeat FileExecutor.TimerFires
                      (length (FileExecutor.generateFileOperations p
                                 (source m)).1)
                    ++ [FileExecutor.Continue]) p (source m)) as [Hplan _].
    cbn [app] in Hst, Hpr. by rewrite Hplan, Hst, Hpr.
Qed.

(** X26. An execution through the manager: until the delay of the last
    operation has elapsed the stored session is the one stored before
    the call (it is never shown as Running and shows no progress); then
    it is Completed, its progress shows the estimated totals as done, and
    its plan id is the comma-separated list of the plan's roots. *)
Theorem execution_lifecycle m sessionId session planSession p now j :
  getExecutionSession m sessionId = Some session ->
  plan_id session <> EmptyString ->
  getPlanSession m (plan_id session) = Some planSession ->
  session_plan planSession = Some p ->
  let ops := (FileExecutor.generateFileOperations p (source m)).1 in
  let m' :=
    run (StartExecution sessionId :: repeat (Timer (length (heap m)) now) j)
      m in
  ((j < length ops)%nat -> getExecutionSession m' sessionId = Some session)
  /\ (j = length ops ->
      getExecutionSession m' sessionId
      = Some (mkExecutionSession sessionId (join (roots p) ",") Completed
                (Some (fullProgress p)))).
Proof. apply execution_stored. Qed.

(** X27. [cancelExecution] outside a run: before the start it marks the
    stored session Cancelled, yet a later [startExecution] runs the plan
    to the end and stores a Completed session; after the end it turns the
    stored Completed session into a Cancelled one whose progress still
    shows everything as done. *)
Theorem cancel_outside_a_run m sessionId session planSession p now :
  getExecutionSession m sessionId = Some session ->
  plan_id session <> EmptyString ->
  getPlanSession m (plan_id session) = Some planSession ->
  session_plan planSession = Some p ->
  let ops := (FileExecutor.generateFileOperations p (source m)).1 in
  let m1 := (step m (CancelExecution sessionId)).1 in
  let m2 :=
    run (StartExecution sessionId
         :: repeat (Timer (length (heap m)) now) (length ops)) m1 in
  let m3 := (step m2 (CancelExecution sessionId)).1 in
  getExecutionSession m1 sessionId
  = Some (mkExecutionSession (execution_session_id session) (plan_id session)
            Cancelled (execution_progress session))
  /\ getExecutionSession m2 sessionId
     = Some (mkExecutionSession sessionId (join (roots p) ",") Completed
               (Some (fullProgress p)))
  /\ getExecutionSession m3 sessionId
     = Some (mkExecutionSession sessionId (join (roots p) ",") Cancelled
               (Some (fullProgress p))).
Proof.
  intros Hs Hne Hps Hp ops m1 m2 m3.
  assert (H1 : getExecutionSession m1 sessionId
               = Some (mkExecutionSession (execution_session_id session)
                         (plan_id session) Cancelled
                         (execution_progress session))).
  { subst m1. cbn [SessionManager.step]. unfold cancelExecution.
    unfold getExecutionSession in *. rewrite Hs. cbn.
    apply lookup_insert_eq. }
  assert (Hheap : length (heap m1) = length (heap m) /\ source m1 = source m
                  /\ planSessions m1 = planSessions m).
  { subst m1. cbn [SessionManager.step]. unfold cancelExecution. cbn.
    destruct (executors m !! sessionId); [|done].
    by rewrite length_alter. }
  destruct Hheap as (Hlen & Hsrc & Hplans).
  assert (H2 : getExecutionSession m2 sessionId
               = Some (mkExecutionSession sessionId (join (roots p) ",")
                         Completed (Some (fullProgress p)))).
  { subst m2 ops. rewrite <- Hlen, <- Hsrc.
    eapply (execution_stored m1 sessionId _ planSession p now);
      [exact H1 | done | | done | done].
    unfold getPlanSession. by rewrite Hplans. }
  split; [exact H1|]. split; [exact H2|].
  subst m3. cbn [SessionManager.step]. unfold cancelExecution.
  unfold getExecutionSession in *. rewrite H2. cbn.
  apply lookup_insert_eq.
Qed.

Lemma cancelled_timer e g i c b ops :
  FileExecutor.phase e = FileExecutor.InFlight i c b ops ->
  let e1 := FileExecutor.step e FileExecutor.CallCancel in
  let e2 := FileExecutor.step (withSource e1 g) FileExecutor.TimerFires in
  let e3 := FileExecutor.step e2 FileExecutor.Continue in
  FileExecutor.phase e1 = FileExecutor.InFlight i c b ops
  /\ FileExecutor.phase e2 = FileExecutor.LoopExited
  /\ FileExecutor.status e3 = Cancelled
  /\ FileExecutor.progress e3 = FileExecutor.progress e
  /\ FileExecutor.exec_plan e3 = FileExecutor.exec_plan e.
Proof. destruct e. cbn. by intros ->. Qed.

(** X28. [cancelExecution] during a run, while the executor waits for the
    delay of operation [j]: the stored session becomes Cancelled at once,
    and when that delay has elapsed the executor's session is stored,
    Cancelled, with the [j] operations completed before and their bytes
    as progress. *)
Theorem cancel_during_a_run m sessionId session planSession p now j :
  getExecutionSession m sessionId = Some session ->
  plan_id session <> EmptyString ->
  getPlanSession m (plan_id session) = Some planSession ->
  session_plan planSession = Some p ->
  let ops := (FileExecutor.generateFileOperations p (source m)).1 in
  (j < length ops)%nat ->
  let m1 :=
    run (StartExecution sessionId :: repeat (Timer (length (heap m)) now) j)
      m in
  let m2 := (step m1 (CancelExecution sessionId)).1 in
  let m3 := (step m2 (Timer (length (heap m)) now)).1 in
  getExecutionSession m2 sessionId
  = Some (mkExecutionSession (execution_session_id session) (plan_id session)
            Cancelled (execution_progress session))
  /\ exists op,
       ops !! j = Some op
       /\ getExecutionSession m3 sessionId
          = Some (mkExecutionSession sessionId (join (roots p) ",") Cancelled
                    (Some (FileExecutor.mkProgress
                             (Some (FileExecutor.op_path op)) (Z.of_nat j)
                             (FileExecutor.calculateTotalOperations p)
                             (sizeOf (firstn j ops))
                             (total_bytes (summary p))))).
Proof.
  intros Hs Hne Hps Hp ops Hj m1 m2 m3.
  set (e := FileExecutor.run
              (FileExecutor.CallExecute :: repeat FileExecutor.TimerFires j)
              (FileExecutor.create p (source m))).
  assert (Hm1 : m1 = executing m sessionId e).
  { subst m1. by apply (execution_in_progress _ _ session planSession p). }
  destruct (started_run_phase p (source m) j ltac:(fold ops; lia)) as [_ Hph].
  fold ops e in Hph. rewrite decide_True in Hph by done.
  destruct Hph as (c' & b' & Hph).
  destruct (in_flight_facts p (source m) j c' b' ops Hph)
    as (Hplan & op & Hop & Hpr).
  fold e in Hplan, Hpr.
  set (e' := FileExecutor.step e FileExecutor.CallCancel).
  assert (Hm2 : m2 = mkManager (scanSessions m) (planSessions m)
                  (<[sessionId :=
                       mkExecutionSession (execution_session_id session)
                         (plan_id session) Cancelled
                         (execution_progress session)]>
                     (executionSessions m))
                  (scanners m) (planGenerators m)
                  (<[sessionId := length (heap m)]> (executors m))
                  (heap m ++ [ExecutorOf sessionId e'])
                  (FileExecutor.exec_rng e)).
  { subst m2. rewrite Hm1. cbn [SessionManager.step fst].
    unfold cancelExecution, executing. cbn.
    rewrite lookup_insert_eq, alter_at_end.
    unfold getExecutionSession in Hs. by rewrite Hs. }
  split; [rewrite Hm2; apply lookup_insert_eq|].
  exists op. split; [done|].
  subst m3. rewrite Hm2. cbn [SessionManager.step fst]. unfold timer.
  cbn [heap]. rewrite lookup_at_end. unfold executionTimer. cbn [source].
  destruct (cancelled_timer e (FileExecutor.exec_rng e) j c' b' ops Hph)
    as (Hph1 & Hph2 & Hst & Hprog & Hplan').
  fold e' in Hph1, Hph2, Hst, Hprog, Hplan'.
  rewrite Hph1. unfold settle. rewrite Hph2.
  unfold getExecutionSession. cbn [executionSessions].
  rewrite lookup_insert_eq. unfold sessionOf.
  by rewrite Hst, Hprog, Hplan', Hplan, Hpr.
Qed.

(** *** Cleaning up *)

Lemma digitOf_pretty_N_char d :
  (d < 10)%N -> digitOf 10 (pretty_N_char d) = Some d.
Proof.
  intros Hd.
  assert (d = 0 \/ d = 1 \/ d = 2 \/ d = 3 \/ d = 4 \/ d = 5 \/ d = 6
          \/ d = 7 \/ d = 8 \/ d = 9)%N as Hcases by lia.
  decompose [or] Hcases; subst; reflexivity.
Qed.

Lemma digitsValue_pretty_N_go x : forall s,
  (0 < x)%N ->
  digitsValue 10 (pretty_N_go x s) None = digitsValue 10 s (Some x).
Proof.
  induction (N.lt_wf_0 x) as [x _ IH]. intros s Hx.
  rewrite pretty_N_go_step by done.
  pose proof (N.mod_lt x 10 ltac:(done)) as Hmod.
  pose proof (N.div_mod x 10 ltac:(done)) as Hdiv.
  destruct (decide (x `div` 10 = 0)%N) as [Hz|Hnz].
  - rewrite Hz, pretty_N_go_0. cbn [digitsValue].
    rewrite digitOf_pretty_N_char by done. cbn. f_equal. f_equal. lia.
  - rewrite IH; [|apply N.div_lt; lia|lia]. cbn [digitsValue].
    rewrite digitOf_pretty_N_char by done. cbn. f_equal. f_equal. lia.
Qed.

Lemma digitsValue_pretty (n : N) : digitsValue 10 (pretty n) None = Some n.
Proof.
  unfold pretty, pretty_N. case_decide as Hn; [by subst|].
  rewrite digitsValue_pretty_N_go by lia. done.
Qed.

Lemma parseInt_digits s :
  allDigits s = true ->
  parseInt s = Z.of_N <$> digitsValue 10 s None.
Proof.
  destruct s as [|c s]; [done|]. cbn [allDigits].
  intros [Hc Hs]%andb_true_iff. unfold parseInt. cbn [trimStart].
  assert (Hfirst : isWhiteSpace c = false /\ Ascii.eqb c "-" = false
                   /\ Ascii.eqb c "+" = false).
  { clear -Hc. by destruct c as [[] [] [] [] [] [] [] []]. }
  destruct Hfirst as (-> & -> & ->).
  assert (Hprefix : (match s with
                     | String x r =>
                         if Ascii.eqb c "0"
                            && (Ascii.eqb x "x" || Ascii.eqb x "X")
                         then (16%N, r) else (10%N, String c s)
                     | EmptyString => (10%N, String c s)
                     end) = (10%N, String c s)).
  { destruct s as [|x r]; [done|]. cbn [allDigits] in Hs.
    apply andb_true_iff in Hs as [Hx _].
    destruct (Ascii.eqb_spec x "x") as [->|_]; [done|].
    destruct (Ascii.eqb_spec x "X") as [->|_]; [done|].
    by rewrite andb_false_r. }
  destruct s as [|x r]; [by destruct (digitsValue _ _ _)|].
  rewrite Hprefix. by destruct (digitsValue _ _ _).
Qed.

Lemma parseInt_pretty (n : N) : parseInt (pretty n) = Some (Z.of_N n).
Proof.
  rewrite parseInt_digits by apply (toString_digits n).
  by rewrite digitsValue_pretty.
Qed.

Lemma split_cons_sep s sep :
  split (String sep s) sep = EmptyString :: split s sep.
Proof. cbn [split]. by rewrite Ascii.eqb_refl. Qed.

Lemma split_nonempty s sep : split s sep <> [].
Proof.
  induction s as [|c s IH]; [done|]. cbn [split].
  destruct (Ascii.eqb c sep); [done|]. by destruct (split s sep).
Qed.

Lemma split_app_sep a b sep :
  hasChar sep a = false ->
  split (a +:+ String sep b) sep = a :: split b sep.
Proof.
  induction a as [|c a IH]; intros Ha.
  - apply split_cons_sep.
  - cbn [hasChar] in Ha. apply orb_false_iff in Ha as [Hc Ha].
    rewrite append_cons. cbn [split]. rewrite Hc, IH by done. done.
Qed.

Lemma expired_sessionIdOf cutoff prefix created r :
  hasChar "-" prefix = false ->
  expired cutoff (sessionIdOf prefix created r) = (Z.of_N created <? cutoff).
Proof.
  intros Hprefix. unfold expired, SessionManager.sessionIdOf.
  change (prefix +:+ "-" +:+ pretty created +:+ "-" +:+ suffixOf r)
    with (prefix +:+ String "-" (pretty created +:+ String "-" (suffixOf r))).
  rewrite split_app_sep by done.
  rewrite split_app_sep
    by (apply allDigits_hasChar; [done | apply (toString_digits created)]).
  change (default "undefined"
            ((prefix :: pretty created :: split (suffixOf r) "-") !! 1%nat))
    with (pretty created).
  by rewrite parseInt_pretty.
Qed.

Lemma sweep_fold {A B} cutoff (entries : list (string * A)) :
  forall (sessions : gmap string A) (objects : gmap string B),
  let swept :=
    foldr (fun entry maps =>
             if expired cutoff entry.1
             then (delete entry.1 maps.1, delete entry.1 maps.2)
             else maps)
      (sessions, objects) entries in
  forall k,
    swept.1 !! k
    = (if expired cutoff k && bool_decide (k ∈ entries.*1)
       then None else sessions !! k)
    /\ swept.2 !! k
       = (if expired cutoff k && bool_decide (k ∈ entries.*1)
          then None else objects !! k).
Proof.
  induction entries as [|[id x] entries IH]; intros sessions objects swept k.
  - subst swept. cbn. rewrite bool_decide_eq_false_2 by apply not_elem_of_nil.
    by rewrite andb_false_r.
  - subst swept. cbn [foldr fst snd fmap list_fmap].
    specialize (IH sessions objects k). cbn zeta in IH.
    destruct IH as [IH1 IH2].
    set (rest := foldr _ _ entries) in *.
    destruct (decide (k = id)) as [->|Hne].
    + rewrite (bool_decide_eq_true_2 (id ∈ id :: entries.*1))
        by apply list_elem_of_here.
      rewrite andb_true_r. destruct (expired cutoff id) eqn:He; cbn [fst snd].
      * by rewrite !lookup_delete_eq.
      * by rewrite IH1, IH2.
    + assert (Hin : bool_decide (k ∈ id :: entries.*1)
                    = bool_decide (k ∈ entries.*1)).
      { apply bool_decide_ext. rewrite elem_of_cons.
        split; [by intros [?|?] | by right]. }
      rewrite Hin. destruct (expired cutoff id); cbn [fst snd];
        rewrite ?lookup_delete_ne by done; by rewrite IH1, IH2.
Qed.

Lemma sweep_lookup {A B} cutoff (sessions : gmap string A)
    (objects : gmap string B) k :
  (sweep cutoff sessions objects).1 !! k
  = (if expired cutoff k then None else sessions !! k)
  /\ (sweep cutoff sessions objects).2 !! k
     = (if expired cutoff k && bool_decide (is_Some (sessions !! k))
        then None else objects !! k).
Proof.
  unfold sweep.
  destruct (sweep_fold (B := B) cutoff (map_to_list sessions) sessions
              objects k) as [H1 H2].
  assert (Hin : bool_decide (k ∈ (map_to_list sessions).*1)
                = bool_decide (is_Some (sessions !! k))).
  { apply bool_decide_ext. split.
    - intros [[k' x] [-> Hx]]%list_elem_of_fmap.
      apply elem_of_map_to_list in Hx. by exists x.
    - intros [x Hx]. apply list_elem_of_fmap. exists (k, x).
      split; [done | by apply elem_of_map_to_list]. }
  rewrite Hin in H1, H2. split; [|done].
  rewrite H1. destruct (expired cutoff k); cbn [andb]; [|done].
  destruct (sessions !! k) as [x|];
    [by rewrite bool_decide_eq_true_2 by eauto|].
  by destruct (bool_decide _).
Qed.

(** X29. [cleanup] removes exactly the sessions whose id is expired,
    from all three maps, and leaves heap and random source alone; an id
    made by a [create...Session] method at time [created] is expired
    exactly when [created] is before the cutoff, the current time minus
    [olderThanMinutes] minutes. *)
Theorem cleanup_removes_the_old m olderThanMinutes dateNow :
  let cutoff := Z.of_N dateNow - olderThanMinutes * 60 * 1000 in
  let m' := (step m (Cleanup olderThanMinutes dateNow)).1 in
  (forall prefix created r,
     hasChar "-" prefix = false ->
     expired cutoff (sessionIdOf prefix created r) = (Z.of_N created <? cutoff))
  /\ (forall sessionId,
        getScanSession m' sessionId
        = (if expired cutoff sessionId then None
           else getScanSession m sessionId)
        /\ getPlanSession m' sessionId
           = (if expired cutoff sessionId then None
              else getPlanSession m sessionId)
        /\ getExecutionSession m' sessionId
           = (if expired cutoff sessionId then None
              else getExecutionSession m sessionId))
  /\ heap m' = heap m /\ source m' = source m.
Proof.
  intros cutoff m'. split; [intros; by apply expired_sessionIdOf|].
  subst m'. cbn [SessionManager.step]. unfold cleanup. fold cutoff.
  pose proof (fun k => sweep_lookup cutoff (scanSessions m) (scanners m) k) as H1.
  pose proof (fun k => sweep_lookup cutoff (planSessions m) (planGenerators m) k)
    as H2.
  pose proof (fun k => sweep_lookup cutoff (executionSessions m) (executors m) k)
    as H3.
  destruct (sweep cutoff (scanSessions m) (scanners m)) as [s1 o1].
  destruct (sweep cutoff (planSessions m) (planGenerators m)) as [s2 o2].
  destruct (sweep cutoff (executionSessions m) (executors m)) as [s3 o3].
  cbn [fst snd] in *. split; [|done]. intros sessionId.
  unfold getScanSession, getPlanSession, getExecutionSession.
  cbn [scanSessions planSessions executionSessions].
  by rewrite (proj1 (H1 _)), (proj1 (H2 _)), (proj1 (H3 _)).
Qed.

(** *** What holds of every manager *)

Lemma wellFormed_new g : wellFormed (newManager g).
Proof.
  split_and!; try apply map_Forall_empty. constructor.
Qed.

Lemma enterLoop_keeps i c b ops e :
  is_Some (FileExecutor.progress e) ->
  is_Some (FileExecutor.progress (FileExecutor.enterLoop i c b ops e))
  /\ FileExecutor.exec_plan (FileExecutor.enterLoop i c b ops e)
     = FileExecutor.exec_plan e.
Proof.
  intros [pr Hpr]. unfold FileExecutor.enterLoop.
  destruct (ops !! i); [|by rewrite Hpr].
  destruct (FileExecutor.isCancelled e); [by rewrite Hpr|].
  destruct (FileExecutor.calculateOperationTime _ _). cbn.
  by rewrite Hpr.
Qed.

Lemma executor_step_keeps e ev :
  is_Some (FileExecutor.progress e) ->
  is_Some (FileExecutor.progress (FileExecutor.step e ev))
  /\ FileExecutor.exec_plan (FileExecutor.step e ev) = FileExecutor.exec_plan e.
Proof.
  intros [pr Hpr]. destruct ev; unfold FileExecutor.step.
  - destruct (FileExecutor.phase e); try by rewrite Hpr.
    destruct (FileExecutor.generateFileOperations _ _).
    match goal with
    | |- context [FileExecutor.enterLoop ?i ?c ?b ?ops ?e0] =>
        destruct (enterLoop_keeps i c b ops e0) as [H1 H2];
          [done | split; [exact H1 | by rewrite H2]]
    end.
  - destruct (FileExecutor.phase e); try by rewrite Hpr.
    destruct (FileExecutor.isCancelled e); [by rewrite Hpr|].
    destruct (random _).
    match goal with
    | |- context [FileExecutor.enterLoop ?i ?c ?b ?ops ?e0] =>
        destruct (enterLoop_keeps i c b ops e0) as [H1 H2];
          [by cbn; rewrite Hpr | split; [exact H1 | by rewrite H2]]
    end.
  - destruct (FileExecutor.phase e); try by rewrite Hpr.
    destruct (FileExecutor.isCancelled e); cbn; by rewrite Hpr.
  - cbn. by rewrite Hpr.
Qed.

Lemma executor_started p g :
  is_Some (FileExecutor.progress
             (FileExecutor.step (FileExecutor.create p g)
                FileExecutor.CallExecute))
  /\ FileExecutor.exec_plan
       (FileExecutor.step (FileExecutor.create p g) FileExecutor.CallExecute)
     = p.
Proof.
  rewrite step_CallExecute_create.
  match goal with
  | |- context [FileExecutor.enterLoop ?i ?c ?b ?ops ?e0] =>
      destruct (enterLoop_keeps i c b ops e0) as [H1 H2];
        [done | split; [exact H1 | by rewrite H2]]
  end.
Qed.

Lemma executor_continued e :
  FileExecutor.phase e = FileExecutor.LoopExited ->
  FileExecutor.status (FileExecutor.step e FileExecutor.Continue) = Completed
  \/ FileExecutor.status (FileExecutor.step e FileExecutor.Continue)
     = Cancelled.
Proof.
  intros Hph. unfold FileExecutor.step. rewrite Hph.
  destruct (FileExecutor.isCancelled e); auto.
Qed.

Lemma planAfterDelay_generated folderHits g :
  generated (planAfterDelay folderHits g).1.
Proof.
  exists (length folderHits). unfold planAfterDelay. cbn.
  pose proof (planLoop_inv folderHits [] (PlanGenerator.initLocals g)
                (planInv_init g)) as Hinv.
  cbn in Hinv. by destruct Hinv as (Hroots & _).
Qed.

Lemma scanLoop_wellFormed address session rules i results m :
  wellFormed m -> wellFormed (scanLoop address session rules i results m).
Proof.
  intros (Hs & Hp & He & Hh). unfold scanLoop.
  destruct (scan_roots session !! i); split_and!; cbn; try done.
  - by apply Forall_insert.
  - apply map_Forall_insert_2; [|done]. split; [done|]. right. by split.
  - by apply Forall_insert.
Qed.

Lemma settle_wellFormed address sessionId e m :
  map_Forall okScan (scanSessions m) ->
  map_Forall okPlan (planSessions m) ->
  map_Forall okExecution (executionSessions m) ->
  (forall o, okObject o -> Forall okObject (<[address := o]> (heap m))) ->
  is_Some (FileExecutor.progress e) ->
  generated (FileExecutor.exec_plan e) ->
  wellFormed (settle address sessionId e m).
Proof.
  intros Hs Hp He Hh Hpr Hgen. unfold settle.
  destruct (executor_step_keeps e FileExecutor.Continue Hpr) as [Hpr' Hplan].
  destruct (FileExecutor.phase e) eqn:Hph; unfold wellFormed;
    cbn [scanSessions planSessions executionSessions heap];
    (split; [done|]); (split; [done|]);
    (split; [|apply Hh; split; [done | by rewrite ?Hplan]]); try done.
  apply map_Forall_insert_2; [|done]. split; [done|]. right.
  unfold sessionOf. cbn [execution_progress execution_status plan_id].
  split; [done|]. split; [by apply executor_continued|].
  rewrite Hplan. destruct Hgen as [n Hn]. exists n. by rewrite Hn.
Qed.

Lemma sweep_wellFormed {A B} cutoff (P : string -> A -> Prop)
    (sessions : gmap string A) (objects : gmap string B) :
  map_Forall P sessions ->
  map_Forall P (sweep cutoff sessions objects).1.
Proof.
  intros Hall k x Hk.
  rewrite (proj1 (sweep_lookup cutoff sessions objects k)) in Hk.
  destruct (expired cutoff k); [done|]. by apply Hall.
Qed.

Lemma step_wellFormed m c : wellFormed m -> wellFormed (step m c).1.
Proof.
  intros Hwf. pose proof Hwf as (Hs & Hp & He & Hh).
  destruct c; cbn [SessionManager.step].
  - unfold createScanSession. destruct (random (source m)) as [r g].
    split_and!; cbn; try done.
    apply map_Forall_insert_2; [|done]. split; [done|]. left. by split.
  - unfold startScan.
    destruct (scanSessions m !! sessionId) as [session|]; [|done].
    cbn [fst]. apply scanLoop_wellFormed. split_and!; cbn; try done.
    apply Forall_app. split; [done|]. by repeat constructor.
  - unfold createPlanSession. destruct (random (source m)) as [r g].
    split_and!; cbn; try done.
    apply map_Forall_insert_2; [|done]. split; [done|].
    split; [reflexivity|]. left. repeat split; eauto.
  - destruct (startPlanning_cases sessionId m)
      as [[_ ->]|[(? & _ & _ & ->)
                 |(s & i & ss & h & Hsess & Hid & Hne & Hss & Hres & ->)]];
      [done | done |].
    destruct (Hp _ _ Hsess) as (Hsid & Hpre & Hkind).
    split_and!; cbn; try done.
    + apply map_Forall_insert_2; [|done]. split; [done|]. split; [done|].
      left. destruct Hkind as [(_ & Hnone & Hsome)|(_ & Hnone & _)];
        [|congruence]. repeat split; auto.
    + apply Forall_app. split; [done|]. by repeat constructor.
  - unfold createExecutionSession. destruct (random (source m)) as [r g].
    split_and!; cbn; try done.
    apply map_Forall_insert_2; [|done]. split; [done|]. left. split; auto.
  - destruct (startExecution_cases sessionId m)
      as [[_ ->]|[(? & _ & _ & ->)
                 |(s & ps & p & Hsess & Hne & Hps & Hplan & ->)]];
      [done | done |].
    cbn [fst]. destruct (executor_started p (source m)) as [Hpr Hep].
    apply settle_wellFormed;
      cbn [scanSessions planSessions executionSessions heap]; try done.
    + intros o Ho. rewrite insert_at_end. apply Forall_app.
      split; [done|]. by repeat constructor.
    + rewrite Hep. destruct (Hp _ _ Hps) as (_ & _ & Hkind).
      destruct Hkind as [(_ & Hnone & _)|(_ & _ & p' & Hp' & Hgen)];
        congruence.
  - unfold cancelExecution. split_and!; cbn; try done.
    + destruct (executionSessions m !! sessionId) as [session|] eqn:Hsess;
        [|done].
      destruct (He _ _ Hsess) as [Hid Hkind].
      apply map_Forall_insert_2; [|done]. split; [done|]. cbn.
      destruct Hkind as [[Hnone _]|(Hsome & _ & Hn)]; [left | right]; auto.
    + destruct (executors m !! sessionId) as [address|]; [|done].
      apply Forall_alter; [done|]. intros o _ Ho.
      by destruct o as [| |sid e].
  - unfold cleanup.
    pose proof (sweep_wellFormed (B := nat)
                  (Z.of_N dateNow - olderThanMinutes * 60 * 1000) okScan
                  (scanSessions m) (scanners m) Hs) as Hs'.
    pose proof (sweep_wellFormed (B := nat)
                  (Z.of_N dateNow - olderThanMinutes * 60 * 1000) okPlan
                  (planSessions m) (planGenerators m) Hp) as Hp'.
    pose proof (sweep_wellFormed (B := nat)
                  (Z.of_N dateNow - olderThanMinutes * 60 * 1000) okExecution
                  (executionSessions m) (executors m) He) as He'.
    destruct (sweep _ (scanSessions m) _), (sweep _ (planSessions m) _),
      (sweep _ (executionSessions m) _). by split_and!.
  - cbn [fst]. unfold timer.
    destruct (heap m !! address) as [[session rules i results
                                     |sid hits waiting|sid e]|] eqn:Hobj;
      [| | |done].
    + unfold scanTimer. destruct (scan_status session); try done.
      destruct (scan_roots session !! i); [|done].
      destruct (FileScanner.generateMockResults _ _ _ _ _ _).
      by apply scanLoop_wellFormed.
    + unfold planTimer. destruct waiting; [|done].
      pose proof (planAfterDelay_generated hits (source m)) as Hgen.
      destruct (planAfterDelay hits (source m)) as [p g].
      pose proof (Forall_lookup_1 _ _ _ _ Hh Hobj) as Hpre. cbn in Hpre.
      split_and!; cbn; try done.
      * apply map_Forall_insert_2; [|done]. split; [done|]. split; [done|].
        right. repeat split; eauto.
      * by apply Forall_insert.
    + unfold executionTimer.
      pose proof (Forall_lookup_1 _ _ _ _ Hh Hobj) as [Hpr Hgen].
      destruct (FileExecutor.phase e); try done.
      assert (Hpr' : is_Some (FileExecutor.progress (withSource e (source m))))
        by done.
      destruct (executor_step_keeps _ FileExecutor.TimerFires Hpr')
        as [Hpr'' Hep].
      apply settle_wellFormed; try done.
      * intros o Ho. by apply Forall_insert.
      * by rewrite Hep.
Qed.

Lemma run_wellFormed calls : forall m, wellFormed m -> wellFormed (run calls m).
Proof.
  induction calls as [|c calls IH]; intros m Hwf; [done|].
  apply IH, step_wellFormed, Hwf.
Qed.

Lemma join_head c x rest sep :
  exists tail, join (String c x :: rest) sep = String c tail.
Proof. destruct rest; cbn [join]; eauto. Qed.

(** X30. In every manager reached from a new one by calls and timers: a
    stored session carries the id it is stored under; a scan session is
    Created without results or Completed with results; a plan session is
    Created or Running without a plan, or Completed with a plan, and then
    [startPlanning] throws; an execution session without progress is
    Created or Cancelled, and one with progress is Completed or
    Cancelled, and then [startExecution] throws: no session is planned or
    executed a second time, and none is stored as Failed. *)
Theorem reachable_sessions calls g :
  let m := run calls (newManager g) in
  (forall sessionId session,
     getScanSession m sessionId = Some session ->
     scan_session_id session = sessionId
     /\ ((scan_status session = Created /\ scan_results session = None)
         \/ (scan_status session = Completed
             /\ is_Some (scan_results session))))
  /\ (forall sessionId session,
        getPlanSession m sessionId = Some session ->
        plan_session_id session = sessionId
        /\ (((planning_status session = Created
              \/ planning_status session = Running)
             /\ session_plan session = None)
            \/ (planning_status session = Completed
                /\ is_Some (session_plan session)
                /\ step m (StartPlanning sessionId)
                   = (m, Thrown "Scan session or results not found"))))
  /\ (forall sessionId session,
        getExecutionSession m sessionId = Some session ->
        execution_session_id session = sessionId
        /\ ((execution_progress session = None
             /\ (execution_status session = Created
                 \/ execution_status session = Cancelled))
            \/ (is_Some (execution_progress session)
                /\ (execution_status session = Completed
                    \/ execution_status session = Cancelled)
                /\ step m (StartExecution sessionId)
                   = (m, Thrown "Plan session or plan not found")))).
Proof.
  intros m.
  destruct (run_wellFormed calls _ (wellFormed_new g)) as (Hs & Hp & He & _).
  fold m in Hs, Hp, He. split; [|split].
  - intros sessionId session Hsess. by apply Hs.
  - intros sessionId session Hsess.
    destruct (Hp _ _ Hsess) as (Hid & _ & Hkind). split; [done|].
    destruct Hkind as [(Hst & Hnone & _)|(Hst & Hscan & p & Hplan & _)];
      [by left | right].
    split; [done|]. split; [by rewrite Hplan|].
    cbn [SessionManager.step]. unfold startPlanning.
    unfold getPlanSession in Hsess. by rewrite Hsess, Hscan.
  - intros sessionId session Hsess.
    destruct (He _ _ Hsess) as (Hid & Hkind). split; [done|].
    destruct Hkind as [?|(Hsome & Hst & n & Hn)]; [by left | right].
    split; [done|]. split; [done|].
    cbn [SessionManager.step]. unfold startExecution.
    unfold getExecutionSession in Hsess. rewrite Hsess, Hn.
    destruct n as [|n]; [done|].
    cbn [seq fmap list_fmap].
    destruct (join_head "n" ("ode_" +:+ pretty 0%nat)
                (PlanGenerator.nodeId <$> seq 1 n) ",") as [tail Htail].
    change (PlanGenerator.nodeId 0) with (String "n" ("ode_" +:+ pretty 0%nat)).
    rewrite Htail. cbn [truthy String.eqb negb].
    destruct (planSessions m !! String "n" tail) as [ps|] eqn:Hps; [|done].
    destruct (Hp _ _ Hps) as (_ & Hpre & _). by cbn in Hpre.
Qed.

End ManagerCalls.

(** ** The properties at concrete inputs *)

Section FurtherWitnesses.
Import JsString Effects Types Spec Invariants Lifecycle.

(** X1, witness: the pattern [cache] matches the name [cache]. *)
Lemma matchGlob_literal_witness :
  hasChar "*" "cache" = false /\ hasChar "?" "cache" = false
  /\ FileScanner.matchGlob "cache" "cache" = true.
Proof.
  assert (Hs : hasChar "*" "cache" = false) by reflexivity.
  assert (Hq : hasChar "?" "cache" = false) by reflexivity.
  split; [exact Hs|]. split; [exact Hq|].
  exact (proj2 (matchGlob_literal "cache" "cache" Hs Hq) eq_refl).
Defined.

(** X2, witness: the glob [*port*] on the name [report_q1]. *)
Lemma matchGlob_wrapped_literal_witness :
  hasChar "*" "port" = false /\ hasChar "?" "port" = false
  /\ noLineTerminators "report_q1" = true
  /\ FileScanner.matchGlob "report_q1" ("*" +:+ "port" +:+ "*")
     = includes "report_q1" "port".
Proof.
  assert (Hs : hasChar "*" "port" = false) by reflexivity.
  assert (Hq : hasChar "?" "port" = false) by reflexivity.
  assert (Hn : noLineTerminators "report_q1" = true) by reflexivity.
  split; [exact Hs|]. split; [exact Hq|]. split; [exact Hn|].
  exact (matchGlob_wrapped_literal "report_q1" "port" Hs Hq Hn).
Defined.

(** X8, witness: the template [Archive]. *)
Lemma generateDestinationPath_verbatim_witness :
  hasChar "{" (template literalRule) = false
  /\ FileScanner.generateDestinationPath reportFolder literalRule someDay
     = "D:\out\Archive".
Proof.
  assert (Hp : hasChar "{" (template literalRule) = false) by reflexivity.
  split; [exact Hp|].
  exact (generateDestinationPath_verbatim someDay reportFolder literalRule Hp).
Defined.

(** X11, witness: a folder that could not be read. *)
Lemma AccessDenied_forces_Skip_witness :
  AccessDenied ∈ warnings deniedHit
  /\ (PlanGenerator.determineOperationKind deniedHit highDraws).1 = Skip.
Proof.
  assert (Hin : AccessDenied ∈ warnings deniedHit) by (by left).
  split; [exact Hin|].
  exact (proj2 (AccessDenied_forces_Skip deniedHit highDraws Hin)).
Defined.

(** X17, witness: the five operations of a plan of one root, run to
    completion. *)
Lemma Completed_ran_every_operation_witness :
  singleCall
    (FileExecutor.CallExecute
     :: repeat FileExecutor.TimerFires 5 ++ [FileExecutor.Continue])
  /\ FileExecutor.status
    (FileExecutor.run
       (FileExecutor.CallExecute
        :: repeat FileExecutor.TimerFires 5 ++ [FileExecutor.Continue])
       (FileExecutor.create renamePlan zeroDraws))
  = Completed
  /\ FileExecutor.started
       (FileExecutor.run
          (FileExecutor.CallExecute
           :: repeat FileExecutor.TimerFires 5 ++ [FileExecutor.Continue])
          (FileExecutor.create renamePlan zeroDraws))
     = 5%nat.
Proof.
  assert (Hs : FileExecutor.status
                 (FileExecutor.run
                    (FileExecutor.CallExecute
                     :: repeat FileExecutor.TimerFires 5
                        ++ [FileExecutor.Continue])
                    (FileExecutor.create renamePlan zeroDraws))
               = Completed) by (vm_compute; reflexivity).
  assert (Hc : singleCall
                 (FileExecutor.CallExecute
                  :: repeat FileExecutor.TimerFires 5
                     ++ [FileExecutor.Continue]))
    by (vm_compute; lia).
  split; [exact Hc|]. split; [exact Hs|].
  exact (proj1 (proj2 (Completed_ran_every_operation _ renamePlan zeroDraws
                         Hc Hs))).
Defined.

(** X18, witness: a cancellation during the second operation. *)
Lemma Cancelled_reports_elapsed_operations_witness :
  singleCall
    [FileExecutor.CallExecute; FileExecutor.TimerFires;
     FileExecutor.CallCancel; FileExecutor.TimerFires;
     FileExecutor.Continue]
  /\ safeSum FileExecutor.op_size
       (FileExecutor.generateFileOperations renamePlan zeroDraws).1
  /\ FileExecutor.status
    (FileExecutor.run
       [FileExecutor.CallExecute; FileExecutor.TimerFires;
        FileExecutor.CallCancel; FileExecutor.TimerFires;
        FileExecutor.Continue]
       (FileExecutor.create renamePlan zeroDraws))
  = Cancelled
  /\ FileExecutor.isCancelled
       (FileExecutor.run
          [FileExecutor.CallExecute; FileExecutor.TimerFires;
           FileExecutor.CallCancel; FileExecutor.TimerFires;
           FileExecutor.Continue]
          (FileExecutor.create renamePlan zeroDraws))
     = true.
Proof.
  assert (Hs : FileExecutor.status
                 (FileExecutor.run
                    [FileExecutor.CallExecute; FileExecutor.TimerFires;
                     FileExecutor.CallCancel; FileExecutor.TimerFires;
                     FileExecutor.Continue]
                    (FileExecutor.create renamePlan zeroDraws))
               = Cancelled) by (vm_compute; reflexivity).
  assert (Hc : singleCall
                 [FileExecutor.CallExecute; FileExecutor.TimerFires;
                  FileExecutor.CallCancel; FileExecutor.TimerFires;
                  FileExecutor.Continue]) by (vm_compute; lia).
  assert (Hb : safeSum FileExecutor.op_size
                 (FileExecutor.generateFileOperations renamePlan
                    zeroDraws).1).
  { split; [|vm_compute; discriminate].
    vm_compute. repeat constructor; discriminate. }
  split; [exact Hc|]. split; [exact Hb|]. split; [exact Hs|].
  exact (proj1 (proj2 (Cancelled_reports_elapsed_operations _ renamePlan
                         zeroDraws Hc Hb Hs))).
Defined.

(** X19, witness: the run waits for the second operation. *)
Lemma in_flight_progress_witness :
  singleCall [FileExecutor.CallExecute; FileExecutor.TimerFires]
  /\ safeSum FileExecutor.op_size
       (FileExecutor.generateFileOperations renamePlan zeroDraws).1
  /\ FileExecutor.phase
    (FileExecutor.run [FileExecutor.CallExecute; FileExecutor.TimerFires]
       (FileExecutor.create renamePlan zeroDraws))
  = FileExecutor.InFlight 1 1 0
      (FileExecutor.generateFileOperations renamePlan zeroDraws).1
  /\ FileExecutor.started
       (FileExecutor.run [FileExecutor.CallExecute; FileExecutor.TimerFires]
          (FileExecutor.create renamePlan zeroDraws))
     = 2%nat.
Proof.
  assert (Hp : FileExecutor.phase
                 (FileExecutor.run
                    [FileExecutor.CallExecute; FileExecutor.TimerFires]
                    (FileExecutor.create renamePlan zeroDraws))
               = FileExecutor.InFlight 1 1 0
                   (FileExecutor.generateFileOperations renamePlan
                      zeroDraws).1) by (vm_compute; reflexivity).
  assert (Hc : singleCall [FileExecutor.CallExecute; FileExecutor.TimerFires])
    by (vm_compute; lia).
  assert (Hb : safeSum FileExecutor.op_size
                 (FileExecutor.generateFileOperations renamePlan
                    zeroDraws).1).
  { split; [|vm_compute; discriminate].
    vm_compute. repeat constructor; discriminate. }
  split; [exact Hc|]. split; [exact Hb|]. split; [exact Hp|].
  exact (proj1 (proj2 (proj2 (in_flight_progress _ renamePlan zeroDraws
                                _ _ _ _ Hc Hb Hp)))).
Defined.

(** X20, witness: a cancellation after completion. *)
Lemma finished_is_final_witness :
  calls [FileExecutor.CallCancel] = 0%nat
  /\ FileExecutor.phase
    (FileExecutor.run
       (FileExecutor.CallExecute
        :: repeat FileExecutor.TimerFires 5 ++ [FileExecutor.Continue])
       (FileExecutor.create renamePlan zeroDraws))
  = FileExecutor.Finished
  /\ FileExecutor.status
       (FileExecutor.run [FileExecutor.CallCancel]
          (FileExecutor.run
             (FileExecutor.CallExecute
              :: repeat FileExecutor.TimerFires 5 ++ [FileExecutor.Continue])
             (FileExecutor.create renamePlan zeroDraws)))
     = FileExecutor.status
         (FileExecutor.run
            (FileExecutor.CallExecute
             :: repeat FileExecutor.TimerFires 5 ++ [FileExecutor.Continue])
            (FileExecutor.create renamePlan zeroDraws)).
Proof.
  assert (Hp : FileExecutor.phase
                 (FileExecutor.run
                    (FileExecutor.CallExecute
                     :: repeat FileExecutor.TimerFires 5
                        ++ [FileExecutor.Continue])
                    (FileExecutor.create renamePlan zeroDraws))
               = FileExecutor.Finished) by (vm_compute; reflexivity).
  assert (Hc : calls [FileExecutor.CallCancel] = 0%nat) by reflexivity.
  split; [exact Hc|]. split; [exact Hp|].
  exact (proj1 (proj2 (finished_is_final _ [FileExecutor.CallCancel] Hp Hc))).
Defined.

(** X21, witness: a plan of three folders that no rule matched, during
    the wait for its thirteenth operation. *)
Lemma total_ops_is_no_bound_witness :
  Forall (fun node => node_kind node = Skip \/ node_kind node = OpNone)
    (knownRoots skippedPlan)
  /\ (3 <= length (knownRoots skippedPlan))%nat
  /\ exists pr,
       FileExecutor.progress
         (FileExecutor.run
            (FileExecutor.CallExecute
             :: repeat FileExecutor.TimerFires 12)
            (FileExecutor.create skippedPlan zeroDraws))
       = Some pr
       /\ FileExecutor.total_ops pr = 10
       /\ FileExecutor.completed_ops pr = 12.
Proof.
  assert (Hk : Forall (fun node => node_kind node = Skip
                                   \/ node_kind node = OpNone)
                 (knownRoots skippedPlan))
    by (vm_compute; repeat constructor).
  assert (Hn : (3 <= length (knownRoots skippedPlan))%nat)
    by (vm_compute; lia).
  split; [exact Hk|]. split; [exact Hn|].
  destruct (total_ops_is_no_bound skippedPlan zeroDraws Hk Hn) as [Hlen Hrun].
  exact (proj2 (Hrun 12%nat ltac:(lia))).
Defined.


(** X24, witness: the scan of one root, from the call to the end of
    its delay. *)
Lemma scan_lifecycle_witness :
  SessionManager.getScanSession scanManager "scan-2-b" = Some createdScan
  /\ SessionManager.scan_status
       <$> SessionManager.getScanSession
             (SessionManager.run noRegExp someSuffix
                [SessionManager.StartScan "scan-2-b" [];
                 SessionManager.Timer 0 someDay] scanManager)
             "scan-2-b"
     = Some Completed.
Proof.
  assert (Hs : SessionManager.getScanSession scanManager "scan-2-b"
               = Some createdScan) by (vm_compute; reflexivity).
  split; [exact Hs|].
  exact (f_equal (fmap SessionManager.scan_status)
           (proj2 (scan_lifecycle noRegExp someSuffix scanManager "scan-2-b"
                     createdScan [] someDay 1 Hs) eq_refl)).
Defined.

(** X25, witness: a plan session for the finished scan. *)
Lemma planning_uses_every_hit_witness :
  "scan-1-a" <> EmptyString
  /\ SessionManager.getScanSession scanManager "scan-1-a" = Some finishedScan
  /\ SessionManager.scan_results finishedScan = Some [renameHit]
  /\ SessionManager.getPlanSession
       (SessionManager.run noRegExp someSuffix
          [SessionManager.CreatePlanSession "scan-1-a" [] 1700000000000;
           SessionManager.StartPlanning "plan-1700000000000-k3x9"]
          scanManager)
       "plan-1700000000000-k3x9"
     = Some (SessionManager.mkPlanSession "plan-1700000000000-k3x9"
               (Some "scan-1-a") Running None).
Proof.
  assert (Hne : "scan-1-a" <> EmptyString) by discriminate.
  assert (Hs : SessionManager.getScanSession scanManager "scan-1-a"
               = Some finishedScan) by (vm_compute; reflexivity).
  assert (Hr : SessionManager.scan_results finishedScan = Some [renameHit])
    by reflexivity.
  split; [exact Hne|]. split; [exact Hs|]. split; [exact Hr|].
  exact (proj1 (planning_uses_every_hit noRegExp someSuffix scanManager
                  "scan-1-a" finishedScan [renameHit] [] 1700000000000%N
                  someDay Hne Hs Hr)).
Defined.

(** X26, witness: the execution of a plan of one root, with five
    operations. *)
Lemma execution_lifecycle_witness :
  SessionManager.getExecutionSession planManager "exec-1-a"
  = Some createdExecution
  /\ SessionManager.plan_id createdExecution <> EmptyString
  /\ SessionManager.getPlanSession planManager
       (SessionManager.plan_id createdExecution) = Some finishedPlan
  /\ SessionManager.session_plan finishedPlan = Some renamePlan
  /\ SessionManager.execution_status
       <$> SessionManager.getExecutionSession
             (SessionManager.run noRegExp someSuffix
                (SessionManager.StartExecution "exec-1-a"
                 :: repeat (SessionManager.Timer 0 someDay) 5) planManager)
             "exec-1-a"
     = Some Completed.
Proof.
  assert (Hs : SessionManager.getExecutionSession planManager "exec-1-a"
               = Some createdExecution) by (vm_compute; reflexivity).
  assert (Hne : SessionManager.plan_id createdExecution <> EmptyString)
    by discriminate.
  assert (Hp : SessionManager.getPlanSession planManager
                 (SessionManager.plan_id createdExecution)
               = Some finishedPlan) by (vm_compute; reflexivity).
  assert (Hq : SessionManager.session_plan finishedPlan = Some renamePlan)
    by reflexivity.
  split; [exact Hs|]. split; [exact Hne|]. split; [exact Hp|].
  split; [exact Hq|].
  exact (f_equal (fmap SessionManager.execution_status)
           (proj2 (execution_lifecycle noRegExp someSuffix planManager
                     "exec-1-a" createdExecution finishedPlan renamePlan
                     someDay 5 Hs Hne Hp Hq) eq_refl)).
Defined.

(** X27, witness: cancellations before the start and after the end
    of that execution. *)
Lemma cancel_outside_a_run_witness :
  SessionManager.getExecutionSession planManager "exec-1-a"
  = Some createdExecution
  /\ SessionManager.plan_id createdExecution <> EmptyString
  /\ SessionManager.getPlanSession planManager
       (SessionManager.plan_id createdExecution) = Some finishedPlan
  /\ SessionManager.session_plan finishedPlan = Some renamePlan
  /\ SessionManager.getExecutionSession
       (SessionManager.step noRegExp someSuffix planManager
          (SessionManager.CancelExecution "exec-1-a")).1 "exec-1-a"
     = Some (SessionManager.mkExecutionSession "exec-1-a" "plan-1-a"
               Cancelled None).
Proof.
  assert (Hs : SessionManager.getExecutionSession planManager "exec-1-a"
               = Some createdExecution) by (vm_compute; reflexivity).
  assert (Hne : SessionManager.plan_id createdExecution <> EmptyString)
    by discriminate.
  assert (Hp : SessionManager.getPlanSession planManager
                 (SessionManager.plan_id createdExecution)
               = Some finishedPlan) by (vm_compute; reflexivity).
  assert (Hq : SessionManager.session_plan finishedPlan = Some renamePlan)
    by reflexivity.
  split; [exact Hs|]. split; [exact Hne|]. split; [exact Hp|].
  split; [exact Hq|].
  exact (proj1 (cancel_outside_a_run noRegExp someSuffix planManager
                  "exec-1-a" createdExecution finishedPlan renamePlan
                  someDay Hs Hne Hp Hq)).
Defined.

(** X28, witness: a cancellation during the third operation of that
    execution. *)
Lemma cancel_during_a_run_witness :
  SessionManager.getExecutionSession planManager "exec-1-a"
  = Some createdExecution
  /\ SessionManager.plan_id createdExecution <> EmptyString
  /\ SessionManager.getPlanSession planManager
       (SessionManager.plan_id createdExecution) = Some finishedPlan
  /\ SessionManager.session_plan finishedPlan = Some renamePlan
  /\ (2 < length (FileExecutor.generateFileOperations renamePlan
                    (SessionManager.source planManager)).1)%nat
  /\ SessionManager.getExecutionSession
       (SessionManager.step noRegExp someSuffix
          (SessionManager.run noRegExp someSuffix
             (SessionManager.StartExecution "exec-1-a"
              :: repeat (SessionManager.Timer 0 someDay) 2) planManager)
          (SessionManager.CancelExecution "exec-1-a")).1 "exec-1-a"
     = Some (SessionManager.mkExecutionSession "exec-1-a" "plan-1-a"
               Cancelled None).
Proof.
  assert (Hs : SessionManager.getExecutionSession planManager "exec-1-a"
               = Some createdExecution) by (vm_compute; reflexivity).
  assert (Hne : SessionManager.plan_id createdExecution <> EmptyString)
    by discriminate.
  assert (Hp : SessionManager.getPlanSession planManager
                 (SessionManager.plan_id createdExecution)
               = Some finishedPlan) by (vm_compute; reflexivity).
  assert (Hq : SessionManager.session_plan finishedPlan = Some renamePlan)
    by reflexivity.
  assert (Hj : (2 < length (FileExecutor.generateFileOperations renamePlan
                              (SessionManager.source planManager)).1)%nat)
    by (vm_compute; lia).
  split; [exact Hs|]. split; [exact Hne|]. split; [exact Hp|].
  split; [exact Hq|]. split; [exact Hj|].
  exact (proj1 (cancel_during_a_run noRegExp someSuffix planManager
                  "exec-1-a" createdExecution finishedPlan renamePlan
                  someDay 2 Hs Hne Hp Hq Hj)).
Defined.

End FurtherWitnesses.
